(** * minecraft-manager: the scoped filesystem gateway and the process
      supervision routes of [server.js], embedded and verified.

    The Express handlers of [server.js] are translated one by one into
    functions over an explicit filesystem state (and, for the supervision
    routes, an explicit state of the external process manager).  Paths are
    JavaScript strings, joined and normalised as Node's [path.posix] does
    it, and compared with [String.prototype.startsWith] exactly as the
    handlers do. *)

From Stdlib Require Import ZArith Ascii String.
From stdpp Require Import gmap strings list fin_maps pretty.

Local Open Scope string_scope.
Local Open Scope list_scope.

(** ** JavaScript strings *)

Module JsString.

(** [s.startsWith(p)] *)
Definition startsWith (s p : string) : bool := String.prefix p s.

Fixpoint rev_onto (acc s : string) : string :=
  match s with
  | EmptyString => acc
  | String c r => rev_onto (String c acc) r
  end.

Definition reverse (s : string) : string := rev_onto EmptyString s.

(** [s.endsWith(p)] *)
Definition endsWith (s p : string) : bool :=
  String.prefix (reverse p) (reverse s).

Definition lower_char (c : ascii) : ascii :=
  let n := nat_of_ascii c in
  if (65 <=? n)%nat && (n <=? 90)%nat then ascii_of_nat (n + 32) else c.

(** [s.toLowerCase()], on the ASCII letters.  No character outside ASCII
    lowers to one of the four characters of [.zip], so the test
    [toLowerCase().endsWith('.zip')] is decided by this part alone. *)
Fixpoint toLowerCase (s : string) : string :=
  match s with
  | EmptyString => EmptyString
  | String c r => String (lower_char c) (toLowerCase r)
  end.

(** Truthiness of a string-valued request field: [undefined] and the
    empty string are falsy. *)
Definition truthy (o : option string) : bool :=
  match o with
  | Some EmptyString | None => false
  | Some _ => true
  end.

(** [o || ''] *)
Definition or_empty (o : option string) : string :=
  match o with
  | Some s => s
  | None => EmptyString
  end.

End JsString.

(** ** Node's [path] module (POSIX flavour) *)

Module NodePath.

Definition slash : ascii := "/"%char.

(** [s.split('/')]: the pieces between separators, empty pieces kept. *)
Fixpoint split_slash (s : string) : list string :=
  match s with
  | EmptyString => [EmptyString]
  | String c r =>
      if Ascii.eqb c slash then EmptyString :: split_slash r
      else match split_slash r with
           | h :: t => String c h :: t
           | [] => [String c EmptyString]
           end
  end.

(** A string without separator. *)
Definition no_slash (s : string) : Prop := split_slash s = [s].

(** One segment of [normalizeString]: the result so far is kept as a
    stack, last segment first.  Empty segments and [.] are dropped; [..]
    removes the last segment unless there is none or it is itself [..],
    in which case it is kept only when [allowAboveRoot]. *)
Definition norm_step (allowAboveRoot : bool) (stk : list string)
    (seg : string) : list string :=
  if decide (seg = "" ∨ seg = ".") then stk
  else if decide (seg = "..") then
    match stk with
    | top :: rest =>
        if decide (top = "..")
        then (if allowAboveRoot then ".." :: stk else stk)
        else rest
    | [] => if allowAboveRoot then [".."] else []
    end
  else seg :: stk.

Definition normalizeSegs (allowAboveRoot : bool) (segs : list string)
    : list string :=
  rev (fold_left (norm_step allowAboveRoot) segs []).

Fixpoint join_slash (l : list string) : string :=
  match l with
  | [] => ""
  | [s] => s
  | s :: r => s +:+ "/" +:+ join_slash r
  end.

Definition isAbsolute (p : string) : bool :=
  match p with
  | String c _ => Ascii.eqb c slash
  | EmptyString => false
  end.

Definition trailingSlash (p : string) : bool :=
  match JsString.reverse p with
  | String c _ => Ascii.eqb c slash
  | EmptyString => false
  end.

(** [path.normalize(p)] *)
Definition normalize (p : string) : string :=
  match p with
  | EmptyString => "."
  | _ =>
      let abs := isAbsolute p in
      match normalizeSegs (negb abs) (split_slash p) with
      | [] => if abs then "/" else if trailingSlash p then "./" else "."
      | segs =>
          (if abs then "/" else "") +:+ join_slash segs
            +:+ (if trailingSlash p then "/" else "")
      end
  end.

(** [path.join(...args)]: empty arguments are skipped, the others are
    glued with [/] and the result is normalised. *)
Definition join (args : list string) : string :=
  match filter (λ a, a ≠ "") args with
  | [] => "."
  | parts => normalize (join_slash parts)
  end.

Fixpoint skip_slashes (r : string) : string :=
  match r with
  | String c r' => if Ascii.eqb c slash then skip_slashes r' else r
  | EmptyString => EmptyString
  end.

Fixpoint after_name (r : string) : option string :=
  match r with
  | String c r' => if Ascii.eqb c slash then Some r' else after_name r'
  | EmptyString => None
  end.

(** [path.dirname(p)]: the scan runs from the end of the path down to
    its second character, here over the reversed tail. *)
Definition dirname (p : string) : string :=
  match p with
  | EmptyString => "."
  | String c0 rest =>
      let hasRoot := Ascii.eqb c0 slash in
      match after_name (skip_slashes (JsString.reverse rest)) with
      | None => if hasRoot then "/" else "."
      | Some rem =>
          if hasRoot && bool_decide (rem = "") then "//"
          else String c0 (JsString.reverse rem)
      end
  end.

(** Where a path [rel] leads from the location [base]. *)
Definition resolve_from (base : list string) (rel : string) : list string :=
  rev (fold_left (norm_step false) (split_slash rel) (rev base)).

(** The segments of the location that the text of an absolute path
    names once normalised.  (A relative path is read as if it began at
    [/]; a path that is relative is glued to the working directory
    before it gets here, see [More.from_cwd].) *)
Definition segments (p : string) : list string :=
  normalizeSegs false (split_slash p).

End NodePath.

(** ** The filesystem

    A filesystem state maps the segment list of an absolute location to
    what is stored there: a regular file with its content, or a
    directory.  The key [[]] is the root directory. *)

Module Fs.

Inductive node : Type :=
| File (content : string)
| Dir.

#[global] Instance node_eq_dec : EqDecision node.
Proof. solve_decision. Defined.

Inductive errno : Type :=
| ENOENT | ENOTDIR | EISDIR | EEXIST | EINVAL | ENOTEMPTY | ENAMETOOLONG.

Inductive result (A : Type) : Type :=
| Ok (a : A)
| Throw (e : errno).
Arguments Ok {A} a.
Arguments Throw {A} e.

Abbreviation key := (list string).
Abbreviation state := (gmap (list string) node).

Definition parent (k : key) : key := take (length k - 1) k.

(** How the kernel follows the components of a path from the location
    [cur] (there are no symbolic links): to follow a component, also an
    empty one, [.] or [..], what has been reached must be an existing
    directory; the last component is left unchecked.  [None] stands for
    ENOENT and ENOTDIR. *)
Fixpoint walk (fs : state) (cur : key) (comps : list string) : option key :=
  match comps with
  | [] => Some cur
  | c :: rest =>
      match fs !! cur with
      | Some Dir =>
          if decide (c = "" ∨ c = ".") then walk fs cur rest
          else if decide (c = "..") then walk fs (parent cur) rest
          else walk fs (cur ++ [c]) rest
      | _ => None
      end
  end.

Fixpoint strip_prefix (p k : key) : option key :=
  match p, k with
  | [], _ => Some k
  | a :: p', b :: k' => if decide (a = b) then strip_prefix p' k' else None
  | _ :: _, [] => None
  end.

(** [k] is [p] or lies below it. *)
Definition under (p k : key) : bool :=
  match strip_prefix p k with Some _ => true | None => false end.

Definition child_of (d k : key) : option string :=
  match strip_prefix d k with
  | Some [n] => Some n
  | _ => None
  end.

Definition children (fs : state) (d : key) : list string :=
  omap (λ kv : key * node, child_of d kv.1) (map_to_list fs).

(** A name a directory entry can have. *)
Definition valid_name (n : string) : Prop :=
  n ≠ "" ∧ n ≠ "." ∧ n ≠ ".." ∧ NodePath.split_slash n = [n].

#[global] Instance valid_name_dec n : Decision (valid_name n).
Proof. unfold valid_name. apply _. Defined.

(** The invariant of a filesystem: the root is a directory, every entry
    sits in a directory, and entries have proper names. *)
Definition wf (fs : state) : Prop :=
  fs !! [] = Some Dir ∧
  map_Forall (λ (k : key) (_ : node),
                k = [] ∨ (fs !! parent k = Some Dir ∧ Forall valid_name k)) fs.

(** All proper ancestors of [k] are directories. *)
Definition dirs_above (fs : state) (k : key) : Prop :=
  ∀ r1 r2, k = r1 ++ r2 → r2 ≠ [] → fs !! r1 = Some Dir.

Definition names_valid (fs : state) : Prop :=
  ∀ k, is_Some (fs !! k) → Forall valid_name k.

Definition is_file (o : option node) : Prop := ∃ c, o = Some (File c).

(** From [fs] to [fs']: names stay proper and directories stay. *)
Definition grows (fs fs' : state) : Prop :=
  (names_valid fs → names_valid fs') ∧
  (∀ k, fs !! k = Some Dir → fs' !! k = Some Dir).

(** The locations on the way from [pre] down to [pre ++ rest]. *)
Fixpoint walk_keys (pre rest : key) : list key :=
  pre :: match rest with
         | [] => []
         | s :: r => walk_keys (pre ++ [s]) r
         end.

Definition mark_dirs (qs : list key) (fs : state) : state :=
  foldr (λ q m, <[q := Dir]> m) fs qs.

(** *** The calls of [fs], on resolved locations *)

Definition ensure_dir (last : bool) (k : key) (fs : state) : result state :=
  match fs !! k with
  | Some Dir => Ok fs
  | Some (File _) => Throw (if last then EEXIST else ENOTDIR)
  | None => Ok (<[k := Dir]> fs)
  end.

Fixpoint mkdir_walk (pre rest : key) (fs : state) : result state :=
  match rest with
  | [] => ensure_dir true pre fs
  | s :: r =>
      match ensure_dir false pre fs with
      | Ok fs' => mkdir_walk (pre ++ [s]) r fs'
      | Throw e => Throw e
      end
  end.

(** [mkdir(k, { recursive: true })] *)
Definition mkdir_p (k : key) (fs : state) : result state := mkdir_walk [] k fs.

Definition write_at (k : key) (content : string) (fs : state) : result state :=
  match k with
  | [] => Throw EISDIR
  | _ =>
      match fs !! parent k with
      | Some Dir =>
          match fs !! k with
          | Some Dir => Throw EISDIR
          | _ => Ok (<[k := File content]> fs)
          end
      | Some (File _) => Throw ENOTDIR
      | None => Throw ENOENT
      end
  end.

Definition read_at (k : key) (fs : state) : result string :=
  match fs !! k with
  | Some (File c) => Ok c
  | Some Dir => Throw EISDIR
  | None => Throw ENOENT
  end.

Definition readdir_at (k : key) (fs : state) : result (list string) :=
  match fs !! k with
  | Some Dir => Ok (children fs k)
  | Some (File _) => Throw ENOTDIR
  | None => Throw ENOENT
  end.

Definition unlink_at (k : key) (fs : state) : result state :=
  match fs !! k with
  | Some (File _) => Ok (delete k fs)
  | Some Dir => Throw EISDIR
  | None => Throw ENOENT
  end.

(** [rm(k, { recursive: true, force: true })]: the entry and everything
    below it go; an absent entry is no error. *)
Definition rm_rf (k : key) (fs : state) : state :=
  filter (λ kv : key * node, under k kv.1 = false) fs.

Definition rekey (src dst : key) (fs : state) : state :=
  list_to_map
    ((λ kv : key * node, (dst ++ drop (length src) kv.1, kv.2))
       <$> map_to_list (filter (λ kv : key * node, under src kv.1 = true) fs)).

(** [rename(src, dst)]: the whole subtree moves. *)
Definition rename_at (src dst : key) (fs : state) : result state :=
  match fs !! src with
  | None => Throw ENOENT
  | Some s =>
      if decide (src = dst) then Ok fs
      else if under src dst then Throw EINVAL
      else
        match fs !! parent dst with
        | Some Dir =>
            let moved := rekey src dst fs ∪ rm_rf dst (rm_rf src fs) in
            match s, fs !! dst with
            | File _, Some Dir => Throw EISDIR
            | Dir, Some (File _) => Throw ENOTDIR
            | Dir, Some Dir =>
                match children fs dst with
                | [] => Ok moved
                | _ => Throw ENOTEMPTY
                end
            | _, _ => Ok moved
            end
        | Some (File _) => Throw ENOTDIR
        | None => Throw ENOENT
        end
  end.

Definition copy_file_at (src dst : key) (fs : state) : result state :=
  match read_at src fs with
  | Ok c => write_at dst c fs
  | Throw e => Throw e
  end.

End Fs.

(** ** Asynchronous filesystem code: state and exceptions

    An [async] handler body threads the filesystem through its awaited
    calls; a call that rejects aborts the rest of the [try] block, and what
    was written before stays written. *)

Module Io.
Import Fs.

Definition io (A : Type) : Type := state → result A * state.

#[global] Instance io_ret : MRet io := λ A a fs, (Ok a, fs).

#[global] Instance io_bind : MBind io := λ A B f m fs,
  match m fs with
  | (Ok a, fs') => f a fs'
  | (Throw e, fs') => (Throw e, fs')
  end.

Definition update (op : state → result state) : io unit := λ fs,
  match op fs with
  | Ok fs' => (Ok (), fs')
  | Throw e => (Throw e, fs)
  end.

Definition query {A} (op : state → result A) : io A := λ fs, (op fs, fs).

Definition throw {A} (e : errno) : io A := λ fs, (Throw e, fs).

(** [try { body } catch (error) { handler }] *)
Definition try_io {A} (body : io A) (handler : A) : io A := λ fs,
  match body fs with
  | (Ok a, fs') => (Ok a, fs')
  | (Throw _, fs') => (Ok handler, fs')
  end.

Definition run_try {A} (body : io A) (handler : A) : state → A * state := λ fs,
  match body fs with
  | (Ok a, fs') => (a, fs')
  | (Throw _, fs') => (handler, fs')
  end.

(** *** The promisified [fs] calls, on path strings

    The calls below take a path string to the location that its text
    names once normalised ([NodePath.segments]).  The kernel follows
    the components one by one instead ([kernel_resolve]); wherever it
    can follow an absolute path at all, it arrives at that same
    location.  The two differ where it cannot: behind a component that
    is missing or no directory, as in [file/] or [missing/../x].
    Properties of handlers that are given such a path as it comes from
    the client are stated for paths the kernel can follow.  Likewise
    [mkdir] makes the directories on the way to the normalised location
    only, where the recursive [mkdir] of [x/../y] would make [x] too. *)

(** The location the kernel resolves the absolute path [p] to. *)
Definition kernel_resolve (fs : state) (p : string) : option key :=
  if NodePath.isAbsolute p then walk fs [] (NodePath.split_slash p) else None.

(** What the kernel finds at the absolute path [p]. *)
Definition kernel_lookup (fs : state) (p : string) : option node :=
  match kernel_resolve fs p with
  | Some k => fs !! k
  | None => None
  end.

(** Whether something is stored at the location [p] names. *)
Definition exists_in (fs : state) (p : string) : bool :=
  bool_decide (is_Some (fs !! NodePath.segments p)).

Definition existsSync (p : string) : io bool := λ fs, (Ok (exists_in fs p), fs).

Definition mkdir (p : string) : io unit := update (mkdir_p (NodePath.segments p)).

Definition readdir (p : string) : io (list string) :=
  query (readdir_at (NodePath.segments p)).

(** [stat(p)], of which the handlers use [isDirectory()] only. *)
Definition stat_isDirectory (p : string) : io bool := λ fs,
  match fs !! NodePath.segments p with
  | Some Dir => (Ok true, fs)
  | Some (File _) => (Ok false, fs)
  | None => (Throw ENOENT, fs)
  end.

(** [readdir(p, { withFileTypes: true })]: each name with its
    [isDirectory()]. *)
Definition readdir_types (p : string) : io (list (string * bool)) := λ fs,
  let d := NodePath.segments p in
  match readdir_at d fs with
  | Ok names =>
      (Ok ((λ n, (n, bool_decide (fs !! (d ++ [n]) = Some Dir))) <$> names), fs)
  | Throw e => (Throw e, fs)
  end.

Definition readFile (p : string) : io string := query (read_at (NodePath.segments p)).

Definition writeFile (p content : string) : io unit :=
  update (write_at (NodePath.segments p) content).

Definition unlink (p : string) : io unit := update (unlink_at (NodePath.segments p)).

Definition rm_recursive_force (p : string) : io unit := λ fs,
  (Ok (), rm_rf (NodePath.segments p) fs).

Definition rename (src dst : string) : io unit :=
  update (rename_at (NodePath.segments src) (NodePath.segments dst)).

Definition copyFile (src dst : string) : io unit :=
  update (copy_file_at (NodePath.segments src) (NodePath.segments dst)).

End Io.

(** ** Requests and responses *)

Module Http.

(** [req.session]: [userId] is set by a successful login. *)
Record session : Type := { userId : option Z; username : option string }.

(** [if (req.session.userId)] *)
Definition logged_in (s : session) : bool :=
  match userId s with
  | Some n => negb (n =? 0)%Z
  | None => false
  end.

Record server_entry : Type := { se_name : string; se_path : string }.

Inductive entry_type : Type := Pasta | Arquivo.

(** A listing entry; its formatted size and modification date are not
    modelled. *)
Record file_entry : Type := { fe_name : string; fe_type : entry_type }.

Record move_result : Type :=
  { mr_filename : string; mr_status : string; mr_message : string }.

Record process_status : Type :=
  { ps_running : bool; ps_status : string; ps_pid : option Z; ps_uptime : option Z }.

Inductive body : Type :=
| JError (error : string)
| JMessage (message : string)
| JContent (content : string)
| JServers (servers : list server_entry)
| JListing (server path : string) (files : list file_entry)
| JMoveResults (message : string) (results : list move_result)
| JStatus (st : process_status)
| JLogs (logs : list string).

Record response : Type := { code : nat; payload : body }.

(** [res.json(b)] *)
Definition json (b : body) : response := {| code := 200; payload := b |}.

(** [res.status(c).json({ error: msg })] *)
Definition error (c : nat) (msg : string) : response :=
  {| code := c; payload := JError msg |}.

(** What a handler leaves behind: a response, or an exception nobody
    caught (no response is written by the handler). *)
Inductive outcome : Type :=
| Responded (r : response)
| Uncaught (what : string).

End Http.

(** ** The external process manager (PM2)

    The supervisor keeps no state of its own: every route asks the
    manager for its process list.  The manager is the state here; whether
    its daemon answers at all is part of that state. *)

Module Pm2.

(** The options object handed to [pm2.start]. *)
Record start_options : Type :=
  { o_name : string; o_script : string; o_args : list string; o_cwd : string;
    o_interpreter : string; o_out_file : string; o_error_file : string;
    o_combine_logs : bool; o_log_date_format : string }.

(** An entry of [pm2.list]: [name], [pm_id], [pid] and, of [pm2_env],
    [status] and [pm_uptime]. *)
Record proc : Type :=
  { name : string; pm_id : nat; pid : Z; status : string; pm_uptime : Z;
    options : option start_options }.

Record daemon : Type :=
  { connect_fails : bool;
    list_fails : bool;
    start_fails : bool;
    send_fails : bool;
    procs : list proc;
    next_pm_id : nat;
    next_pid : Z;
    (** what the processes were sent: [pm_id] and the [command] of the
        packet, oldest first *)
    delivered : list (nat * string) }.

(** [list.find(process => process.name === serverName)] *)
Definition find_by_name (serverName : string) (list : list proc) : option proc :=
  List.find (λ process, bool_decide (name process = serverName)) list.

(** [pm2.start(options, cb)]: on success the process is registered and
    online; [None] is the callback's [err]. *)
Definition start (now : Z) (o : start_options) (d : daemon) : option daemon :=
  if start_fails d then None
  else Some
    {| connect_fails := connect_fails d; list_fails := list_fails d;
       start_fails := start_fails d; send_fails := send_fails d;
       procs := procs d ++
         [{| name := o_name o; pm_id := next_pm_id d; pid := next_pid d;
             status := "online"; pm_uptime := now; options := Some o |}];
       next_pm_id := S (next_pm_id d);
       next_pid := (next_pid d + 1)%Z;
       delivered := delivered d |}.

(** [pm2.sendDataToProcessId(id, packet, cb)]: the packet reaches a
    process that is registered under [id] and online. *)
Definition sendDataToProcessId (id : nat) (command : string) (d : daemon)
    : option daemon :=
  match List.find (λ p, bool_decide (pm_id p = id)) (procs d) with
  | Some p =>
      if send_fails d || negb (bool_decide (status p = "online")) then None
      else Some
        {| connect_fails := connect_fails d; list_fails := list_fails d;
           start_fails := start_fails d; send_fails := send_fails d;
           procs := procs d; next_pm_id := next_pm_id d; next_pid := next_pid d;
           delivered := delivered d ++ [(id, command)] |}
  | None => None
  end.

End Pm2.

(** ** The routes of [server.js] *)

Module Server.
Import Fs Io Http.

(** The seed configuration files of a new instance. *)
Definition serverProperties (now : string) : string :=
"# Minecraft server properties
# Generated on " +:+ now +:+ "
gamemode=survival
difficulty=normal
level-type=DEFAULT
max-players=20
online-mode=true".

Definition configYml (name : string) : string :=
"# Configuration file
server-name: " +:+ name +:+ "
motd: Welcome to " +:+ name +:+ " server!
world:
  name: world
  seed: 12345
  generator: default
plugins:
  enabled:
    - essentials
    - worldedit".

Definition bukkitYml : string :=
"# Bukkit configuration file
# Settings for the Bukkit server implementation

settings:
  allow-end: true
  warn-on-overload: true
  permissions-file: permissions.yml
  update-folder: update
  plugin-profiling: false
  connection-throttle: 4000
  query-plugins: true
  deprecated-verbose: default
  shutdown-message: Server closed
  minimum-api: none

spawn-limits:
  monsters: 70
  animals: 15
  water-animals: 5
  ambient: 15

chunk-gc:
  period-in-ticks: 600

ticks-per:
  animal-spawns: 400
  monster-spawns: 1
  autosave: 6000

aliases:
  icanhasbukkit: version $1-".

(** [isAuthenticated], for the [/api/] routes: without a logged-in
    session the handler is not run. *)
Definition isAuthenticated {S R : Type} (unauthorized : R) (sess : session)
    (next : S → R * S) : S → R * S :=
  λ st, if logged_in sess then next st else (unauthorized, st).

Definition api {S : Type} (sess : session) (next : S → response * S)
    : S → response * S :=
  isAuthenticated (error 401 "Unauthorized") sess next.

Section Routes.

(** [__dirname], the directory of [server.js]. *)
Variable dirname : string.

(** The archive codec (adm-zip): the entries of an archive, each a
    location relative to the extraction target, or [None] for bytes
    that are no archive. *)
Variable zip_entries : string → option (list (key * node)).

Definition serversDir : string := NodePath.join [dirname; "servers"].

Definition serverPathOf (serverName : string) : string :=
  NodePath.join [serversDir; serverName].

(** *** GET /api/servers *)

Fixpoint collect_servers (servers : list string) (serverList : list server_entry)
    : io (list server_entry) :=
  match servers with
  | [] => mret serverList
  | server :: rest =>
      let serverPath := NodePath.join [serversDir; server] in
      isDir ← stat_isDirectory serverPath;
      collect_servers rest
        (if isDir : bool
         then serverList ++ [{| se_name := server; se_path := serverPath |}]
         else serverList)
  end.

Definition get_servers (sess : session) : state → response * state :=
  api sess (run_try
    (ex ← existsSync serversDir;
     (if negb ex then mkdir serversDir else mret ());;
     servers ← readdir serversDir;
     serverList ← collect_servers servers [];
     mret (json (JServers serverList)))
    (error 500 "Failed to read servers directory")).

(** *** POST /api/servers *)

Definition post_servers (now : string) (sess : session) (name : string)
    : state → response * state :=
  api sess (run_try
    (let serverPath := NodePath.join [serversDir; name] in
     mkdir serverPath;;
     mkdir (NodePath.join [serverPath; "plugins"]);;
     mkdir (NodePath.join [serverPath; "logs"]);;
     mkdir (NodePath.join [serverPath; "world"]);;
     writeFile (NodePath.join [serverPath; "server.properties"]) (serverProperties now);;
     writeFile (NodePath.join [serverPath; "config.yml"]) (configYml name);;
     writeFile (NodePath.join [serverPath; "bukkit.yml"]) bukkitYml;;
     mret (json (JMessage "Server created successfully")))
    (error 500 "Failed to create server")).

(** *** DELETE /api/servers/:serverName *)

Definition delete_server (sess : session) (serverName : string)
    : state → response * state :=
  api sess (run_try
    (let serverPath := NodePath.join [serversDir; serverName] in
     if negb (JsString.startsWith serverPath serversDir)
     then mret (error 400 "Invalid server name")
     else
       ex ← existsSync serverPath;
       if negb ex then mret (error 404 "Server not found")
       else
         rm_recursive_force serverPath;;
         mret (json (JMessage "Server deleted successfully")))
    (error 500 "Failed to delete server")).

(** *** GET /api/files/content *)

Definition get_file_content (sess : session) (filePath : option string)
    : state → response * state :=
  api sess (run_try
    (if negb (JsString.truthy filePath)
     then mret (error 400 "File path is required")
     else
       let filePath := JsString.or_empty filePath in
       ex ← existsSync filePath;
       if negb ex then mret (error 404 "File not found")
       else
         content ← readFile filePath;
         mret (json (JContent content)))
    (error 500 "Failed to read file")).

(** *** POST /api/files/content *)

Definition post_file_content (sess : session) (filePath : option string)
    (content : string) : state → response * state :=
  api sess (run_try
    (if negb (JsString.truthy filePath)
     then mret (error 400 "File path is required")
     else
       writeFile (JsString.or_empty filePath) content;;
       mret (json (JMessage "File saved successfully")))
    (error 500 "Failed to save file")).

(** *** DELETE /api/files *)

Definition delete_files (sess : session) (filePath : option string)
    : state → response * state :=
  api sess (run_try
    (if negb (JsString.truthy filePath)
     then mret (error 400 "File path is required")
     else
       let filePath := JsString.or_empty filePath in
       ex ← existsSync filePath;
       if negb ex then mret (error 404 "File not found")
       else
         isDir ← stat_isDirectory filePath;
         (if isDir : bool then rm_recursive_force filePath else unlink filePath);;
         mret (json (JMessage "Item deleted successfully")))
    (error 500 "Failed to delete item")).

(** *** Archive extraction: [new AdmZip(p).extractAllTo(target, true)] *)

(** A directory entry is made with the directories leading to it
    ([makeDir]).  A file entry is written over what is there
    ([writeFileTo] with [overwrite]), after its directory has been made;
    where a directory is in its place, [writeFileTo] gives up on it and
    returns [false], which [extractAllTo] does not look at: the entry is
    passed over. *)
Fixpoint extract_entries (target : key) (entries : list (key * node)) : io unit :=
  match entries with
  | [] => mret ()
  | (rel, Dir) :: rest =>
      update (mkdir_p (target ++ rel));;
      extract_entries target rest
  | (rel, File c) :: rest =>
      isDir ← query (λ fs, Ok (bool_decide (fs !! (target ++ rel) = Some Dir)));
      (if isDir : bool then mret ()
       else
         update (mkdir_p (target ++ parent rel));;
         update (write_at (target ++ rel) c));;
      extract_entries target rest
  end.

Definition extractAllTo (archive target : string) : io unit :=
  bytes ← readFile archive;
  match zip_entries bytes with
  | Some entries => extract_entries (NodePath.segments target) entries
  | None => throw EINVAL
  end.

(** *** POST /api/extract *)

Definition post_extract (sess : session) (filePath targetPath : option string)
    : state → response * state :=
  api sess (run_try
    (if negb (JsString.truthy filePath)
     then mret (error 400 "File path is required")
     else
       let filePath := JsString.or_empty filePath in
       ex ← existsSync filePath;
       if negb ex then mret (error 404 "File not found")
       else if negb (JsString.endsWith (JsString.toLowerCase filePath) ".zip")
       then mret (error 400 "File is not a ZIP archive")
       else
         extractAllTo filePath
           (if JsString.truthy targetPath then JsString.or_empty targetPath
            else NodePath.dirname filePath);;
         mret (json (JMessage "ZIP file extracted successfully")))
    (error 500 "Failed to extract ZIP file")).

(** *** GET /api/servers/:serverName/files *)

Fixpoint collect_files (targetDir : string) (files : list string)
    (fileList : list file_entry) : io (list file_entry) :=
  match files with
  | [] => mret fileList
  | file :: rest =>
      isDir ← stat_isDirectory (NodePath.join [targetDir; file]);
      collect_files targetDir rest
        (fileList ++ [{| fe_name := file;
                         fe_type := if isDir : bool then Pasta else Arquivo |}])
  end.

Definition get_server_files (sess : session) (serverName : string)
    (path : option string) : state → response * state :=
  api sess (run_try
    (let relativePath := JsString.or_empty path in
     let serverPath := NodePath.join [serversDir; serverName] in
     let targetDir := NodePath.join [serverPath; relativePath] in
     if negb (JsString.startsWith targetDir serverPath)
     then mret (error 400 "Invalid path")
     else
       ex ← existsSync serverPath;
       if negb ex then mret (error 404 "Server not found")
       else
         exT ← existsSync targetDir;
         (if negb exT then mkdir targetDir else mret ());;
         files ← readdir targetDir;
         fileList ← collect_files targetDir files [];
         mret (json (JListing serverName relativePath fileList)))
    (error 500 "Failed to read directory")).

(** *** POST /api/servers/:serverName/extract/:filename *)

Definition post_server_extract (sess : session) (serverName filename : string)
    (path : option string) : state → response * state :=
  api sess (run_try
    (let relativePath := JsString.or_empty path in
     let serverPath := NodePath.join [serversDir; serverName] in
     let targetDir := NodePath.join [serverPath; relativePath] in
     let filePath := NodePath.join [targetDir; filename] in
     if negb (JsString.startsWith filePath serverPath)
     then mret (error 400 "Invalid path")
     else
       ex ← existsSync serverPath;
       if negb ex then mret (error 404 "Server not found")
       else
         exF ← existsSync filePath;
         if negb exF then mret (error 404 "File not found")
         else if negb (JsString.endsWith (JsString.toLowerCase filename) ".zip")
         then mret (error 400 "File is not a ZIP archive")
         else
           extractAllTo filePath targetDir;;
           mret (json (JMessage "ZIP file extracted successfully")))
    (error 500 "Failed to extract ZIP file")).

(** *** POST /api/servers/:serverName/move *)

Definition post_server_move (sess : session) (serverName filename : string)
    (destinationPath : string) (currentPath : option string)
    : state → response * state :=
  api sess (run_try
    (let relativePath := JsString.or_empty currentPath in
     let serverPath := NodePath.join [serversDir; serverName] in
     let sourceDir := NodePath.join [serverPath; relativePath] in
     let destDir := NodePath.join [serverPath; destinationPath] in
     let sourceFilePath := NodePath.join [sourceDir; filename] in
     let destFilePath := NodePath.join [destDir; filename] in
     if negb (JsString.startsWith sourceFilePath serverPath)
        || negb (JsString.startsWith destFilePath serverPath)
     then mret (error 400 "Invalid path")
     else
       ex ← existsSync serverPath;
       if negb ex then mret (error 404 "Server not found")
       else
         exS ← existsSync sourceFilePath;
         if negb exS then mret (error 404 "Source file not found")
         else
           exD ← existsSync destDir;
           if negb exD then mret (error 404 "Destination directory not found")
           else
             exF ← existsSync destFilePath;
             if exF : bool then mret (error 400 "File already exists in destination")
             else
               rename sourceFilePath destFilePath;;
               mret (json (JMessage "File moved successfully")))
    (error 500 "Failed to move file")).

(** *** POST /api/servers/:serverName/move-multiple *)

Definition move_one (sourceDir destDir filename : string) : io move_result :=
  try_io
    (let sourceFilePath := NodePath.join [sourceDir; filename] in
     let destFilePath := NodePath.join [destDir; filename] in
     exS ← existsSync sourceFilePath;
     if negb exS
     then mret {| mr_filename := filename; mr_status := "error";
                  mr_message := "Source file not found" |}
     else
       exF ← existsSync destFilePath;
       if exF : bool
       then mret {| mr_filename := filename; mr_status := "error";
                    mr_message := "File already exists in destination" |}
       else
         rename sourceFilePath destFilePath;;
         mret {| mr_filename := filename; mr_status := "success";
                 mr_message := "File moved successfully" |})
    {| mr_filename := filename; mr_status := "error";
       mr_message := "Failed to move file" |}.

Fixpoint move_each (sourceDir destDir : string) (filenames : list string)
    (results : list move_result) : io (list move_result) :=
  match filenames with
  | [] => mret results
  | filename :: rest =>
      r ← move_one sourceDir destDir filename;
      move_each sourceDir destDir rest (results ++ [r])
  end.

Definition post_server_move_multiple (sess : session) (serverName : string)
    (filenames : list string) (destinationPath : string)
    (currentPath : option string) : state → response * state :=
  api sess (run_try
    (let relativePath := JsString.or_empty currentPath in
     let serverPath := NodePath.join [serversDir; serverName] in
     let sourceDir := NodePath.join [serverPath; relativePath] in
     let destDir := NodePath.join [serverPath; destinationPath] in
     if negb (JsString.startsWith sourceDir serverPath)
        || negb (JsString.startsWith destDir serverPath)
     then mret (error 400 "Invalid path")
     else
       ex ← existsSync serverPath;
       if negb ex then mret (error 404 "Server not found")
       else
         exD ← existsSync destDir;
         if negb exD then mret (error 404 "Destination directory not found")
         else
           results ← move_each sourceDir destDir filenames [];
           mret (json (JMoveResults "Files move operation completed" results)))
    (error 500 "Failed to move files")).

(** *** [copyDirectory(src, dest)]

    The recursion goes one directory level down per call; [depth]
    bounds it, as the length limit of a path does on a real
    filesystem. *)

Fixpoint copyDirectory (depth : nat) (src dest : string) : io unit :=
  match depth with
  | O => throw ENAMETOOLONG
  | S depth' =>
      entries ← readdir_types src;
      mkdir dest;;
      (fix each (entries : list (string * bool)) : io unit :=
         match entries with
         | [] => mret ()
         | (name, isDir) :: rest =>
             let srcPath := NodePath.join [src; name] in
             let destPath := NodePath.join [dest; name] in
             (if isDir : bool
              then copyDirectory depth' srcPath destPath
              else copyFile srcPath destPath);;
             each rest
         end) entries
  end.

(** *** POST /api/servers/:serverName/copy *)

Definition post_server_copy (depth : nat) (sess : session)
    (serverName filename : string) (destinationPath : string)
    (currentPath : option string) : state → response * state :=
  api sess (run_try
    (let relativePath := JsString.or_empty currentPath in
     let serverPath := NodePath.join [serversDir; serverName] in
     let sourceDir := NodePath.join [serverPath; relativePath] in
     let destDir := NodePath.join [serverPath; destinationPath] in
     let sourceFilePath := NodePath.join [sourceDir; filename] in
     let destFilePath := NodePath.join [destDir; filename] in
     if negb (JsString.startsWith sourceFilePath serverPath)
        || negb (JsString.startsWith destFilePath serverPath)
     then mret (error 400 "Invalid path")
     else
       ex ← existsSync serverPath;
       if negb ex then mret (error 404 "Server not found")
       else
         exS ← existsSync sourceFilePath;
         if negb exS then mret (error 404 "Source file not found")
         else
           exD ← existsSync destDir;
           if negb exD then mret (error 404 "Destination directory not found")
           else
             exF ← existsSync destFilePath;
             if exF : bool then mret (error 400 "File already exists in destination")
             else
               isDir ← stat_isDirectory sourceFilePath;
               (if isDir : bool
                then copyDirectory depth sourceFilePath destFilePath
                else copyFile sourceFilePath destFilePath);;
               mret (json (JMessage "Item copied successfully")))
    (error 500 "Failed to copy item")).

(** *** POST /api/servers/:serverName/rename *)

Definition post_server_rename (sess : session) (serverName oldName newName : string)
    (currentPath : option string) : state → response * state :=
  api sess (run_try
    (let relativePath := JsString.or_empty currentPath in
     let serverPath := NodePath.join [serversDir; serverName] in
     let targetDir := NodePath.join [serverPath; relativePath] in
     let oldFilePath := NodePath.join [targetDir; oldName] in
     let newFilePath := NodePath.join [targetDir; newName] in
     if negb (JsString.startsWith oldFilePath serverPath)
        || negb (JsString.startsWith newFilePath serverPath)
     then mret (error 400 "Invalid path")
     else
       ex ← existsSync serverPath;
       if negb ex then mret (error 404 "Server not found")
       else
         exS ← existsSync oldFilePath;
         if negb exS then mret (error 404 "Source file not found")
         else
           exF ← existsSync newFilePath;
           if exF : bool
           then mret (error 400 "A file or directory with that name already exists")
           else
             rename oldFilePath newFilePath;;
             mret (json (JMessage "Item renamed successfully")))
    (error 500 "Failed to rename item")).

(** *** What [res] is bound to

    Inside a handler [res] is the Express response.  A callback that
    names one of its own parameters [res] hides it: there [res] is what
    the callback was called with. *)

Inductive js_value : Type :=
| ExpressResponse
| PlainObject
| Undefined.

(** [res.json(b)] *)
Definition call_json (res : js_value) (b : body) : outcome :=
  match res with
  | ExpressResponse => Responded (json b)
  | PlainObject => Uncaught "TypeError: res.json is not a function"
  | Undefined => Uncaught "TypeError: Cannot read properties of undefined (reading 'json')"
  end.

(** [res.status(c).json({ error: msg })] *)
Definition call_status_json (res : js_value) (c : nat) (msg : string) : outcome :=
  match res with
  | ExpressResponse => Responded (error c msg)
  | PlainObject => Uncaught "TypeError: res.status is not a function"
  | Undefined => Uncaught "TypeError: Cannot read properties of undefined (reading 'status')"
  end.

Definition guarded {S : Type} (sess : session) (next : S → outcome * S)
    : S → outcome * S :=
  isAuthenticated (Responded (error 401 "Unauthorized")) sess next.

(** *** GET /api/servers/:serverName/status *)

Definition get_status (now : Z) (sess : session) (serverName : string)
    : Pm2.daemon → outcome * Pm2.daemon :=
  guarded sess (λ d,
    let res := ExpressResponse in
    if Pm2.connect_fails d
    then (call_status_json res 500 "Failed to connect to PM2", d)
    else if Pm2.list_fails d
    then (call_status_json res 500 "Failed to get process list", d)
    else
      match Pm2.find_by_name serverName (Pm2.procs d) with
      | Some serverProcess =>
          let online := bool_decide (Pm2.status serverProcess = "online") in
          (call_json res (JStatus
             {| ps_running := online;
                ps_status := Pm2.status serverProcess;
                ps_pid := Some (Pm2.pid serverProcess);
                ps_uptime := Some (if online
                                   then ((now - Pm2.pm_uptime serverProcess) / 1000)%Z
                                   else 0%Z) |}), d)
      | None =>
          (call_json res (JStatus
             {| ps_running := false; ps_status := "stopped";
                ps_pid := None; ps_uptime := None |}), d)
      end).

(** *** POST /api/servers/:serverName/start *)

Definition start_options_of (serverName : string) : Pm2.start_options :=
  let serverPath := NodePath.join [serversDir; serverName] in
  {| Pm2.o_name := serverName;
     Pm2.o_script := "java";
     Pm2.o_args := ["-Xmx1024M"; "-Xms1024M"; "-jar"; "server.jar"; "nogui"];
     Pm2.o_cwd := serverPath;
     Pm2.o_interpreter := "none";
     Pm2.o_out_file := NodePath.join [serverPath; "logs"; "server.log"];
     Pm2.o_error_file := NodePath.join [serverPath; "logs"; "server-error.log"];
     Pm2.o_combine_logs := true;
     Pm2.o_log_date_format := "YYYY-MM-DD HH:mm:ss" |}.

Definition post_start (now : Z) (fs : state) (sess : session) (serverName : string)
    : Pm2.daemon → outcome * Pm2.daemon :=
  guarded sess (λ d,
    let res := ExpressResponse in
    if Pm2.connect_fails d
    then (call_status_json res 500 "Failed to connect to PM2", d)
    else if Pm2.list_fails d
    then (call_status_json res 500 "Failed to get process list", d)
    else
      match Pm2.find_by_name serverName (Pm2.procs d) with
      | Some _ => (call_json res (JMessage "Server is already running"), d)
      | None =>
          let serverPath := NodePath.join [serversDir; serverName] in
          if negb (exists_in fs serverPath)
          then (call_status_json res 404 "Server not found", d)
          else
            (* callback [(err, apps) => ...]: [res] is still the response *)
            match Pm2.start now (start_options_of serverName) d with
            | None => (call_status_json res 500 "Failed to start server", d)
            | Some d' => (call_json res (JMessage "Server started successfully"), d')
            end
      end).

(** *** GET /api/servers/:serverName/console *)

Definition LF : ascii := "010"%char.
Definition CR : ascii := "013"%char.

(** The lines [readline] emits for a stream ([crlfDelay: Infinity]):
    LF, CR LF and CR each end a line, and what follows the last line
    end is a line when it is not empty.  [cur] holds the characters of
    the current line, last first.  (The Unicode separators U+2028 and
    U+2029, which recent Node releases also split on, are not
    modelled.) *)
Fixpoint lines_from (after_cr : bool) (cur : string) (s : string) : list string :=
  match s with
  | EmptyString =>
      match cur with
      | EmptyString => []
      | _ => [JsString.reverse cur]
      end
  | String c r =>
      if Ascii.eqb c LF then
        if after_cr then lines_from false cur r
        else JsString.reverse cur :: lines_from false "" r
      else if Ascii.eqb c CR then JsString.reverse cur :: lines_from true "" r
      else lines_from false (String c cur) r
  end.

Definition readline_lines (content : string) : list string :=
  lines_from false "" content.

(** The ['line'] listener: [lines.push(line)], then [lines.shift()]
    once there are more than [numLines]. *)
Definition on_line (numLines : nat) (lines : list string) (line : string)
    : list string :=
  let lines := lines ++ [line] in
  if (numLines <? length lines)%nat then tail lines else lines.

Definition readLastLines (file : string) (numLines : nat) : io (list string) :=
  content ← readFile file;
  mret (fold_left (on_line numLines) (readline_lines content) []).

(** The handler is synchronous and has no [try]: what [mkdirSync] or
    [writeFileSync] throw leaves it uncaught. *)
Definition get_console (sess : session) (serverName : string)
    : state → outcome * state :=
  guarded sess (λ fs,
    let res := ExpressResponse in
    let serverPath := NodePath.join [serversDir; serverName] in
    let logFile := NodePath.join [serverPath; "logs"; "server.log"] in
    let body : io outcome :=
      ex ← existsSync serverPath;
      if negb ex then mret (call_status_json res 404 "Server not found")
      else
        let logsDir := NodePath.join [serverPath; "logs"] in
        exL ← existsSync logsDir;
        (if negb exL then mkdir logsDir else mret ());;
        exF ← existsSync logFile;
        (if negb exF then writeFile logFile "" else mret ());;
        lines ← try_io (readLastLines logFile 100) [];
        mret (call_json res (JLogs lines)) in
    match body fs with
    | (Ok o, fs') => (o, fs')
    | (Throw _, fs') => (Uncaught "Error", fs')
    end).

(** *** POST /api/servers/:serverName/command *)

Definition post_command (sess : session) (serverName : string)
    (command : option string) : Pm2.daemon → outcome * Pm2.daemon :=
  guarded sess (λ d,
    let res := ExpressResponse in
    if negb (JsString.truthy command)
    then (call_status_json res 400 "Command is required", d)
    else if Pm2.connect_fails d
    then (call_status_json res 500 "Failed to connect to PM2", d)
    else if Pm2.list_fails d
    then (call_status_json res 500 "Failed to get process list", d)
    else
      match Pm2.find_by_name serverName (Pm2.procs d) with
      | None => (call_status_json res 404 "Server not found or not running", d)
      | Some serverProcess =>
          (* callback [(err, res) => ...]: this [res] is the second
             argument of the callback, the manager's acknowledgement *)
          match Pm2.sendDataToProcessId (Pm2.pm_id serverProcess)
                  (JsString.or_empty command) d with
          | None =>
              let res := Undefined in
              (call_status_json res 500 "Failed to send command", d)
          | Some d' =>
              let res := PlainObject in
              (call_json res (JMessage "Command sent successfully"), d')
          end
      end).

End Routes.

End Server.

(** ** The locations a server-scoped request names *)

Module Paths.

Section Paths.
Variable dirname : string.

Definition serverPath (serverName : string) : string :=
  Server.serverPathOf dirname serverName.

(** [path.join(serverPath, relativePath)] with [relativePath = path || ''] *)
Definition targetDir (serverName : string) (path : option string) : string :=
  NodePath.join [serverPath serverName; JsString.or_empty path].

(** [path.join(targetDir, filename)] *)
Definition filePath (serverName : string) (path : option string)
    (filename : string) : string :=
  NodePath.join [targetDir serverName path; filename].

(** [path.join(serverPath, destinationPath)] *)
Definition destDir (serverName destinationPath : string) : string :=
  NodePath.join [serverPath serverName; destinationPath].

(** [path.join(destDir, filename)] *)
Definition destFilePath (serverName destinationPath filename : string) : string :=
  NodePath.join [destDir serverName destinationPath; filename].

(** The handlers' security check: [p.startsWith(serverPath)]. *)
Definition passes_check (serverName p : string) : bool :=
  JsString.startsWith p (serverPath serverName).

(** Containment proper: the location [p] names is the server's
    directory or lies below it. *)
Definition contained (serverName p : string) : bool :=
  Fs.under (NodePath.segments (serverPath serverName)) (NodePath.segments p).

Definition logsDir (serverName : string) : string :=
  NodePath.join [serverPath serverName; "logs"].

Definition logFile (serverName : string) : string :=
  NodePath.join [serverPath serverName; "logs"; "server.log"].

(** The entries [GET /api/servers] builds from the names [names] read
    in the servers directory: those that are directories. *)
Definition listed (fs : Fs.state) (names : list string) : list Http.server_entry :=
  (λ c, {| Http.se_name := c;
           Http.se_path := NodePath.join [Server.serversDir dirname; c] |})
    <$> filter (λ c, fs !! (NodePath.segments (Server.serversDir dirname) ++ [c])
                     = Some Fs.Dir) names.

(** The filesystem after [POST /api/servers] has run to its end for
    the instance at [sp]. *)
Definition seeded (now name : string) (sp : Fs.key) (fs : Fs.state) : Fs.state :=
  <[sp ++ ["bukkit.yml"] := Fs.File Server.bukkitYml]>
    (<[sp ++ ["config.yml"] := Fs.File (Server.configYml name)]>
       (<[sp ++ ["server.properties"] := Fs.File (Server.serverProperties now)]>
          (<[sp ++ ["world"] := Fs.Dir]>
             (<[sp ++ ["logs"] := Fs.Dir]>
                (<[sp ++ ["plugins"] := Fs.Dir]>
                   (<[sp := Fs.Dir]> fs)))))).

(** [path.join(sourceDir, filename)] of the bulk move *)
Definition bulkSource (serverName : string) (currentPath : option string)
    (filename : string) : string :=
  NodePath.join [targetDir serverName currentPath; filename].

(** The entry the bulk move reports for a file it does not move. *)
Definition blocked_result (fs : Fs.state) (serverName : string)
    (currentPath : option string) (filename : string) : Http.move_result :=
  {| Http.mr_filename := filename;
     Http.mr_status := "error";
     Http.mr_message :=
       if Io.exists_in fs (bulkSource serverName currentPath filename)
       then "File already exists in destination"
       else "Source file not found" |}.

End Paths.

End Paths.

(** ** Sample states *)

Module Sample.
Import Fs Http.

Definition dirname : string := "/opt/mm".

Definition admin : session := {| userId := Some 1%Z; username := Some "admin" |}.

Definition anonymous : session := {| userId := None; username := None |}.

(** Two instances, [s1] and [s1-evil], side by side. *)
Definition disk : state :=
  list_to_map
    [ ([], Dir); (["opt"], Dir); (["opt"; "mm"], Dir);
      (["opt"; "mm"; "servers"], Dir);
      (["opt"; "mm"; "servers"; "s1"], Dir);
      (["opt"; "mm"; "servers"; "s1"; "a.txt"], File "hello");
      (["opt"; "mm"; "servers"; "s1"; "b.txt"], File "bee");
      (["opt"; "mm"; "servers"; "s1"; "config.yml"], File "motd: tuned by hand");
      (["opt"; "mm"; "servers"; "s1"; "sub"], Dir);
      (["opt"; "mm"; "servers"; "s1"; "sub"; "a.txt"], File "old");
      (["opt"; "mm"; "servers"; "s1-evil"], Dir);
      (["opt"; "mm"; "servers"; "s1-evil"; "secret"], File "x") ].

(** A codec that takes no bytes for an archive. *)
Definition no_archive (bytes : string) : option (list (key * node)) := None.

Definition online_s1 : Pm2.proc :=
  {| Pm2.name := "s1"; Pm2.pm_id := 0; Pm2.pid := 4242%Z;
     Pm2.status := "online"; Pm2.pm_uptime := 1000%Z; Pm2.options := None |}.

Definition errored_s1 : Pm2.proc :=
  {| Pm2.name := "s1"; Pm2.pm_id := 0; Pm2.pid := 0%Z;
     Pm2.status := "errored"; Pm2.pm_uptime := 1000%Z; Pm2.options := None |}.

Definition daemon_with (ps : list Pm2.proc) : Pm2.daemon :=
  {| Pm2.connect_fails := false; Pm2.list_fails := false;
     Pm2.start_fails := false; Pm2.send_fails := false;
     Pm2.procs := ps; Pm2.next_pm_id := length ps; Pm2.next_pid := 5000%Z;
     Pm2.delivered := [] |}.

End Sample.

(** ** The other routes of [server.js]

    The routes for single files and directories inside a server, the
    upload, the global listing and directory creation, stopping and
    restarting a process, and logging in and out. *)

Module More.
Import Fs Io Http Server.

(** What a route answers, where it is more than a JSON body of the kinds
    above. *)
Inductive reply : Type :=
| Json (r : response)
(** [res.json({ message, count })] *)
| Uploaded (message : string) (count : nat)
(** [res.json({ path, files })] *)
| DirListing (path : string) (files : list file_entry)
(** [res.redirect(location)] *)
| Redirect (location : string)
(** [res.status(c).send(text)] *)
| Sent (c : nat) (text : string)
(** an error handed to [next]: the status and error page of Express *)
| ErrorPage (c : nat).

(** A file of a multipart request: the name the client gave, which
    multer hands on as [originalname], and the bytes. *)
Record upload : Type := { originalname : string; bytes : string }.

(** [file.path]: the disk storage is set up with destination ['.'] and
    file name [originalname], and stores a file at
    [path.join('.', originalname)]. *)
Definition file_path (file : upload) : string :=
  NodePath.join ["."; originalname file].

(** The path the kernel follows for [p] in a process whose working
    directory is [cwd]. *)
Definition from_cwd (cwd p : string) : string :=
  if NodePath.isAbsolute p then p else cwd +:+ "/" +:+ p.

(** A row of the [users] table. *)
Record user : Type := { id : Z; uname : string; password : string }.

(** [isAuthenticated], for any request path. *)
Definition isAuthenticated_any {S : Type} (path : string) (sess : session)
    (next : S → reply * S) : S → reply * S :=
  λ st,
    if logged_in sess then next st
    else if JsString.startsWith path "/api/"
    then (Json (error 401 "Unauthorized"), st)
    else (Redirect "/login", st).

Section Routes.

Variable dirname : string.

(** [process.cwd()] *)
Variable cwd : string.

(** *** GET /api/servers/:serverName/files/:filename *)

Definition get_server_file (sess : session) (serverName filename : string)
    (path : option string) : state → response * state :=
  api sess (run_try
    (let relativePath := JsString.or_empty path in
     let serverPath := NodePath.join [serversDir dirname; serverName] in
     let targetDir := NodePath.join [serverPath; relativePath] in
     let filePath := NodePath.join [targetDir; filename] in
     if negb (JsString.startsWith filePath serverPath)
     then mret (error 400 "Invalid path")
     else
       ex ← existsSync serverPath;
       if negb ex then mret (error 404 "Server not found")
       else
         exF ← existsSync filePath;
         if negb exF then mret (error 404 "File not found")
         else
           content ← readFile filePath;
           mret (json (JContent content)))
    (error 500 "Failed to read file")).

(** *** POST /api/servers/:serverName/files/:filename *)

Definition post_server_file (sess : session) (serverName filename : string)
    (path : option string) (content : string) : state → response * state :=
  api sess (run_try
    (let relativePath := JsString.or_empty path in
     let serverPath := NodePath.join [serversDir dirname; serverName] in
     let targetDir := NodePath.join [serverPath; relativePath] in
     let filePath := NodePath.join [targetDir; filename] in
     if negb (JsString.startsWith filePath serverPath)
     then mret (error 400 "Invalid path")
     else
       ex ← existsSync serverPath;
       if negb ex then mret (error 404 "Server not found")
       else
         writeFile filePath content;;
         mret (json (JMessage "File saved successfully")))
    (error 500 "Failed to save file")).

(** *** DELETE /api/servers/:serverName/files/:filename *)

Definition delete_server_file (sess : session) (serverName filename : string)
    (path : option string) : state → response * state :=
  api sess (run_try
    (let relativePath := JsString.or_empty path in
     let serverPath := NodePath.join [serversDir dirname; serverName] in
     let targetDir := NodePath.join [serverPath; relativePath] in
     let filePath := NodePath.join [targetDir; filename] in
     if negb (JsString.startsWith filePath serverPath)
     then mret (error 400 "Invalid path")
     else
       ex ← existsSync serverPath;
       if negb ex then mret (error 404 "Server not found")
       else
         exF ← existsSync filePath;
         if negb exF then mret (error 404 "File not found")
         else
           isDir ← stat_isDirectory filePath;
           (if isDir : bool then rm_recursive_force filePath else unlink filePath);;
           mret (json (JMessage "Item deleted successfully")))
    (error 500 "Failed to delete item")).

(** *** POST /api/servers/:serverName/directories *)

Definition post_server_directories (sess : session) (serverName name : string)
    (path : option string) : state → response * state :=
  api sess (run_try
    (let relativePath := JsString.or_empty path in
     let serverPath := NodePath.join [serversDir dirname; serverName] in
     let targetDir := NodePath.join [serverPath; relativePath] in
     let newDirPath := NodePath.join [targetDir; name] in
     if negb (JsString.startsWith newDirPath serverPath)
     then mret (error 400 "Invalid path")
     else
       ex ← existsSync serverPath;
       if negb ex then mret (error 404 "Server not found")
       else
         mkdir newDirPath;;
         mret (json (JMessage "Directory created successfully")))
    (error 500 "Failed to create directory")).

(** *** [upload.array('file')]

    multer runs after [isAuthenticated] and before the handler: it
    writes each file of the request to its [file.path].  When a write
    fails, or a file is larger than [limits.fileSize], it removes the
    files stored so far and hands the error to [next]; the handler does
    not run. *)

(** [limits.fileSize]: 500 MB *)
Definition fileSize : N := 500 * 1024 * 1024.

Fixpoint remove_stored (stored : list upload) (fs : state) : state :=
  match stored with
  | [] => fs
  | file :: rest =>
      remove_stored rest (unlink (from_cwd cwd (file_path file)) fs).2
  end.

(** Whether all files were stored, and the filesystem afterwards. *)
Fixpoint multer_store (files stored : list upload) (fs : state) : bool * state :=
  match files with
  | [] => (true, fs)
  | file :: rest =>
      match writeFile (from_cwd cwd (file_path file)) (bytes file) fs with
      | (Ok _, fs1) =>
          if (fileSize <? N.of_nat (String.length (bytes file)))%N
          then (false, remove_stored (stored ++ [file]) fs1)
          else multer_store rest (stored ++ [file]) fs1
      | (Throw _, fs1) => (false, remove_stored stored fs1)
      end
  end.

(** [files] is [None] for a request that is not multipart, which multer
    lets through as it is. *)
Definition upload_array (files : option (list upload))
    (handler : state → reply * state) : state → reply * state := λ fs,
  match files with
  | None => handler fs
  | Some files =>
      match multer_store files [] fs with
      | (true, fs1) => handler fs1
      | (false, fs1) => (ErrorPage 500, fs1)
      end
  end.

(** The loop of the two upload handlers. *)
Fixpoint move_uploads (targetDir : string) (files : list upload) : io unit :=
  match files with
  | [] => mret ()
  | file :: rest =>
      rename (from_cwd cwd (file_path file))
        (from_cwd cwd (NodePath.join [targetDir; originalname file]));;
      move_uploads targetDir rest
  end.

Definition uploaded_message (count : nat) : string :=
  pretty count +:+ " arquivo(s) enviado(s) com sucesso!".

(** *** POST /api/servers/:serverName/upload *)

Definition post_server_upload (sess : session) (serverName : string)
    (files : option (list upload)) (path : option string) : state → reply * state :=
  isAuthenticated (Json (error 401 "Unauthorized")) sess (upload_array files (run_try
    (match files with
     | None | Some [] => mret (Json (error 400 "No file uploaded"))
     | Some files =>
         let relativePath := JsString.or_empty path in
         let serverPath := NodePath.join [serversDir dirname; serverName] in
         let targetDir := NodePath.join [serverPath; relativePath] in
         if negb (JsString.startsWith targetDir serverPath)
         then mret (Json (error 400 "Invalid path"))
         else
           ex ← existsSync serverPath;
           if negb ex then mret (Json (error 404 "Server not found"))
           else
             move_uploads targetDir files;;
             mret (Uploaded (uploaded_message (length files)) (length files))
     end)
    (Json (error 500 "Failed to upload file")))).

(** *** POST /api/upload *)

Definition post_upload (sess : session) (files : option (list upload))
    (path : option string) : state → reply * state :=
  isAuthenticated (Json (error 401 "Unauthorized")) sess (upload_array files (run_try
    (match files with
     | None | Some [] => mret (Json (error 400 "No file uploaded"))
     | Some files =>
         let targetPath :=
           if JsString.truthy path then JsString.or_empty path else dirname in
         move_uploads targetPath files;;
         mret (Uploaded (uploaded_message (length files)) (length files))
     end)
    (Json (error 500 "Failed to upload file")))).

End Routes.

(** *** GET /api/files *)

Definition get_files (sess : session) (path : option string) : state → reply * state :=
  isAuthenticated (Json (error 401 "Unauthorized")) sess (run_try
    (if negb (JsString.truthy path)
     then mret (Json (error 400 "Directory path is required"))
     else
       let directoryPath := JsString.or_empty path in
       ex ← existsSync directoryPath;
       if negb ex then mret (Json (error 404 "Directory not found"))
       else
         files ← readdir directoryPath;
         fileList ← collect_files directoryPath files [];
         mret (DirListing directoryPath fileList))
    (Json (error 500 "Failed to read directory"))).

(** *** POST /api/directories *)

Definition post_directories (sess : session) (path : option string)
    : state → response * state :=
  api sess (run_try
    (if negb (JsString.truthy path)
     then mret (error 400 "Directory path is required")
     else
       mkdir (JsString.or_empty path);;
       mret (json (JMessage "Directory created successfully")))
    (error 500 "Failed to create directory")).

(** *** POST /api/copy *)

Definition post_copy (depth : nat) (sess : session)
    (sourcePath destinationPath : option string) : state → response * state :=
  api sess (run_try
    (if negb (JsString.truthy sourcePath) || negb (JsString.truthy destinationPath)
     then mret (error 400 "Source and destination paths are required")
     else
       let sourcePath := JsString.or_empty sourcePath in
       let destinationPath := JsString.or_empty destinationPath in
       exS ← existsSync sourcePath;
       if negb exS then mret (error 404 "Source file not found")
       else
         exD ← existsSync destinationPath;
         if exD : bool then mret (error 400 "Destination already exists")
         else
           isDir ← stat_isDirectory sourcePath;
           (if isDir : bool
            then copyDirectory depth sourcePath destinationPath
            else copyFile sourcePath destinationPath);;
           mret (json (JMessage "Item copied successfully")))
    (error 500 "Failed to copy item")).

(** *** POST /api/move *)


(** *** POST /api/rename *)


(** *** Stopping and restarting

    [pm2.stop] and [pm2.restart], for an argument that is the name of a
    process: they act on every process of that name and hand the
    callback an error when there is none.  (What they do for ['all'],
    for a process id and for a configuration file is not modelled.) *)

Definition stopped (p : Pm2.proc) : Pm2.proc :=
  {| Pm2.name := Pm2.name p; Pm2.pm_id := Pm2.pm_id p; Pm2.pid := 0%Z;
     Pm2.status := "stopped"; Pm2.pm_uptime := Pm2.pm_uptime p;
     Pm2.options := Pm2.options p |}.

Definition restarted (now pid : Z) (p : Pm2.proc) : Pm2.proc :=
  {| Pm2.name := Pm2.name p; Pm2.pm_id := Pm2.pm_id p; Pm2.pid := pid;
     Pm2.status := "online"; Pm2.pm_uptime := now;
     Pm2.options := Pm2.options p |}.

Definition on_named (serverName : string) (f : Pm2.proc → Pm2.proc)
    (ps : list Pm2.proc) : list Pm2.proc :=
  (λ p, if bool_decide (Pm2.name p = serverName) then f p else p) <$> ps.

Definition with_procs (d : Pm2.daemon) (ps : list Pm2.proc) (next_pid : Z)
    : Pm2.daemon :=
  {| Pm2.connect_fails := Pm2.connect_fails d; Pm2.list_fails := Pm2.list_fails d;
     Pm2.start_fails := Pm2.start_fails d; Pm2.send_fails := Pm2.send_fails d;
     Pm2.procs := ps; Pm2.next_pm_id := Pm2.next_pm_id d; Pm2.next_pid := next_pid;
     Pm2.delivered := Pm2.delivered d |}.

(** [pm2.stop(name, cb)] *)
Definition pm2_stop (serverName : string) (d : Pm2.daemon) : option Pm2.daemon :=
  match Pm2.find_by_name serverName (Pm2.procs d) with
  | Some _ => Some (with_procs d (on_named serverName stopped (Pm2.procs d))
                      (Pm2.next_pid d))
  | None => None
  end.

(** [pm2.restart(name, cb)] *)
Definition pm2_restart (now : Z) (serverName : string) (d : Pm2.daemon)
    : option Pm2.daemon :=
  match Pm2.find_by_name serverName (Pm2.procs d) with
  | Some _ =>
      Some (with_procs d
              (on_named serverName (restarted now (Pm2.next_pid d)) (Pm2.procs d))
              (Pm2.next_pid d + 1)%Z)
  | None => None
  end.

(** *** POST /api/servers/:serverName/stop *)

Definition post_stop (sess : session) (serverName : string)
    : Pm2.daemon → outcome * Pm2.daemon :=
  guarded sess (λ d,
    let res := ExpressResponse in
    if Pm2.connect_fails d
    then (call_status_json res 500 "Failed to connect to PM2", d)
    else
      match pm2_stop serverName d with
      | None => (call_status_json res 500 "Failed to stop server", d)
      | Some d' => (call_json res (JMessage "Server stopped successfully"), d')
      end).

(** *** POST /api/servers/:serverName/restart *)

Definition post_restart (now : Z) (sess : session) (serverName : string)
    : Pm2.daemon → outcome * Pm2.daemon :=
  guarded sess (λ d,
    let res := ExpressResponse in
    if Pm2.connect_fails d
    then (call_status_json res 500 "Failed to connect to PM2", d)
    else
      match pm2_restart now serverName d with
      | None => (call_status_json res 500 "Failed to restart server", d)
      | Some d' => (call_json res (JMessage "Server restarted successfully"), d')
      end).

(** *** POST /login, GET /logout *)

Section Login.

(** [bcrypt.compare(password, hash, cb)]: what the callback gets as
    [result], or [None] when it gets an [err]. *)
Variable bcrypt_compare : string → string → option bool.

(** The row that [SELECT * FROM users WHERE username = ?] finds. *)
Definition db_get (users : list user) (username : string) : option user :=
  List.find (λ u, bool_decide (uname u = username)) users.

(** [db_fails]: the query hands its callback an [err]. *)
Definition post_login (db_fails : bool) (users : list user)
    (username password_given : string) (sess : session) : reply * session :=
  if db_fails then (Sent 500 "Server error", sess)
  else
    match db_get users username with
    | None => (Sent 401 "Invalid credentials", sess)
    | Some user =>
        match bcrypt_compare password_given (password user) with
        | Some true =>
            (Redirect "/",
             {| userId := Some (id user); username := Some (uname user) |})
        | _ => (Sent 401 "Invalid credentials", sess)
        end
    end.

End Login.

(** [req.session.destroy(cb)]; [destroy_fails]: the store hands the
    callback an [err], and the session stays in the store. *)
Definition get_logout (destroy_fails : bool) (sess : session) : reply * session :=
  if destroy_fails then (Sent 500 "Error logging out", sess)
  else (Redirect "/login", {| userId := None; username := None |}).

(** *** Lines of a log *)

(** A text written one line at a time, each line ended by LF. *)
Fixpoint unlines (ls : list string) : string :=
  match ls with
  | [] => ""
  | l :: rest => l +:+ String LF (unlines rest)
  end.

(** No line end inside. *)
Fixpoint one_line (l : string) : bool :=
  match l with
  | EmptyString => true
  | String c r => negb (Ascii.eqb c LF) && negb (Ascii.eqb c CR) && one_line r
  end.

(** A text as a program writes it: lines, each ended by LF or, where
    [crlf], by CR LF, and then what is left without a line end. *)
Fixpoint text_of (ls : list (string * bool)) (last : string) : string :=
  match ls with
  | [] => last
  | (l, crlf) :: rest =>
      l +:+ (if crlf : bool then String CR (String LF (text_of rest last))
             else String LF (text_of rest last))
  end.


(** *** Listings *)

(** The entry a listing shows for the name [c] in the directory at [dir]. *)
Definition entry_of (fs : state) (dir : key) (c : string) : file_entry :=
  {| fe_name := c;
     fe_type := if bool_decide (fs !! (dir ++ [c]) = Some Dir) then Pasta else Arquivo |}.

(** *** Copies of a tree *)

(** What is stored at [q] while the directory at [src] is being copied to
    [dest]: [dest] has been made, and of the entries of [src] those
    named in [names] have been copied with all below them. *)
Definition copied (fs : state) (src dest : key) (names : list string) (q : key)
    : option node :=
  match strip_prefix dest q with
  | Some [] => Some Dir
  | Some (x :: r) => if decide (x ∈ names) then fs !! (src ++ x :: r) else None
  | None => fs !! q
  end.

(** *** What stays *)



End More.

(** ** A sample state with a log *)

Module SampleLog.
Import Fs.

(** 101 lines; the first is ended by CR LF, the others by LF. *)
Definition written : list (string * bool) :=
  ("first", true) :: ((λ l, (l, false)) <$> (repeat "tick" 99 ++ ["tock"])).

Definition log : string := More.text_of written "".

Definition disk : state :=
  <[["opt"; "mm"; "servers"; "s1"; "logs"; "server.log"] := File log]>
    (<[["opt"; "mm"; "servers"; "s1"; "logs"] := Dir]> Sample.disk).

End SampleLog.

(** * Properties *)

(** ** Paths *)

Section PathFacts.
Import NodePath.

Lemma append_nil (b : string) : "" +:+ b = b.
Proof. reflexivity. Qed.

Lemma append_cons (c : ascii) (a b : string) :
  String c a +:+ b = String c (a +:+ b).
Proof. reflexivity. Qed.

Lemma append_empty_r (s : string) : s +:+ "" = s.
Proof. induction s as [|c s IH]; [done | by rewrite append_cons, IH]. Qed.

Lemma append_assoc (a b c : string) : (a +:+ b) +:+ c = a +:+ (b +:+ c).
Proof. induction a as [|x a IH]; [done | by rewrite !append_cons, IH]. Qed.

Lemma split_slash_cons (s : string) : ∃ h t, split_slash s = h :: t.
Proof.
  induction s as [|c s [h [t IH]]]; simpl; [by eauto |].
  destruct (Ascii.eqb c slash); [by eauto |]. rewrite IH. by eauto.
Qed.

Lemma split_slash_app (a b : string) :
  split_slash (a +:+ String slash b) = split_slash a ++ split_slash b.
Proof.
  induction a as [|c a IH]; [done |].
  rewrite append_cons. simpl.
  destruct (Ascii.eqb c slash); [by rewrite IH |].
  rewrite IH. destruct (split_slash_cons a) as [h [t ->]]. done.
Qed.

Lemma split_slash_pieces (s : string) : Forall no_slash (split_slash s).
Proof.
  induction s as [|c s IH]; simpl; [by repeat constructor |].
  destruct (Ascii.eqb c slash) eqn:E; [by constructor |].
  destruct (split_slash_cons s) as [h [t Hs]]. rewrite Hs in IH |- *.
  inversion IH as [|? ? Hh Ht]; subst. constructor; [| done].
  unfold no_slash in *. simpl. by rewrite E, Hh.
Qed.

Lemma split_join_slash (l : list string) :
  l ≠ [] → split_slash (join_slash l) = l ≫= split_slash.
Proof.
  induction l as [|a l IH]; [done |]. intros _.
  destruct l as [|b l].
  - simpl. by rewrite app_nil_r.
  - change (join_slash (a :: b :: l)) with (a +:+ String slash (join_slash (b :: l))).
    rewrite split_slash_app, IH by done. done.
Qed.

Lemma bind_no_slash (l : list string) :
  Forall no_slash l → l ≫= split_slash = l.
Proof.
  induction 1 as [|a l Ha _ IH]; [done |].
  change ((a :: l) ≫= split_slash) with (split_slash a ++ (l ≫= split_slash)).
  by rewrite Ha, IH.
Qed.

Lemma valid_name_no_slash (n : string) : Fs.valid_name n → no_slash n.
Proof. by intros (_ & _ & _ & ?). Qed.

Lemma norm_step_valid (stk : list string) (n : string) :
  Fs.valid_name n → norm_step false stk n = n :: stk.
Proof.
  intros (H1 & H2 & H3 & _). unfold norm_step.
  destruct (decide (n = "" ∨ n = ".")) as [[?|?]|_]; [done | done |].
  by destruct (decide (n = "..")).
Qed.

Lemma fold_norm_valid (l stk : list string) :
  Forall Fs.valid_name l → fold_left (norm_step false) l stk = rev l ++ stk.
Proof.
  intros H. revert stk. induction H as [|n l Hn _ IH]; intros stk; [done |].
  simpl. rewrite norm_step_valid, IH by done. by rewrite <- app_assoc.
Qed.

Lemma norm_step_keeps_valid (stk : list string) (seg : string) :
  Forall Fs.valid_name stk → no_slash seg →
  Forall Fs.valid_name (norm_step false stk seg).
Proof.
  intros Hs Hseg. unfold norm_step.
  destruct (decide (seg = "" ∨ seg = ".")) as [|Hn]; [done |].
  destruct (decide (seg = "..")) as [|Hd].
  - destruct stk as [|top rest]; [done |].
    destruct (decide (top = "..")); [done |]. by inversion Hs.
  - constructor; [| done]. unfold Fs.valid_name. naive_solver.
Qed.

Lemma fold_norm_keeps_valid (l stk : list string) :
  Forall Fs.valid_name stk → Forall no_slash l →
  Forall Fs.valid_name (fold_left (norm_step false) l stk).
Proof.
  intros Hs Hl. revert stk Hs. induction Hl as [|a l Ha _ IH]; intros stk Hs; [done |].
  simpl. apply IH. by apply norm_step_keeps_valid.
Qed.

Lemma Forall_rev_valid (l : list string) :
  Forall Fs.valid_name l → Forall Fs.valid_name (rev l).
Proof. apply List.Forall_rev. Qed.

(** Path resolution yields proper names only. *)
Lemma segments_valid (p : string) : Forall Fs.valid_name (segments p).
Proof.
  unfold segments, normalizeSegs. apply Forall_rev_valid.
  apply fold_norm_keeps_valid; [done | apply split_slash_pieces].
Qed.

Lemma resolve_from_valid (base : list string) (rel : string) :
  Forall Fs.valid_name base → Forall Fs.valid_name (resolve_from base rel).
Proof.
  intros H. unfold resolve_from. apply Forall_rev_valid.
  apply fold_norm_keeps_valid; [by apply Forall_rev_valid | apply split_slash_pieces].
Qed.

Lemma resolve_from_name (base : list string) (n : string) :
  Fs.valid_name n → resolve_from base n = base ++ [n].
Proof.
  intros Hn. unfold resolve_from. rewrite (valid_name_no_slash n Hn). simpl.
  rewrite norm_step_valid by done. simpl. by rewrite rev_involutive.
Qed.

Lemma norm_step_empty (b : bool) (stk : list string) : norm_step b stk "" = stk.
Proof. unfold norm_step. destruct (decide ("" = "" ∨ "" = ".")); naive_solver. Qed.

Lemma resolve_from_empty (base : list string) : resolve_from base "" = base.
Proof. unfold resolve_from. simpl. rewrite norm_step_empty. apply rev_involutive. Qed.

Lemma segments_slash_tail (l : list string) (t : string) :
  Forall Fs.valid_name l → l ≠ [] → t = "" ∨ t = "/" →
  segments ("/" +:+ join_slash l +:+ t) = l.
Proof.
  intros Hl Hne Ht. unfold segments, normalizeSegs.
  assert (Hsp : split_slash (join_slash l) = l).
  { rewrite split_join_slash by done. apply bind_no_slash.
    eapply Forall_impl; [exact Hl | apply valid_name_no_slash]. }
  change ("/" +:+ join_slash l +:+ t) with (String slash (join_slash l +:+ t)).
  destruct Ht as [-> | ->].
  - rewrite append_empty_r. simpl. rewrite Hsp. simpl.
    rewrite norm_step_empty, fold_norm_valid by done.
    by rewrite app_nil_r, rev_involutive.
  - change (join_slash l +:+ "/") with (join_slash l +:+ String slash "").
    simpl. rewrite split_slash_app, Hsp. simpl.
    rewrite fold_left_app, (fold_norm_valid l) by done. simpl.
    by rewrite !norm_step_empty, app_nil_r, rev_involutive.
Qed.

Lemma isAbsolute_cons (p : string) :
  isAbsolute p = true → ∃ r, p = String slash r.
Proof.
  destruct p as [|c r]; [done |]. simpl. intros H.
  apply Ascii.eqb_eq in H. subst. by eauto.
Qed.

Lemma normalize_abs (p : string) :
  isAbsolute p = true →
  normalize p =
    match segments p with
    | [] => "/"
    | segs => "/" +:+ join_slash segs +:+ (if trailingSlash p then "/" else "")
    end.
Proof.
  intros H. destruct (isAbsolute_cons p H) as [r ->].
  unfold normalize. rewrite H. done.
Qed.

Lemma segments_normalize (p : string) :
  isAbsolute p = true → segments (normalize p) = segments p.
Proof.
  intros H. rewrite normalize_abs by done.
  pose proof (segments_valid p) as Hv.
  destruct (segments p) as [|x l] eqn:E; [done |].
  apply segments_slash_tail; [done | done |]. destruct (trailingSlash p); auto.
Qed.

Lemma isAbsolute_normalize (p : string) :
  isAbsolute p = true → isAbsolute (normalize p) = true.
Proof.
  intros H. rewrite normalize_abs by done. by destruct (segments p).
Qed.

Lemma fold_resolve (rest stk : list string) :
  rev (fold_left (norm_step false) (filter (λ a, a ≠ "") rest ≫= split_slash) stk)
  = fold_left resolve_from rest (rev stk).
Proof.
  revert stk. induction rest as [|x r IH]; intros stk; [done |].
  destruct (decide (x = "")) as [-> | Hx].
  - rewrite filter_cons_False by naive_solver. simpl.
    rewrite resolve_from_empty. apply IH.
  - rewrite filter_cons_True by done.
    change ((x :: filter (λ a, a ≠ "") r) ≫= split_slash)
      with (split_slash x ++ (filter (λ a, a ≠ "") r ≫= split_slash)).
    rewrite fold_left_app, IH. simpl. f_equal.
    unfold resolve_from. by rewrite rev_involutive.
Qed.

Lemma join_slash_abs (a : string) (l : list string) :
  isAbsolute a = true → isAbsolute (join_slash (a :: l)) = true.
Proof.
  intros H. destruct (isAbsolute_cons a H) as [r ->]. by destruct l.
Qed.

Lemma join_unfold (a : string) (rest : list string) :
  isAbsolute a = true →
  join (a :: rest) = normalize (join_slash (a :: filter (λ a, a ≠ "") rest)).
Proof.
  intros H. unfold join. rewrite filter_cons_True; [done |].
  intros ->. done.
Qed.

(** What [path.join] of an absolute path and further pieces names: each
    piece is followed from where the previous ones led. *)
Lemma segments_join (a : string) (rest : list string) :
  isAbsolute a = true →
  segments (join (a :: rest)) = fold_left resolve_from rest (segments a).
Proof.
  intros H. rewrite join_unfold by done.
  rewrite segments_normalize by (by apply join_slash_abs).
  unfold segments at 1, normalizeSegs.
  rewrite split_join_slash by done.
  change ((a :: filter (λ a, a ≠ "") rest) ≫= split_slash)
    with (split_slash a ++ (filter (λ a, a ≠ "") rest ≫= split_slash)).
  rewrite fold_left_app, fold_resolve. done.
Qed.

Lemma join_abs (a : string) (rest : list string) :
  isAbsolute a = true → isAbsolute (join (a :: rest)) = true.
Proof.
  intros H. rewrite join_unfold by done.
  apply isAbsolute_normalize. by apply join_slash_abs.
Qed.

Lemma segments_join_name (a n : string) :
  isAbsolute a = true → Fs.valid_name n →
  segments (join [a; n]) = segments a ++ [n].
Proof.
  intros Ha Hn. rewrite segments_join by done. simpl.
  by apply resolve_from_name.
Qed.

End PathFacts.

(** ** The check on proper names *)

Section CheckFacts.
Import NodePath.

Lemma rev_onto_append (acc b : string) :
  JsString.rev_onto acc b = JsString.rev_onto "" b +:+ acc.
Proof.
  revert acc. induction b as [|c b IH]; intros acc; [done |].
  simpl. rewrite (IH (String c acc)), (IH (String c "")).
  by rewrite append_assoc.
Qed.

Lemma reverse_append (a b : string) :
  JsString.reverse (a +:+ b) = JsString.reverse b +:+ JsString.reverse a.
Proof.
  unfold JsString.reverse. induction a as [|c a IH].
  - by rewrite append_nil, append_empty_r.
  - rewrite append_cons. simpl.
    rewrite (rev_onto_append (String c "") (a +:+ b)), IH.
    rewrite (rev_onto_append (String c "") a). by rewrite append_assoc.
Qed.

Lemma reverse_cons_head (c : ascii) (b : string) :
  ∃ x r, JsString.reverse (String c b) = String x r.
Proof.
  change (String c b) with (String c "" +:+ b). rewrite reverse_append.
  destruct (JsString.reverse b) as [|x r]; [by exists c, "" | by eauto].
Qed.

Lemma trailingSlash_append (a b : string) :
  b ≠ "" → trailingSlash (a +:+ b) = trailingSlash b.
Proof.
  intros Hb. destruct b as [|c b]; [done |].
  unfold trailingSlash. rewrite reverse_append.
  destruct (reverse_cons_head c b) as (x & r & ->). done.
Qed.

Lemma no_slash_tail (c : ascii) (n : string) :
  no_slash (String c n) → Ascii.eqb c slash = false ∧ (n = "" ∨ no_slash n).
Proof.
  unfold no_slash. simpl. destruct (Ascii.eqb c slash); [done |].
  intros H. split; [done |].
  destruct (split_slash_cons n) as (h & t & E). rewrite E in H.
  injection H as -> ->. by right.
Qed.

Lemma no_slash_no_trailing (n : string) :
  n ≠ "" → no_slash n → trailingSlash n = false.
Proof.
  induction n as [|c n IH]; [done |]. intros _ H.
  apply no_slash_tail in H as [Hc [-> | Hn]]; [unfold trailingSlash; simpl; exact Hc |].
  destruct n as [|c' n']; [unfold trailingSlash; simpl; exact Hc |].
  change (String c (String c' n')) with (String c "" +:+ String c' n').
  rewrite trailingSlash_append by done. by apply IH.
Qed.

Lemma prefix_append (a b : string) : String.prefix a (a +:+ b) = true.
Proof.
  induction a as [|c a IH]; [by destruct b |].
  rewrite append_cons. simpl. by destruct (ascii_dec c c).
Qed.

Lemma join_slash_snoc (l : list string) (n : string) :
  l ≠ [] → join_slash (l ++ [n]) = join_slash l +:+ "/" +:+ n.
Proof.
  induction l as [|a l IH]; [done |]. intros _.
  destruct l as [|b l]; [done |].
  change (join_slash ((a :: b :: l) ++ [n]))
    with (a +:+ "/" +:+ join_slash ((b :: l) ++ [n])).
  rewrite IH by done.
  change (join_slash (a :: b :: l)) with (a +:+ "/" +:+ join_slash (b :: l)).
  by rewrite !append_assoc.
Qed.

(** Joining a proper name onto an absolute path: the result in full. *)
Lemma join_name_normal (a n : string) :
  isAbsolute a = true → Fs.valid_name n →
  join [a; n] = "/" +:+ join_slash (segments a ++ [n]).
Proof.
  intros Ha Hn. pose proof Hn as (Hne & _ & _ & Hns).
  rewrite join_unfold by done. rewrite filter_cons_True by done.
  rewrite filter_nil.
  change (join_slash [a; n]) with (a +:+ String slash n).
  assert (Habs : isAbsolute (a +:+ String slash n) = true).
  { destruct (isAbsolute_cons a Ha) as [r ->]. done. }
  rewrite normalize_abs by done.
  assert (Hseg : segments (a +:+ String slash n) = segments a ++ [n]).
  { unfold segments, normalizeSegs. rewrite split_slash_app, fold_left_app.
    rewrite Hns. simpl. rewrite norm_step_valid by done. simpl. done. }
  rewrite Hseg.
  rewrite trailingSlash_append by done.
  change (String slash n) with (String slash "" +:+ n).
  rewrite trailingSlash_append by done.
  rewrite (no_slash_no_trailing n Hne Hns).
  destruct (segments a ++ [n]) as [|x l] eqn:E.
  - by destruct (segments a).
  - by rewrite append_empty_r.
Qed.

(** A proper name directly below a directory passes the check
    [startsWith]. *)
Lemma child_passes_check (a n m : string) :
  isAbsolute a = true → Fs.valid_name n → Fs.valid_name m →
  JsString.startsWith (join [join [a; n]; m]) (join [a; n]) = true.
Proof.
  intros Ha Hn Hm. unfold JsString.startsWith.
  rewrite (join_name_normal (join [a; n]) m) by (by try apply join_abs).
  rewrite segments_join_name by done.
  rewrite join_slash_snoc by (by destruct (segments a)).
  rewrite (join_name_normal a n) by done.
  rewrite <- append_assoc. apply prefix_append.
Qed.

End CheckFacts.

(** ** The filesystem *)

Section FsFacts.
Import Fs.
Implicit Types (fs : state) (k p d : key) (n : string).

Lemma parent_snoc k n : parent (k ++ [n]) = k.
Proof.
  unfold parent. rewrite length_app. simpl.
  replace (length k + 1 - 1) with (length k) by lia. apply take_app_length.
Qed.

Lemma strip_prefix_app p r : strip_prefix p (p ++ r) = Some r.
Proof.
  induction p as [|a p IH]; [done |]. simpl.
  by destruct (decide (a = a)).
Qed.

Lemma strip_prefix_Some p k r : strip_prefix p k = Some r → k = p ++ r.
Proof.
  revert k. induction p as [|a p IH]; intros k H; simpl in H.
  - by inversion H.
  - destruct k as [|b k]; [done |].
    destruct (decide (a = b)) as [-> |]; [| done].
    simpl. f_equal. by apply IH.
Qed.

Lemma under_true p k : under p k = true ↔ ∃ r, k = p ++ r.
Proof.
  unfold under. split.
  - destruct (strip_prefix p k) as [r|] eqn:E; [| done].
    intros _. exists r. by apply strip_prefix_Some.
  - intros [r ->]. by rewrite strip_prefix_app.
Qed.

Lemma under_refl k : under k k = true.
Proof. apply under_true. exists []. by rewrite app_nil_r. Qed.

Lemma child_of_snoc d n : child_of d (d ++ [n]) = Some n.
Proof. unfold child_of. by rewrite strip_prefix_app. Qed.

Lemma child_of_Some d k n : child_of d k = Some n → k = d ++ [n].
Proof.
  unfold child_of. destruct (strip_prefix d k) as [r|] eqn:E; [| done].
  destruct r as [|x [|y r]]; try done. intros [= ->].
  by apply strip_prefix_Some.
Qed.

Lemma elem_of_children fs d n :
  n ∈ children fs d ↔ is_Some (fs !! (d ++ [n])).
Proof.
  unfold children. rewrite list_elem_of_omap. split.
  - intros [[k v] [Hin Hc]]. simpl in Hc. apply child_of_Some in Hc as ->.
    apply elem_of_map_to_list in Hin. by eauto.
  - intros [v Hv]. exists (d ++ [n], v). split.
    + by apply elem_of_map_to_list.
    + simpl. apply child_of_snoc.
Qed.

Lemma lookup_rm_rf k fs k' :
  rm_rf k fs !! k' = if under k k' then None else fs !! k'.
Proof.
  unfold rm_rf. destruct (under k k') eqn:E.
  - apply map_lookup_filter_None. right. intros x _. simpl. by rewrite E.
  - destruct (fs !! k') as [x|] eqn:Hx.
    + apply map_lookup_filter_Some. by split.
    + apply map_lookup_filter_None. by left.
Qed.

Lemma wf_root fs : wf fs → fs !! [] = Some Dir.
Proof. by intros [? _]. Qed.

Lemma wf_parent fs k n :
  wf fs → is_Some (fs !! (k ++ [n])) → fs !! k = Some Dir.
Proof.
  intros [_ H] [v Hv]. specialize (H _ _ Hv). simpl in H.
  destruct H as [H | [H _]].
  - by destruct k.
  - by rewrite parent_snoc in H.
Qed.

Lemma wf_dirs_above fs k : wf fs → is_Some (fs !! k) → dirs_above fs k.
Proof.
  intros Hwf Hk r1 r2. revert k Hk.
  induction r2 as [|x r2 IH] using rev_ind; [done |].
  intros k Hk -> _. rewrite app_assoc in Hk.
  pose proof (wf_parent _ _ _ Hwf Hk) as Hp.
  destruct r2 as [|y r2]; [by rewrite app_nil_r in Hp |].
  apply (IH (r1 ++ y :: r2)); [by rewrite Hp | done | done].
Qed.

Lemma wf_names_valid fs : wf fs → names_valid fs.
Proof.
  intros [_ H] k [v Hv]. specialize (H _ _ Hv). simpl in H.
  destruct H as [-> | [_ H]]; [constructor | done].
Qed.

Lemma dirs_above_snoc fs k n :
  dirs_above fs k → fs !! k = Some Dir → dirs_above fs (k ++ [n]).
Proof.
  intros Hk Hd r1 r2 E Hne.
  destruct r2 as [|x r2 _] using rev_ind; [done |].
  rewrite app_assoc in E. apply app_inj_tail in E as [-> _].
  destruct r2 as [|y r2]; [by rewrite app_nil_r in Hd |].
  by apply (Hk r1 (y :: r2)).
Qed.

(** *** [mkdir -p] *)

Lemma elem_of_walk_keys pre rest q :
  q ∈ walk_keys pre rest ↔ ∃ r1 r2, rest = r1 ++ r2 ∧ q = pre ++ r1.
Proof.
  revert pre. induction rest as [|s r IH]; intros pre; simpl.
  - rewrite list_elem_of_singleton. split.
    + intros ->. exists [], []. split; [done | by rewrite app_nil_r].
    + intros (r1 & r2 & E & ->). destruct r1; [| done]. by rewrite app_nil_r.
  - rewrite elem_of_cons, IH. split.
    + intros [-> | (r1 & r2 & -> & ->)].
      * exists [], (s :: r). split; [done | by rewrite app_nil_r].
      * exists (s :: r1), r2. split; [done | by rewrite <- app_assoc].
    + intros (r1 & r2 & E & ->). destruct r1 as [|x r1].
      * left. by rewrite app_nil_r.
      * right. simpl in E. injection E as -> ->. exists r1, r2.
        split; [done | by rewrite <- app_assoc].
Qed.

Lemma lookup_mark_dirs qs fs k :
  mark_dirs qs fs !! k = if decide (k ∈ qs) then Some Dir else fs !! k.
Proof.
  induction qs as [|q qs IH]; simpl.
  - destruct (decide (k ∈ [])) as [H|]; [by apply elem_of_nil in H | done].
  - destruct (decide (q = k)) as [-> | Hne].
    + rewrite lookup_insert_eq. destruct (decide (k ∈ k :: qs)) as [|H]; [done |].
      exfalso. apply H. by left.
    + rewrite lookup_insert_ne by done. rewrite IH.
      destruct (decide (k ∈ qs)) as [Hin | Hin].
      * destruct (decide (k ∈ q :: qs)) as [|H]; [done |].
        exfalso. apply H. by right.
      * destruct (decide (k ∈ q :: qs)) as [H|]; [| done].
        apply elem_of_cons in H as [-> | H]; done.
Qed.

Lemma ensure_dir_Ok b k fs fs' :
  ensure_dir b k fs = Ok fs' ↔ ¬ is_file (fs !! k) ∧ fs' = <[k := Dir]> fs.
Proof.
  unfold ensure_dir, is_file. destruct (fs !! k) as [[c|]|] eqn:E.
  - split; [done |]. intros [H _]. exfalso. apply H. by eauto.
  - rewrite (insert_id fs k Dir E). split.
    + intros [= ->]. split; [| done]. by intros [c ?].
    + by intros [_ ->].
  - split.
    + intros [= <-]. split; [| done]. by intros [c ?].
    + by intros [_ ->].
Qed.

Lemma mkdir_walk_Ok pre rest fs fs' :
  mkdir_walk pre rest fs = Ok fs' ↔
  (∀ q, q ∈ walk_keys pre rest → ¬ is_file (fs !! q)) ∧
  fs' = mark_dirs (rev (walk_keys pre rest)) fs.
Proof.
  revert pre fs fs'. induction rest as [|s r IH]; intros pre fs fs'; simpl.
  - rewrite ensure_dir_Ok. split.
    + intros [H ->]. split; [| done].
      intros q Hq. apply list_elem_of_singleton in Hq as ->. done.
    + intros [H ->]. split; [| done]. apply H. by left.
  - destruct (ensure_dir false pre fs) as [fs1|e] eqn:E.
    + apply ensure_dir_Ok in E as [Hpre ->]. rewrite IH.
      unfold mark_dirs. rewrite foldr_app. simpl. split.
      * intros [H ->]. split; [| done].
        intros q Hq. apply elem_of_cons in Hq as [-> | Hq]; [done |].
        specialize (H q Hq). intros [c Hc]. apply H. exists c.
        destruct (decide (pre = q)) as [-> |]; [by exfalso; apply Hpre; exists c |].
        by rewrite lookup_insert_ne.
      * intros [H ->]. split; [| done].
        intros q Hq [c Hc]. apply (H q); [by right |]. exists c.
        destruct (decide (pre = q)) as [-> |].
        -- by rewrite lookup_insert_eq in Hc.
        -- by rewrite lookup_insert_ne in Hc.
    + split; [done |]. intros [H _]. exfalso.
      assert (Hn : ¬ is_file (fs !! pre)) by (apply H; by left).
      unfold ensure_dir, is_file in *.
      destruct (fs !! pre) as [[c|]|]; try done. apply Hn. by eauto.
Qed.

Lemma mkdir_p_Ok k fs fs' :
  mkdir_p k fs = Ok fs' ↔
  (∀ r1 r2, k = r1 ++ r2 → ¬ is_file (fs !! r1)) ∧
  (∀ q, fs' !! q = if decide (q `prefix_of` k) then Some Dir else fs !! q).
Proof.
  unfold mkdir_p. rewrite mkdir_walk_Ok. split.
  - intros [H ->]. split.
    + intros r1 r2 E. apply H. apply elem_of_walk_keys. by exists r1, r2.
    + intros q. rewrite lookup_mark_dirs.
      destruct (decide (q ∈ rev (walk_keys [] k))) as [Hin | Hin];
        destruct (decide (q `prefix_of` k)) as [Hex | Hex]; try done.
      * exfalso. apply Hex. apply list_elem_of_In, in_rev, list_elem_of_In in Hin.
        apply elem_of_walk_keys in Hin as (r1 & r2 & -> & ->). by exists r2.
      * exfalso. apply Hin. apply list_elem_of_In, in_rev, list_elem_of_In.
        rewrite rev_involutive. apply elem_of_walk_keys.
        destruct Hex as [r ->]. by exists q, r.
  - intros [H Hl]. split.
    + intros q Hq. apply elem_of_walk_keys in Hq as (r1 & r2 & -> & ->).
      by apply (H r1 r2).
    + apply map_eq. intros q. rewrite Hl, lookup_mark_dirs.
      destruct (decide (q ∈ rev (walk_keys [] k))) as [Hin | Hin];
        destruct (decide (q `prefix_of` k)) as [Hex | Hex]; try done.
      * exfalso. apply Hex. apply list_elem_of_In, in_rev, list_elem_of_In in Hin.
        apply elem_of_walk_keys in Hin as (r1 & r2 & -> & ->). by exists r2.
      * exfalso. apply Hin. apply list_elem_of_In, in_rev, list_elem_of_In.
        rewrite rev_involutive. apply elem_of_walk_keys.
        destruct Hex as [r ->]. by exists q, r.
Qed.

End FsFacts.

(** ** What the kernel resolves a path to *)

Section KernelFacts.
Import NodePath Fs Io.

Lemma not_in_snoc (x y : string) (l : list string) :
  x ∉ l → x ≠ y → x ∉ l ++ [y].
Proof.
  intros Hl Hy Hin. apply elem_of_app in Hin as [Hin | Hin]; [done |].
  apply list_elem_of_singleton in Hin. done.
Qed.

(** Where the kernel can follow the components, it arrives where the
    text leads once normalised. *)
Lemma walk_textual fs (comps : list string) (cur k : key) :
  ".." ∉ cur → walk fs cur comps = Some k →
  k = rev (fold_left (norm_step false) comps (rev cur)).
Proof.
  revert cur. induction comps as [|c rest IH]; intros cur Hcur Hw.
  - simpl in *. rewrite rev_involutive. congruence.
  - simpl in Hw. destruct (fs !! cur) as [[|]|]; [done | | done].
    simpl. unfold norm_step at 2.
    destruct (decide (c = "" ∨ c = ".")) as [|Hn]; [by apply IH |].
    destruct (decide (c = "..")) as [-> | Hd].
    + destruct cur as [|x l _] using rev_ind.
      * simpl. by apply (IH []).
      * rewrite parent_snoc in Hw. rewrite rev_app_distr. simpl.
        assert (Hl : ".." ∉ l).
        { intros Hin. apply Hcur. apply elem_of_app. by left. }
        rewrite decide_False.
        -- by apply IH.
        -- intros ->. apply Hcur. apply elem_of_app. right. by apply list_elem_of_singleton.
    + replace (c :: rev cur) with (rev (cur ++ [c])) by (by rewrite rev_app_distr).
      apply IH; [| done]. apply not_in_snoc; [done | congruence].
Qed.

Lemma kernel_resolve_segments fs (p : string) (k : key) :
  kernel_resolve fs p = Some k → isAbsolute p = true ∧ segments p = k.
Proof.
  unfold kernel_resolve. destruct (isAbsolute p); [| done]. intros Hw.
  split; [done |]. symmetry. apply (walk_textual fs _ [] k); [| done].
  apply not_elem_of_nil.
Qed.

Lemma kernel_resolve_nonempty fs (p : string) (k : key) :
  kernel_resolve fs p = Some k → p ≠ "".
Proof. intros H ->. done. Qed.

Lemma kernel_lookup_segments fs (p : string) (v : node) :
  kernel_lookup fs p = Some v →
  isAbsolute p = true ∧ p ≠ "" ∧ fs !! segments p = Some v.
Proof.
  unfold kernel_lookup. destruct (kernel_resolve fs p) as [k|] eqn:E; [| done].
  intros Hv. destruct (kernel_resolve_segments fs p k E) as [Ha <-].
  split; [done |]. split; [by eapply kernel_resolve_nonempty | done].
Qed.

(** A path glued to the working directory. *)
Lemma segments_glue (a b : string) :
  segments (a +:+ "/" +:+ b) = resolve_from (segments a) b.
Proof.
  unfold segments, normalizeSegs, resolve_from.
  change (a +:+ "/" +:+ b) with (a +:+ String slash b).
  by rewrite split_slash_app, fold_left_app, rev_involutive.
Qed.

Lemma valid_name_relative (n : string) : valid_name n → isAbsolute n = false.
Proof.
  intros (Hn & _ & _ & Hs). destruct n as [|c r]; [done |]. simpl.
  destruct (Ascii.eqb c slash) eqn:E; [| done]. exfalso.
  simpl in Hs. rewrite E in Hs. injection Hs as Hs _. done.
Qed.

Lemma valid_name_no_trailing (n : string) : valid_name n → trailingSlash n = false.
Proof. intros (Hn & _ & _ & Hs). by apply no_slash_no_trailing. Qed.

(** [path.join('.', name)] is the name. *)
Lemma join_dot_name (n : string) : valid_name n → join ["."; n] = n.
Proof.
  intros Hn. pose proof Hn as (Hne & Hd & Hdd & Hs).
  unfold join. rewrite filter_cons_True by done.
  rewrite filter_cons_True by done. rewrite filter_nil.
  change (join_slash ["."; n]) with ("." +:+ String slash n).
  unfold normalize. change ("." +:+ String slash n) with (String "." (String slash n)).
  cbn [isAbsolute Ascii.eqb negb]. 
  change (String "." (String slash n)) with ("." +:+ String slash n).
  rewrite split_slash_app, Hs.
  unfold normalizeSegs. simpl fold_left.
  unfold norm_step at 2. rewrite decide_True by (by right).
  unfold norm_step. rewrite decide_False by (by intros [?|?]).
  rewrite decide_False by done. simpl rev.
  assert (Ht : trailingSlash ("." +:+ String slash n) = false).
  { change ("." +:+ String slash n) with (("." +:+ "/") +:+ n).
    rewrite trailingSlash_append by done. by apply valid_name_no_trailing. }
  rewrite Ht. simpl. by rewrite append_empty_r.
Qed.

End KernelFacts.

(** ** Entries that move *)

Section MoveFacts.
Import Fs Io Http Server Paths.

Lemma segments_nonempty_key (k : key) (n : string) : k ++ [n] ≠ [].
Proof. by destruct k. Qed.


Lemma wf_nothing_below_file fs (k q : key) (c : string) :
  wf fs → fs !! k = Some (File c) → under k q = true → q ≠ k → fs !! q = None.
Proof.
  intros Hwf Hk Hu Hne. apply under_true in Hu as [r ->].
  destruct (fs !! (k ++ r)) as [v|] eqn:E; [| done]. exfalso.
  assert (Hr : r ≠ []) by (intros ->; by rewrite app_nil_r in Hne).
  assert (Hq : is_Some (fs !! (k ++ r))) by (by rewrite E).
  pose proof (wf_dirs_above fs (k ++ r) Hwf Hq k r eq_refl Hr) as Hd.
  congruence.
Qed.

Lemma write_at_Ok fs (k : key) (content : string) :
  k ≠ [] → fs !! parent k = Some Dir → fs !! k ≠ Some Dir →
  write_at k content fs = Ok (<[k := File content]> fs).
Proof.
  intros Hk Hp Hd. unfold write_at. destruct k as [|x k]; [done |].
  rewrite Hp. by destruct (fs !! (x :: k)) as [[|]|].
Qed.

Lemma snoc_ne_self (k : key) (x : string) : k ++ [x] ≠ k.
Proof.
  intros E. apply (f_equal length) in E. rewrite length_app in E. simpl in E. lia.
Qed.

Lemma snoc_ne (k : key) (x y : string) : x ≠ y → k ++ [x] ≠ k ++ [y].
Proof. intros H E. apply app_inv_head in E. congruence. Qed.

Lemma lookup_rekey (src dst : key) fs (q : key) :
  rekey src dst fs !! q
  = match strip_prefix dst q with
    | Some r => fs !! (src ++ r)
    | None => None
    end.
Proof.
  unfold rekey. apply option_eq. intros v.
  rewrite <- elem_of_list_to_map.
  2: { rewrite <- list_fmap_compose.
       apply NoDup_fmap_2_strong; [| apply NoDup_map_to_list].
       intros [k1 v1] [k2 v2] H1 H2 E. simpl in E.
       apply elem_of_map_to_list in H1, H2.
       apply map_lookup_filter_Some in H1 as [H1 U1].
       apply map_lookup_filter_Some in H2 as [H2 U2]. simpl in *.
       apply under_true in U1 as [r1 ->]. apply under_true in U2 as [r2 ->].
       rewrite !drop_app_length in E. apply app_inv_head in E as ->. congruence. }
  rewrite list_elem_of_fmap. split.
  - intros ([k w] & E & Hin). simpl in E. injection E as -> ->.
    apply elem_of_map_to_list in Hin.
    apply map_lookup_filter_Some in Hin as [Hk Hu]. simpl in Hu.
    apply under_true in Hu as [r ->].
    by rewrite drop_app_length, strip_prefix_app.
  - destruct (strip_prefix dst q) as [r|] eqn:E; [| done]. intros Hv.
    apply strip_prefix_Some in E as ->.
    exists (src ++ r, v). split; [simpl; by rewrite drop_app_length |].
    apply elem_of_map_to_list. apply map_lookup_filter_Some. split; [done |].
    simpl. apply under_true. by exists r.
Qed.

(** What a rename that succeeds does: the entry and all below it are
    found at the new place, nothing is left at the old one, the rest
    stays. *)
Lemma rename_at_moves (src dst : key) fs fs' :
  rename_at src dst fs = Ok fs' → src ≠ dst →
  ∀ q, fs' !! q = match strip_prefix dst q with
                  | Some r => fs !! (src ++ r)
                  | None => if under src q then None else fs !! q
                  end.
Proof.
  intros H Hne.
  assert (E : fs' = rekey src dst fs ∪ rm_rf dst (rm_rf src fs)).
  { unfold rename_at in H. destruct (fs !! src) as [s|]; [| done].
    rewrite decide_False in H by done.
    destruct (under src dst); [done |].
    destruct (fs !! parent dst) as [[?|]|]; try done.
    destruct s, (fs !! dst) as [[?|]|]; try done; try congruence.
    destruct (children fs dst); congruence. }
  subst fs'. intros q. rewrite lookup_union, lookup_rekey, !lookup_rm_rf.
  unfold under at 1. destruct (strip_prefix dst q) as [r|]; simpl.
  - by destruct (fs !! (src ++ r)).
  - by destruct (under src q), (fs !! q).
Qed.

Lemma rename_at_Ok (src dst : key) fs (s : node) :
  fs !! src = Some s → src ≠ dst → under src dst = false →
  fs !! parent dst = Some Dir →
  fs !! dst = None ∨ (is_file (Some s) ∧ is_file (fs !! dst)) →
  rename_at src dst fs = Ok (rekey src dst fs ∪ rm_rf dst (rm_rf src fs)).
Proof.
  intros Hs Hne Hu Hp Hd. unfold rename_at. rewrite Hs, decide_False by done.
  rewrite Hu, Hp. destruct Hd as [-> | [[c [= ->]] [c' ->]]]; [by destruct s | done].
Qed.

Lemma siblings_not_under (d : key) (a b : string) :
  a ≠ b → under (d ++ [a]) (d ++ [b]) = false.
Proof.
  intros Hab. destruct (under _ _) eqn:E; [| done].
  apply under_true in E as [r E]. rewrite <- app_assoc in E.
  apply app_inv_head in E. destruct r as [|x r]; simpl in E; [congruence |].
  by destruct r.
Qed.

Lemma wf_above_is_dir fs (k r : key) :
  wf fs → is_Some (fs !! (k ++ r)) → r ≠ [] → fs !! k = Some Dir.
Proof. intros Hwf Hk Hr. by apply (wf_dirs_above fs (k ++ r) Hwf Hk k r). Qed.

Lemma under_into (src ddir : key) (f : string) :
  under src (ddir ++ [f]) = true → src = ddir ++ [f] ∨ under src ddir = true.
Proof.
  intros H. apply under_true in H as [r E].
  destruct r as [|x r _] using rev_ind.
  - left. by rewrite app_nil_r in E.
  - right. rewrite app_assoc in E. apply app_inj_tail in E as [-> _].
    apply under_true. by exists r.
Qed.

Lemma strip_prefix_snoc (d : key) (x : string) (q : key) :
  strip_prefix (d ++ [x]) q
  = match strip_prefix d q with
    | Some (y :: r) => if decide (x = y) then Some r else None
    | _ => None
    end.
Proof.
  revert q. induction d as [|a d IH]; intros q; simpl.
  - destruct q as [|y r]; [done |]. by destruct (decide (x = y)).
  - destruct q as [|b q]; [done |]. destruct (decide (a = b)); [apply IH | done].
Qed.

Lemma strip_prefix_self (d : key) : strip_prefix d d = Some [].
Proof. pose proof (strip_prefix_app d []) as E. by rewrite app_nil_r in E. Qed.

Lemma wf_insert fs (p : key) (n : string) (v : node) :
  wf fs → fs !! (p ++ [n]) = None → fs !! p = Some Dir → valid_name n →
  wf (<[p ++ [n] := v]> fs).
Proof.
  intros Hwf Hk Hp Hn. pose proof Hwf as [Hroot Hall]. split.
  - rewrite lookup_insert_ne; [done | by destruct p].
  - intros k' v' Hk'. simpl.
    destruct (decide (k' = p ++ [n])) as [-> | Hne].
    + right. rewrite parent_snoc. split.
      * rewrite lookup_insert_ne; [done | apply snoc_ne_self].
      * apply Forall_app. split; [| constructor; [done | constructor]].
        apply (wf_names_valid fs Hwf). eauto.
    + rewrite lookup_insert_ne in Hk' by done.
      destruct (Hall k' v' Hk') as [-> | [Hpar Hval]]; [by left | right].
      split; [| done].
      rewrite lookup_insert_ne; [done |]. intros E. rewrite <- E in Hpar. congruence.
Qed.

Lemma comparable (a b r r' : key) :
  a ++ r = b ++ r' → under a b = true ∨ under b a = true.
Proof.
  revert b. induction a as [|x a IH]; intros b E; [by left |].
  destruct b as [|y b]; [by right |].
  simpl in E. injection E as -> E. unfold under. simpl.
  rewrite !decide_True by done. by apply IH.
Qed.

Lemma apart (a b : key) :
  under a b = false → under b a = false → ∀ r, strip_prefix b (a ++ r) = None.
Proof.
  intros H1 H2 r. destruct (strip_prefix b (a ++ r)) as [r'|] eqn:E; [| done].
  apply strip_prefix_Some in E. destruct (comparable a b r r' E); congruence.
Qed.

Lemma absent_not_above fs (d q : key) :
  wf fs → fs !! d = None → is_Some (fs !! q) → strip_prefix d q = None.
Proof.
  intros Hwf Hd Hq. destruct (strip_prefix d q) as [r|] eqn:E; [| done].
  apply strip_prefix_Some in E as ->. destruct r as [|x r].
  - rewrite app_nil_r in Hq. rewrite Hd in Hq. by destruct Hq.
  - pose proof (wf_above_is_dir fs d (x :: r) Hwf Hq). naive_solver.
Qed.

Lemma strip_prefix_None (p k : key) :
  strip_prefix p k = None ↔ under p k = false.
Proof. unfold under. by destruct (strip_prefix p k). Qed.

Lemma rename_at_inv (src dst : key) fs fs' :
  rename_at src dst fs = Ok fs' → src ≠ dst →
  is_Some (fs !! src) ∧ under src dst = false ∧ fs !! parent dst = Some Dir.
Proof.
  unfold rename_at. intros H Hne. destruct (fs !! src) as [s|]; [| done].
  rewrite decide_False in H by done.
  destruct (under src dst); [done |].
  by destruct (fs !! parent dst) as [[?|]|].
Qed.

(** A rename that succeeds keeps the filesystem well formed. *)
Lemma rename_at_wf fs fs' (src ddir : key) (g : string) :
  wf fs → valid_name g → rename_at src (ddir ++ [g]) fs = Ok fs' → wf fs'.
Proof.
  intros Hwf Hg Hr. set (dst := ddir ++ [g]) in *.
  destruct (decide (src = dst)) as [E | Hne].
  { unfold rename_at in Hr. destruct (fs !! src); [| done].
    rewrite decide_True in Hr by done. congruence. }
  destruct (rename_at_inv src dst fs fs' Hr Hne) as ([s Hs] & Hu & Hp).
  unfold dst in Hp. rewrite parent_snoc in Hp. fold dst in Hp.
  pose proof (rename_at_moves src dst fs fs' Hr Hne) as Hl.
  assert (Hsrc : src ≠ []).
  { intros ->. by destruct dst. }
  assert (Hdd : fs' !! ddir = Some Dir).
  { rewrite Hl. destruct (strip_prefix dst ddir) as [r|] eqn:E.
    - apply strip_prefix_Some in E. unfold dst in E. rewrite <- app_assoc in E.
      rewrite <- (app_nil_r ddir) in E at 1. apply app_inv_head in E. done.
    - destruct (under src ddir) eqn:E'; [| done].
      apply under_true in E' as [r ->].
      assert (under src dst = true); [| congruence].
      apply under_true. exists (r ++ [g]). unfold dst. by rewrite app_assoc. }
  split.
  - rewrite Hl. destruct dst eqn:Ed; [by destruct ddir |]. simpl.
    destruct src; [done |]. simpl. apply (wf_root fs Hwf).
  - intros k v Hk. simpl. rewrite Hl in Hk.
    destruct (strip_prefix dst k) as [r|] eqn:E.
    + right. apply strip_prefix_Some in E as ->.
      assert (Hv : Forall valid_name (src ++ r)) by (apply (wf_names_valid fs Hwf); eauto).
      apply Forall_app in Hv as [_ Hv].
      assert (Hvd : Forall valid_name dst).
      { unfold dst. apply Forall_app. split; [| by constructor].
        apply (wf_names_valid fs Hwf). eauto. }
      split; [| by apply Forall_app].
      destruct r as [|x r _] using rev_ind.
      * rewrite app_nil_r. unfold dst. by rewrite parent_snoc.
      * rewrite app_assoc, parent_snoc, Hl, strip_prefix_app.
        apply (wf_parent fs (src ++ r) x Hwf). rewrite <- app_assoc. eauto.
    + destruct (under src k) eqn:E'; [done |].
      destruct k as [|x k _] using rev_ind; [by left |]. right.
      split; [| apply (wf_names_valid fs Hwf); eauto].
      rewrite parent_snoc, Hl.
      destruct (strip_prefix dst k) as [r|] eqn:E2.
      * apply strip_prefix_Some in E2 as ->.
        rewrite <- app_assoc, strip_prefix_app in E. done.
      * destruct (under src k) eqn:E3.
        -- apply under_true in E3 as [r ->].
           assert (under src ((src ++ r) ++ [x]) = true); [| congruence].
           apply under_true. exists (r ++ [x]). by rewrite app_assoc.
        -- apply (wf_parent fs k x Hwf). eauto.
Qed.

(** Moving [g] from one directory into another leaves the entries of
    another name in both as they are. *)
Lemma rename_sibling_frame fs fs' (sd dd : key) (g f : string) :
  wf fs → g ≠ f → fs !! (dd ++ [g]) = None →
  rename_at (sd ++ [g]) (dd ++ [g]) fs = Ok fs' →
  fs' !! (sd ++ [f]) = fs !! (sd ++ [f]) ∧ fs' !! (dd ++ [f]) = fs !! (dd ++ [f]).
Proof.
  intros Hwf Hgf Hd Hr.
  assert (Hne : sd ++ [g] ≠ dd ++ [g]).
  { intros E. unfold rename_at in Hr. rewrite E, Hd in Hr. done. }
  destruct (rename_at_inv _ _ _ _ Hr Hne) as (Hs & Hu & _).
  pose proof (rename_at_moves _ _ _ _ Hr Hne) as Hl.
  split.
  - rewrite Hl. destruct (strip_prefix (dd ++ [g]) (sd ++ [f])) as [r|] eqn:E.
    + exfalso. apply strip_prefix_Some in E.
      destruct r as [|x r _] using rev_ind.
      * rewrite app_nil_r in E. apply app_inj_tail in E as [_ E]. congruence.
      * rewrite app_assoc in E. apply app_inj_tail in E as [E _].
        assert (Ha : is_Some (fs !! ((dd ++ [g]) ++ (r ++ [g])))).
        { rewrite app_assoc, <- E. done. }
        pose proof (wf_above_is_dir fs (dd ++ [g]) (r ++ [g]) Hwf Ha) as Hdir.
        rewrite Hd in Hdir. by destruct r; discriminate Hdir.
    + by rewrite siblings_not_under.
  - rewrite Hl.
    assert (E : strip_prefix (dd ++ [g]) (dd ++ [f]) = None).
    { apply strip_prefix_None. by apply siblings_not_under. }
    rewrite E. destruct (under (sd ++ [g]) (dd ++ [f])) eqn:E'; [| done].
    exfalso. apply under_true in E' as [r E'].
    destruct r as [|x r _] using rev_ind.
    + rewrite app_nil_r in E'. apply app_inj_tail in E' as [_ E']. congruence.
    + rewrite app_assoc in E'. apply app_inj_tail in E' as [E' _].
      assert (under (sd ++ [g]) (dd ++ [g]) = true); [| congruence].
      apply under_true. exists (r ++ [g]). by rewrite E', app_assoc.
Qed.

End MoveFacts.

(** ** Running a handler body *)

Section IoFacts.
Import Fs Io.

Lemma bind_existsSync {B} (p : string) (f : bool → io B) fs :
  (existsSync p ≫= f) fs = f (exists_in fs p) fs.
Proof. reflexivity. Qed.

Lemma bind_mret {A B} (a : A) (f : A → io B) fs : (mret a ≫= f) fs = f a fs.
Proof. reflexivity. Qed.

Lemma bind_Ok {A B} (m : io A) (f : A → io B) fs (a : A) fs' :
  m fs = (Ok a, fs') → (m ≫= f) fs = f a fs'.
Proof. intros H. unfold mbind, io_bind. by rewrite H. Qed.

Lemma run_try_bind_Ok {A B} (m : io A) (f : A → io B) (h : B) fs (a : A) fs' :
  m fs = (Ok a, fs') → run_try (m ≫= f) h fs = run_try (f a) h fs'.
Proof. intros H. unfold run_try, mbind, io_bind. by rewrite H. Qed.

Lemma run_try_mret {A} (a h : A) fs : run_try (mret a) h fs = (a, fs).
Proof. reflexivity. Qed.

Lemma run_try_bind_existsSync {A} (p : string) (f : bool → io A) (h : A) fs :
  run_try (existsSync p ≫= f) h fs = run_try (f (exists_in fs p)) h fs.
Proof. reflexivity. Qed.

End IoFacts.

(** ** An upload: staged by multer, moved by the handler *)

Section Uploads.
Import Fs Io Http Server Paths More.

(** A file written at [up] and renamed to [dst], both in directories
    that exist. *)
Lemma stage_then_rename fs (cw tdir : key) (n b : string) :
  wf fs → fs !! cw = Some Dir → fs !! tdir = Some Dir →
  let up := cw ++ [n] in
  let dst := tdir ++ [n] in
  fs !! up ≠ Some Dir → fs !! dst ≠ Some Dir →
  ∃ fs',
    rename_at up dst (<[up := File b]> fs) = Ok fs'
    ∧ fs' !! dst = Some (File b)
    ∧ (up ≠ dst → fs' !! up = None)
    ∧ ∀ q, q ≠ up → q ≠ dst → fs' !! q = fs !! q.
Proof.
  intros Hwf Hcw Htd up dst Hup Hdst.
  assert (Hbelow : ∀ k r, fs !! k ≠ Some Dir → r ≠ [] → fs !! (k ++ r) = None).
  { intros k r Hk Hr. destruct (fs !! (k ++ r)) eqn:E; [| done].
    assert (is_Some (fs !! (k ++ r))) as Hs by eauto.
    by pose proof (wf_above_is_dir fs k r Hwf Hs Hr). }
  assert (Hne_self : ∀ (k r : key), r ≠ [] → k ++ r ≠ k).
  { intros k r Hr E. rewrite <- (app_nil_r k) in E at 2. by apply app_inv_head in E. }
  set (fs1 := <[up := File b]> fs).
  assert (H1up : fs1 !! up = Some (File b)) by (unfold fs1; by rewrite lookup_insert_eq).
  assert (H1 : ∀ q, q ≠ up → fs1 !! q = fs !! q).
  { intros q Hq. unfold fs1. by rewrite lookup_insert_ne. }
  destruct (decide (up = dst)) as [E | Hne].
  - exists fs1. split; [| split; [| split]].
    + unfold rename_at. by rewrite H1up, decide_True.
    + by rewrite <- E.
    + done.
    + intros q Hq _. by apply H1.
  - assert (Htu : tdir ≠ up) by congruence.
    assert (Hu : under up dst = false).
    { destruct (under up dst) eqn:E; [| done].
      apply under_into in E as [E | E]; [done |].
      apply under_true in E as [r E]. destruct (decide (r = [])) as [-> | Hr].
      - rewrite app_nil_r in E. congruence.
      - pose proof (Hbelow up r Hup Hr) as Hb. rewrite <- E in Hb. congruence. }
    assert (Hd1 : fs1 !! dst = None ∨ (is_file (Some (File b)) ∧ is_file (fs1 !! dst))).
    { rewrite H1 by done. destruct (fs !! dst) as [[c'|]|]; [right | done | by left].
      split; eexists; done. }
    pose proof (rename_at_Ok up dst fs1 (File b) H1up Hne Hu) as Hr.
    unfold dst in Hr at 1. rewrite parent_snoc in Hr. fold dst in Hr.
    rewrite H1 in Hr by done. specialize (Hr Htd Hd1).
    pose proof (rename_at_moves _ _ _ _ Hr Hne) as Hl.
    eexists. split; [exact Hr |]. split; [| split].
    + rewrite Hl, strip_prefix_self. by rewrite app_nil_r.
    + intros _. rewrite Hl. destruct (strip_prefix dst up) as [r|] eqn:E.
      * apply strip_prefix_Some in E.
        assert (Hr' : r ≠ []) by (intros ->; rewrite app_nil_r in E; done).
        rewrite H1 by (by apply Hne_self). by apply Hbelow.
      * by rewrite under_refl.
    + intros q Hq1 Hq2. rewrite Hl. destruct (strip_prefix dst q) as [r|] eqn:E.
      * apply strip_prefix_Some in E as ->.
        assert (r ≠ []) by (intros ->; by rewrite app_nil_r in Hq2).
        rewrite H1 by (by apply Hne_self). by rewrite !Hbelow.
      * destruct (under up q) eqn:E'; [| by apply H1].
        apply under_true in E' as [r ->]. symmetry. apply Hbelow; [done |].
        intros ->. by rewrite app_nil_r in Hq1.
Qed.

Variable cwd : string.

Lemma staged_at (n : string) (b : string) (cw : key) fs :
  valid_name n → kernel_resolve fs cwd = Some cw →
  NodePath.segments (from_cwd cwd (file_path {| originalname := n; bytes := b |}))
  = cw ++ [n].
Proof.
  intros Hn Hcw. apply kernel_resolve_segments in Hcw as [_ <-].
  unfold file_path, from_cwd. simpl originalname.
  rewrite join_dot_name, valid_name_relative by done.
  rewrite segments_glue. by apply resolve_from_name.
Qed.

Lemma moved_to (t n : string) :
  valid_name n → NodePath.isAbsolute t = true →
  NodePath.segments (from_cwd cwd (NodePath.join [t; n])) = NodePath.segments t ++ [n].
Proof.
  intros Hn Ht. unfold from_cwd. rewrite join_abs by done.
  by apply segments_join_name.
Qed.

(** multer stores the one file of a request. *)
Lemma multer_stores_one (n b : string) (cw : key) fs :
  valid_name n → (N.of_nat (String.length b) ≤ fileSize)%N →
  kernel_resolve fs cwd = Some cw → fs !! cw = Some Dir →
  fs !! (cw ++ [n]) ≠ Some Dir →
  multer_store cwd [{| originalname := n; bytes := b |}] [] fs
  = (true, <[cw ++ [n] := File b]> fs).
Proof.
  intros Hn Hsize Hcw Hd Hup. unfold multer_store, writeFile, update.
  rewrite (staged_at n b cw fs) by done. simpl bytes.
  rewrite write_at_Ok;
    [| apply segments_nonempty_key | by rewrite parent_snoc | done].
  apply N.ltb_ge in Hsize. by rewrite Hsize.
Qed.

(** The handler's loop moves it. *)
Lemma move_uploads_one (t n b : string) (cw : key) fs0 fs fs' :
  valid_name n → kernel_resolve fs0 cwd = Some cw → NodePath.isAbsolute t = true →
  rename_at (cw ++ [n]) (NodePath.segments t ++ [n]) fs = Ok fs' →
  move_uploads cwd t [{| originalname := n; bytes := b |}] fs = (Ok (), fs').
Proof.
  intros Hn Hcw Ht Hr. unfold move_uploads. erewrite bind_Ok; [reflexivity |].
  unfold rename, update. rewrite (staged_at n b cw fs0) by done.
  simpl originalname. rewrite moved_to by done. by rewrite Hr.
Qed.

End Uploads.

(** ** Copy, move and rename *)

Section Conflicts.
Import Fs Io Http Server Paths.

Variable dirname : string.
Variable sess : session.
Variable serverName : string.
Variable fs : state.
Hypothesis Hsess : logged_in sess = true.
Hypothesis Hserver : exists_in fs (serverPath dirname serverName) = true.

Ltac enter route :=
  unfold route, api, isAuthenticated; rewrite Hsess; cbv zeta.

Ltac branch := cbn [negb orb andb].

Ltac look H := rewrite run_try_bind_existsSync, H; branch.

Lemma move_outcomes (filename destinationPath : string) (currentPath : option string) :
  let src := filePath dirname serverName currentPath filename in
  let dst := destFilePath dirname serverName destinationPath filename in
  passes_check dirname serverName src = true →
  passes_check dirname serverName dst = true →
  (exists_in fs src = false →
   post_server_move dirname sess serverName filename destinationPath currentPath fs
   = (error 404 "Source file not found", fs)) ∧
  (exists_in fs src = true →
   exists_in fs (destDir dirname serverName destinationPath) = true →
   exists_in fs dst = true →
   post_server_move dirname sess serverName filename destinationPath currentPath fs
   = (error 400 "File already exists in destination", fs)).
Proof.
  intros src dst Hs Hd.
  unfold passes_check, src, dst, filePath, destFilePath, destDir, targetDir,
    serverPath, serverPathOf in *.
  split.
  - intros Hsrc. enter post_server_move. rewrite Hs, Hd. branch.
    look Hserver. look Hsrc. done.
  - intros Hsrc Hdir Hdst. enter post_server_move. rewrite Hs, Hd. branch.
    look Hserver. look Hsrc. look Hdir. look Hdst. done.
Qed.

Lemma copy_outcomes (depth : nat) (filename destinationPath : string)
    (currentPath : option string) :
  let src := filePath dirname serverName currentPath filename in
  let dst := destFilePath dirname serverName destinationPath filename in
  passes_check dirname serverName src = true →
  passes_check dirname serverName dst = true →
  (exists_in fs src = false →
   post_server_copy dirname depth sess serverName filename destinationPath currentPath fs
   = (error 404 "Source file not found", fs)) ∧
  (exists_in fs src = true →
   exists_in fs (destDir dirname serverName destinationPath) = true →
   exists_in fs dst = true →
   post_server_copy dirname depth sess serverName filename destinationPath currentPath fs
   = (error 400 "File already exists in destination", fs)).
Proof.
  intros src dst Hs Hd.
  unfold passes_check, src, dst, filePath, destFilePath, destDir, targetDir,
    serverPath, serverPathOf in *.
  split.
  - intros Hsrc. enter post_server_copy. rewrite Hs, Hd. branch.
    look Hserver. look Hsrc. done.
  - intros Hsrc Hdir Hdst. enter post_server_copy. rewrite Hs, Hd. branch.
    look Hserver. look Hsrc. look Hdir. look Hdst. done.
Qed.

Lemma rename_outcomes (oldName newName : string) (currentPath : option string) :
  let src := filePath dirname serverName currentPath oldName in
  let dst := filePath dirname serverName currentPath newName in
  passes_check dirname serverName src = true →
  passes_check dirname serverName dst = true →
  (exists_in fs src = false →
   post_server_rename dirname sess serverName oldName newName currentPath fs
   = (error 404 "Source file not found", fs)) ∧
  (exists_in fs src = true →
   exists_in fs dst = true →
   post_server_rename dirname sess serverName oldName newName currentPath fs
   = (error 400 "A file or directory with that name already exists", fs)).
Proof.
  intros src dst Hs Hd.
  unfold passes_check, src, dst, filePath, targetDir, serverPath, serverPathOf in *.
  split.
  - intros Hsrc. enter post_server_rename. rewrite Hs, Hd. branch.
    look Hserver. look Hsrc. done.
  - intros Hsrc Hdst. enter post_server_rename. rewrite Hs, Hd. branch.
    look Hserver. look Hsrc. look Hdst. done.
Qed.

End Conflicts.

Section DestinationExists.
Import Fs Io Http Server Paths.

Variable dirname : string.
Variable sess : session.
Variable serverName : string.
Variable fs : state.

Ltac branch := cbn [negb orb andb].

Ltac cases_exists :=
  rewrite run_try_bind_existsSync;
  match goal with
  | |- context [exists_in fs ?p] =>
      let E := fresh "E" in destruct (exists_in fs p) eqn:E; branch
  end.

Lemma move_dest_exists (filename destinationPath : string) (currentPath : option string) :
  exists_in fs (destFilePath dirname serverName destinationPath filename) = true →
  let r := post_server_move dirname sess serverName filename destinationPath currentPath fs in
  r.2 = fs ∧ code r.1 ≠ 200.
Proof.
  unfold destFilePath, destDir, serverPath, serverPathOf. intros H. cbv zeta.
  unfold post_server_move, api, isAuthenticated.
  destruct (logged_in sess); [| done]. cbv zeta.
  destruct (JsString.startsWith _ _); [| done].
  destruct (JsString.startsWith _ _); [| done]. branch.
  cases_exists; [| done]. cases_exists; [| done]. cases_exists; [| done].
  rewrite run_try_bind_existsSync, H. done.
Qed.

Lemma copy_dest_exists (depth : nat) (filename destinationPath : string)
    (currentPath : option string) :
  exists_in fs (destFilePath dirname serverName destinationPath filename) = true →
  let r := post_server_copy dirname depth sess serverName filename destinationPath
             currentPath fs in
  r.2 = fs ∧ code r.1 ≠ 200.
Proof.
  unfold destFilePath, destDir, serverPath, serverPathOf. intros H. cbv zeta.
  unfold post_server_copy, api, isAuthenticated.
  destruct (logged_in sess); [| done]. cbv zeta.
  destruct (JsString.startsWith _ _); [| done].
  destruct (JsString.startsWith _ _); [| done]. branch.
  cases_exists; [| done]. cases_exists; [| done]. cases_exists; [| done].
  rewrite run_try_bind_existsSync, H. done.
Qed.

Lemma rename_dest_exists (oldName newName : string) (currentPath : option string) :
  exists_in fs (filePath dirname serverName currentPath newName) = true →
  let r := post_server_rename dirname sess serverName oldName newName currentPath fs in
  r.2 = fs ∧ code r.1 ≠ 200.
Proof.
  unfold filePath, targetDir, serverPath, serverPathOf. intros H. cbv zeta.
  unfold post_server_rename, api, isAuthenticated.
  destruct (logged_in sess); [| done]. cbv zeta.
  destruct (JsString.startsWith _ _); [| done].
  destruct (JsString.startsWith _ _); [| done]. branch.
  cases_exists; [| done]. cases_exists; [| done].
  rewrite run_try_bind_existsSync, H. done.
Qed.

End DestinationExists.

Section ClaimC4.
Import Fs Io Http Server Paths.

(** C4.  Copy, move and rename of a source whose destination already
    exists: the handler answers 400 with its "already exists" message
    and the filesystem is the one it started from; with the source
    absent it answers 404 "Source file not found".  Whatever else holds
    of the request, an existing destination means that nothing is
    written and that the answer is no success. *)
Theorem copy_move_rename_conflict
    (dirname : string) (sess : session) (serverName : string) (fs : state)
    (filename destinationPath : string) (currentPath : option string)
    (oldName newName : string) (depth : nat) :
  let src := filePath dirname serverName currentPath filename in
  let dst := destFilePath dirname serverName destinationPath filename in
  let old := filePath dirname serverName currentPath oldName in
  let new := filePath dirname serverName currentPath newName in
  let move := post_server_move dirname sess serverName filename destinationPath
                currentPath fs in
  let copy := post_server_copy dirname depth sess serverName filename destinationPath
                currentPath fs in
  let rename := post_server_rename dirname sess serverName oldName newName
                  currentPath fs in
  logged_in sess = true →
  exists_in fs (serverPath dirname serverName) = true →
  (passes_check dirname serverName src = true →
   passes_check dirname serverName dst = true →
   (exists_in fs src = true →
    exists_in fs (destDir dirname serverName destinationPath) = true →
    exists_in fs dst = true →
    move = (error 400 "File already exists in destination", fs) ∧
    copy = (error 400 "File already exists in destination", fs)) ∧
   (exists_in fs src = false →
    move = (error 404 "Source file not found", fs) ∧
    copy = (error 404 "Source file not found", fs))) ∧
  (passes_check dirname serverName old = true →
   passes_check dirname serverName new = true →
   (exists_in fs old = true → exists_in fs new = true →
    rename = (error 400 "A file or directory with that name already exists", fs)) ∧
   (exists_in fs old = false →
    rename = (error 404 "Source file not found", fs))) ∧
  (exists_in fs dst = true →
   move.2 = fs ∧ code move.1 ≠ 200 ∧ copy.2 = fs ∧ code copy.1 ≠ 200) ∧
  (exists_in fs new = true → rename.2 = fs ∧ code rename.1 ≠ 200).
Proof.
  intros src dst old new move copy rename Hsess Hserver.
  split; [| split; [| split]].
  - intros Hs Hd.
    destruct (move_outcomes dirname sess serverName fs Hsess Hserver
                filename destinationPath currentPath Hs Hd) as [Hm1 Hm2].
    destruct (copy_outcomes dirname sess serverName fs Hsess Hserver depth
                filename destinationPath currentPath Hs Hd) as [Hc1 Hc2].
    split.
    + intros H1 H2 H3. split; [by apply Hm2 | by apply Hc2].
    + intros H1. split; [by apply Hm1 | by apply Hc1].
  - intros Hs Hd.
    destruct (rename_outcomes dirname sess serverName fs Hsess Hserver
                oldName newName currentPath Hs Hd) as [Hr1 Hr2].
    split; [exact Hr2 | exact Hr1].
  - intros H.
    destruct (move_dest_exists dirname sess serverName fs filename destinationPath
                currentPath H) as [? ?].
    destruct (copy_dest_exists dirname sess serverName fs depth filename
                destinationPath currentPath H) as [? ?].
    done.
  - intros H.
    apply (rename_dest_exists dirname sess serverName fs oldName newName currentPath H).
Qed.

(** On the sample disk: [a.txt] exists in [s1] and in [s1/sub], so
    moving or copying it into [sub], or renaming [b.txt] to [a.txt], is
    refused and changes nothing. *)
Lemma copy_move_rename_conflict_witness :
  logged_in Sample.admin = true ∧
  exists_in Sample.disk (serverPath Sample.dirname "s1") = true ∧
  post_server_move Sample.dirname Sample.admin "s1" "a.txt" "sub" None Sample.disk
    = (error 400 "File already exists in destination", Sample.disk) ∧
  post_server_copy Sample.dirname 8 Sample.admin "s1" "a.txt" "sub" None Sample.disk
    = (error 400 "File already exists in destination", Sample.disk) ∧
  post_server_rename Sample.dirname Sample.admin "s1" "b.txt" "a.txt" None Sample.disk
    = (error 400 "A file or directory with that name already exists", Sample.disk).
Proof.
  pose proof (copy_move_rename_conflict Sample.dirname Sample.admin "s1" Sample.disk
                "a.txt" "sub" None "b.txt" "a.txt" 8) as H.
  cbv zeta in H.
  assert (H1 : logged_in Sample.admin = true) by reflexivity.
  assert (H2 : exists_in Sample.disk (serverPath Sample.dirname "s1") = true)
    by (vm_compute; reflexivity).
  destruct (H H1 H2) as (Hmc & Hr & _).
  split; [exact H1 |]. split; [exact H2 |].
  destruct Hmc as [Hmc _]; [vm_compute; reflexivity | vm_compute; reflexivity |].
  destruct Hmc as [Hm Hc];
    [vm_compute; reflexivity | vm_compute; reflexivity | vm_compute; reflexivity |].
  destruct Hr as [Hr _]; [vm_compute; reflexivity | vm_compute; reflexivity |].
  split; [exact Hm |]. split; [exact Hc |].
  apply Hr; vm_compute; reflexivity.
Defined.

End ClaimC4.

Section ClaimC5.
Import Fs Io Http Server Paths.

Variable zip_entries : string → option (list (key * node)).

Ltac branch := cbn [negb orb andb].

Lemma server_extract_not_zip (dirname : string) (sess : session)
    (serverName filename : string) (path : option string) (fs : state) :
  JsString.endsWith (JsString.toLowerCase filename) ".zip" = false →
  let r := post_server_extract dirname zip_entries sess serverName filename path fs in
  r.2 = fs ∧ code r.1 ≠ 200 ∧
  (logged_in sess = true →
   passes_check dirname serverName (filePath dirname serverName path filename) = true →
   exists_in fs (serverPath dirname serverName) = true →
   exists_in fs (filePath dirname serverName path filename) = true →
   r = (error 400 "File is not a ZIP archive", fs)).
Proof.
  unfold passes_check, filePath, targetDir, serverPath, serverPathOf.
  intros Hz. cbv zeta.
  unfold post_server_extract, api, isAuthenticated. cbv zeta.
  destruct (logged_in sess); [| by repeat split].
  destruct (JsString.startsWith _ _); branch; [| by repeat split].
  rewrite run_try_bind_existsSync.
  destruct (exists_in fs (NodePath.join [serversDir dirname; serverName]));
    branch; [| by repeat split].
  rewrite run_try_bind_existsSync.
  destruct (exists_in fs _); branch; [| by repeat split].
  rewrite Hz. branch. by repeat split.
Qed.

Lemma global_extract_not_zip (sess : session) (filePath : string)
    (targetPath : option string) (fs : state) :
  JsString.endsWith (JsString.toLowerCase filePath) ".zip" = false →
  let r := post_extract zip_entries sess (Some filePath) targetPath fs in
  r.2 = fs ∧ code r.1 ≠ 200 ∧
  (logged_in sess = true → filePath ≠ "" → exists_in fs filePath = true →
   r = (error 400 "File is not a ZIP archive", fs)).
Proof.
  intros Hz. cbv zeta.
  unfold post_extract, api, isAuthenticated.
  destruct (logged_in sess); [| by repeat split].
  destruct filePath as [|c rest]; [by repeat split |].
  cbn [JsString.truthy JsString.or_empty negb].
  rewrite run_try_bind_existsSync.
  destruct (exists_in fs _); branch; [| by repeat split].
  rewrite Hz. branch. by repeat split.
Qed.

(** C5.  An archive whose name does not end in [.zip], letter case
    aside, is never extracted: both extraction routes leave the whole
    filesystem as it was and answer no success; for an existing file at
    an accepted path the answer is 400 "File is not a ZIP archive". *)
Theorem extract_rejects_non_zip
    (dirname : string) (sess : session) (serverName filename : string)
    (path targetPath : option string) (fs : state) :
  JsString.endsWith (JsString.toLowerCase filename) ".zip" = false →
  let scoped := post_server_extract dirname zip_entries sess serverName filename path fs in
  let global := post_extract zip_entries sess (Some filename) targetPath fs in
  (scoped.2 = fs ∧ code scoped.1 ≠ 200 ∧
   (logged_in sess = true →
    passes_check dirname serverName (filePath dirname serverName path filename) = true →
    exists_in fs (serverPath dirname serverName) = true →
    exists_in fs (filePath dirname serverName path filename) = true →
    scoped = (error 400 "File is not a ZIP archive", fs))) ∧
  (global.2 = fs ∧ code global.1 ≠ 200 ∧
   (logged_in sess = true → filename ≠ "" → exists_in fs filename = true →
    global = (error 400 "File is not a ZIP archive", fs))).
Proof.
  intros Hz. cbv zeta. split.
  - by apply server_extract_not_zip.
  - by apply global_extract_not_zip.
Qed.

End ClaimC5.

(** On the sample disk, asking to extract [a.txt] of [s1]. *)
Lemma extract_rejects_non_zip_witness :
  JsString.endsWith (JsString.toLowerCase "a.txt") ".zip" = false ∧
  Server.post_server_extract Sample.dirname Sample.no_archive Sample.admin "s1" "a.txt"
    None Sample.disk
  = (Http.error 400 "File is not a ZIP archive", Sample.disk).
Proof.
  assert (Hz : JsString.endsWith (JsString.toLowerCase "a.txt") ".zip" = false)
    by reflexivity.
  split; [exact Hz |].
  pose proof (extract_rejects_non_zip Sample.no_archive Sample.dirname Sample.admin
                "s1" "a.txt" None None Sample.disk Hz) as H.
  cbv zeta in H. destruct H as [(_ & _ & H) _].
  apply H; vm_compute; reflexivity.
Defined.

(** ** The bulk move *)

Section ClaimC9.
Import Fs Io Http Server Paths.

Variable dirname : string.

Ltac branch := cbn [negb orb andb].

Lemma move_one_total (sourceDir destDir filename : string) (fs : state) :
  ∃ r fs', move_one sourceDir destDir filename fs = (Ok r, fs')
           ∧ mr_filename r = filename.
Proof.
  unfold move_one, try_io. rewrite bind_existsSync.
  destruct (exists_in fs _); branch; [| by eauto].
  rewrite bind_existsSync.
  destruct (exists_in fs _); branch; [by eauto |].
  match goal with |- context [(?m ≫= ?f) fs] => destruct ((m ≫= f) fs) as [[r|e] fs'] eqn:E end.
  - unfold mbind, io_bind in E.
    destruct (rename _ _ fs) as [[[]|e] fs1]; [| done].
    injection E as <- <-. by eauto.
  - by eauto.
Qed.

Lemma move_each_total (sourceDir destDir : string) (filenames : list string)
    (acc : list move_result) (fs : state) :
  ∃ rs fs', move_each sourceDir destDir filenames acc fs = (Ok (acc ++ rs), fs')
            ∧ mr_filename <$> rs = filenames.
Proof.
  revert acc fs. induction filenames as [|f l IH]; intros acc fs.
  - exists [], fs. by rewrite app_nil_r.
  - simpl. destruct (move_one_total sourceDir destDir f fs) as (r & fs1 & E & Hr).
    unfold mbind, io_bind at 1. rewrite E.
    destruct (IH (acc ++ [r]) fs1) as (rs & fs' & E' & Hrs).
    exists (r :: rs), fs'. rewrite E', <- app_assoc. split; [done |].
    rewrite fmap_cons. by rewrite Hr, Hrs.
Qed.

Lemma move_one_blocked (serverName : string) (currentPath : option string)
    (destinationPath filename : string) (fs : state) :
  exists_in fs (bulkSource dirname serverName currentPath filename) = false
  ∨ exists_in fs (destFilePath dirname serverName destinationPath filename) = true →
  move_one (targetDir dirname serverName currentPath)
    (destDir dirname serverName destinationPath) filename fs
  = (Ok (blocked_result dirname fs serverName currentPath filename), fs).
Proof.
  unfold move_one, try_io, blocked_result, bulkSource, destFilePath.
  intros H. rewrite bind_existsSync.
  destruct (exists_in fs (NodePath.join [targetDir dirname serverName currentPath; filename]))
    eqn:E; branch; [| done].
  destruct H as [H | H]; [done |].
  rewrite bind_existsSync, H. done.
Qed.

Lemma move_each_blocked (serverName : string) (currentPath : option string)
    (destinationPath : string) (filenames : list string) (acc : list move_result)
    (fs : state) :
  Forall (λ f,
    exists_in fs (bulkSource dirname serverName currentPath f) = false
    ∨ exists_in fs (destFilePath dirname serverName destinationPath f) = true)
    filenames →
  move_each (targetDir dirname serverName currentPath)
    (destDir dirname serverName destinationPath) filenames acc fs
  = (Ok (acc ++ (blocked_result dirname fs serverName currentPath <$> filenames)), fs).
Proof.
  intros H. revert acc. induction H as [|f l Hf _ IH]; intros acc.
  - simpl. by rewrite app_nil_r.
  - simpl. unfold mbind, io_bind at 1.
    rewrite (move_one_blocked serverName currentPath destinationPath f fs Hf).
    rewrite IH, <- app_assoc. done.
Qed.

Section Mixed.

Variables sourceDir destDir : string.
Hypothesis Hsa : NodePath.isAbsolute sourceDir = true.
Hypothesis Hda : NodePath.isAbsolute destDir = true.

(** One round of the loop, for a proper name: the filesystem stays well
    formed, a file that is blocked is reported and nothing moves, and
    the entries of every other name in the two directories stay. *)
Lemma move_one_step (f : string) (fs : state) :
  valid_name f → wf fs →
  ∃ r fs',
    move_one sourceDir destDir f fs = (Ok r, fs') ∧ wf fs'
    ∧ (exists_in fs (NodePath.join [sourceDir; f]) = false
       ∨ exists_in fs (NodePath.join [destDir; f]) = true →
       r = {| mr_filename := f; mr_status := "error";
              mr_message := if exists_in fs (NodePath.join [sourceDir; f])
                            then "File already exists in destination"
                            else "Source file not found" |}
       ∧ fs' = fs)
    ∧ (∀ h, h ≠ f →
         fs' !! (NodePath.segments sourceDir ++ [h])
         = fs !! (NodePath.segments sourceDir ++ [h])
         ∧ fs' !! (NodePath.segments destDir ++ [h])
           = fs !! (NodePath.segments destDir ++ [h])).
Proof.
  intros Hf Hwf. unfold move_one, try_io. rewrite bind_existsSync.
  destruct (exists_in fs (NodePath.join [sourceDir; f])) eqn:Es; branch.
  2: { eexists _, fs. split; [reflexivity |]. split; [done |]. by split. }
  rewrite bind_existsSync.
  destruct (exists_in fs (NodePath.join [destDir; f])) eqn:Ed; branch.
  { eexists _, fs. split; [reflexivity |]. split; [done |]. by split. }
  unfold exists_in in Es, Ed.
  rewrite segments_join_name in Es, Ed by done.
  apply bool_decide_eq_true in Es. apply bool_decide_eq_false in Ed.
  assert (Hd : fs !! (NodePath.segments destDir ++ [f]) = None).
  { by apply eq_None_not_Some. }
  unfold mbind, io_bind, rename, update.
  rewrite !segments_join_name by done.
  destruct (rename_at _ _ fs) as [fs1|e] eqn:Er.
  - eexists _, fs1. split; [reflexivity |].
    split; [by apply (rename_at_wf fs fs1 _ _ f Hwf Hf Er) |].
    split; [by intros [? | ?] |].
    intros h Hh. apply (rename_sibling_frame fs fs1 _ _ f h); [done | done | done | done].
  - eexists _, fs. split; [reflexivity |]. split; [done |].
    split; [by intros [? | ?] | done].
Qed.

Lemma move_each_mixed (fs0 : state) (filenames : list string)
    (acc : list move_result) (fs : state) :
  Forall valid_name filenames → wf fs →
  (∀ h, exists_in fs0 (NodePath.join [sourceDir; h]) = false
        ∨ exists_in fs0 (NodePath.join [destDir; h]) = true →
        valid_name h →
        fs !! (NodePath.segments sourceDir ++ [h])
        = fs0 !! (NodePath.segments sourceDir ++ [h])
        ∧ fs !! (NodePath.segments destDir ++ [h])
          = fs0 !! (NodePath.segments destDir ++ [h])) →
  ∃ rs fs',
    move_each sourceDir destDir filenames acc fs = (Ok (acc ++ rs), fs')
    ∧ (∀ h, exists_in fs0 (NodePath.join [sourceDir; h]) = false
            ∨ exists_in fs0 (NodePath.join [destDir; h]) = true →
            valid_name h →
            fs' !! (NodePath.segments sourceDir ++ [h])
            = fs0 !! (NodePath.segments sourceDir ++ [h])
            ∧ fs' !! (NodePath.segments destDir ++ [h])
              = fs0 !! (NodePath.segments destDir ++ [h]))
    ∧ (∀ i f, filenames !! i = Some f →
         exists_in fs0 (NodePath.join [sourceDir; f]) = false
         ∨ exists_in fs0 (NodePath.join [destDir; f]) = true →
         rs !! i = Some {| mr_filename := f; mr_status := "error";
                           mr_message :=
                             if exists_in fs0 (NodePath.join [sourceDir; f])
                             then "File already exists in destination"
                             else "Source file not found" |}).
Proof.
  intros Hv. revert acc fs. induction Hv as [|f l Hf Hl IH]; intros acc fs Hwf Hinv.
  - exists [], fs. rewrite app_nil_r. split; [done |]. split; [done |].
    intros i f Hi. done.
  - assert (Hsame : ∀ h, valid_name h →
      exists_in fs0 (NodePath.join [sourceDir; h]) = false
      ∨ exists_in fs0 (NodePath.join [destDir; h]) = true →
      exists_in fs (NodePath.join [sourceDir; h])
      = exists_in fs0 (NodePath.join [sourceDir; h])
      ∧ exists_in fs (NodePath.join [destDir; h])
        = exists_in fs0 (NodePath.join [destDir; h])).
    { intros h Hh Hb. destruct (Hinv h Hb Hh) as [E1 E2].
      unfold exists_in. rewrite !segments_join_name by done. by rewrite E1, E2. }
    destruct (move_one_step f fs Hf Hwf) as (r & fs1 & E & Hwf1 & Hblocked & Hframe).
    destruct (IH (acc ++ [r]) fs1 Hwf1) as (rs & fs' & E' & Hinv' & Hrs).
    { intros h Hb Hh. destruct (decide (h = f)) as [-> | Hne].
      - destruct (Hsame f Hh Hb) as [E1 E2].
        destruct Hblocked as [_ ->]; [by rewrite E1, E2 |]. by apply Hinv.
      - destruct (Hframe h Hne) as [-> ->]. by apply Hinv. }
    exists (r :: rs), fs'. split; [| split; [done |]].
    + simpl. unfold mbind, io_bind at 1. rewrite E, E', <- app_assoc. done.
    + intros [|i] g Hi Hb.
      * simpl in Hi. injection Hi as <-.
        destruct (Hsame f Hf Hb) as [E1 E2].
        destruct Hblocked as [-> _]; [by rewrite E1, E2 |].
        simpl. by rewrite E1.
      * simpl in Hi. simpl. by apply Hrs.
Qed.

End Mixed.

(** C9, as the code has it.  The bulk move answers 200 "Files move
      operation completed" whenever the path check passes and the server
    and the destination directory exist, with one result per file name,
    in order.  A file whose source is absent or whose destination exists
    is not moved: its result has status [error] and the message "Source
      file not found" or "File already exists in destination", and what
    is at its source and at its destination stays as it was, also when
    other files of the same request are moved; when every file is such,
    the filesystem is unchanged. *)
Theorem bulk_move_reports_per_file
    (sess : session) (serverName destinationPath : string)
    (currentPath : option string) (fs : state) :
  logged_in sess = true →
  passes_check dirname serverName (targetDir dirname serverName currentPath) = true →
  passes_check dirname serverName (destDir dirname serverName destinationPath) = true →
  exists_in fs (serverPath dirname serverName) = true →
  exists_in fs (destDir dirname serverName destinationPath) = true →
  (∀ filenames, ∃ results fs',
     post_server_move_multiple dirname sess serverName filenames destinationPath
       currentPath fs
     = (json (JMoveResults "Files move operation completed" results), fs')
     ∧ mr_filename <$> results = filenames) ∧
  (∀ filenames,
     Forall (λ f,
       exists_in fs (bulkSource dirname serverName currentPath f) = false
       ∨ exists_in fs (destFilePath dirname serverName destinationPath f) = true)
       filenames →
     post_server_move_multiple dirname sess serverName filenames destinationPath
       currentPath fs
     = (json (JMoveResults "Files move operation completed"
                (blocked_result dirname fs serverName currentPath <$> filenames)), fs)) ∧
  (NodePath.isAbsolute dirname = true → wf fs →
   ∀ filenames, Forall valid_name filenames →
     ∃ results fs',
       post_server_move_multiple dirname sess serverName filenames destinationPath
         currentPath fs
       = (json (JMoveResults "Files move operation completed" results), fs')
       ∧ mr_filename <$> results = filenames
       ∧ ∀ i f, filenames !! i = Some f →
           exists_in fs (bulkSource dirname serverName currentPath f) = false
           ∨ exists_in fs (destFilePath dirname serverName destinationPath f) = true →
           results !! i = Some (blocked_result dirname fs serverName currentPath f)
           ∧ fs' !! NodePath.segments (bulkSource dirname serverName currentPath f)
             = fs !! NodePath.segments (bulkSource dirname serverName currentPath f)
           ∧ fs' !! NodePath.segments
                      (destFilePath dirname serverName destinationPath f)
             = fs !! NodePath.segments
                       (destFilePath dirname serverName destinationPath f)).
Proof.
  intros Hsess Hs Hd Hserver Hdir.
  assert (Hrun : ∀ filenames,
    post_server_move_multiple dirname sess serverName filenames destinationPath
      currentPath fs
    = run_try
        (results ← move_each (targetDir dirname serverName currentPath)
                      (destDir dirname serverName destinationPath) filenames [];
         mret (json (JMoveResults "Files move operation completed" results)))
        (error 500 "Failed to move files") fs).
  { intros filenames.
    unfold passes_check, targetDir, destDir, serverPath, serverPathOf in *.
    unfold post_server_move_multiple, api, isAuthenticated. rewrite Hsess. cbv zeta.
    rewrite Hs, Hd. branch.
    rewrite run_try_bind_existsSync, Hserver. branch.
    rewrite run_try_bind_existsSync, Hdir. branch. done. }
  split; [| split].
  - intros filenames. rewrite Hrun.
    destruct (move_each_total (targetDir dirname serverName currentPath)
                (destDir dirname serverName destinationPath) filenames [] fs)
      as (rs & fs' & E & Hrs).
    exists rs, fs'. unfold run_try, mbind, io_bind. rewrite E. done.
  - intros filenames H. rewrite Hrun.
    unfold run_try, mbind, io_bind.
    rewrite (move_each_blocked serverName currentPath destinationPath filenames [] fs H).
    done.
  - intros Habs Hwf filenames Hv. rewrite Hrun.
    assert (Hsp : NodePath.isAbsolute (serverPath dirname serverName) = true).
    { unfold serverPath, serverPathOf, serversDir. apply join_abs. by apply join_abs. }
    assert (Hsa : NodePath.isAbsolute (targetDir dirname serverName currentPath) = true).
    { unfold targetDir. by apply join_abs. }
    assert (Hda : NodePath.isAbsolute (destDir dirname serverName destinationPath) = true).
    { unfold destDir. by apply join_abs. }
    destruct (move_each_mixed _ _ Hsa Hda fs filenames [] fs Hv Hwf)
      as (rs & fs' & E & Hinv & Hrs); [done |].
    destruct (move_each_total (targetDir dirname serverName currentPath)
                (destDir dirname serverName destinationPath) filenames [] fs)
      as (rs' & fs'' & E' & Hnames).
    assert (rs' = rs) as -> by (rewrite E in E'; simpl in E'; congruence).
    exists rs, fs'. unfold run_try, mbind, io_bind. rewrite E.
    split; [done |]. split; [done |].
    intros i f Hi Hb.
    assert (Hf : valid_name f).
    { rewrite Forall_lookup in Hv. by apply (Hv i). }
    split; [by apply Hrs |].
    unfold bulkSource, destFilePath. rewrite !segments_join_name by done.
    by apply Hinv.
Qed.

End ClaimC9.

(** C9 as stated fails: [a.txt] already exists in [sub] and there is no
    [zz], yet the bulk move answers 200, not 400 or 404. *)
Lemma bulk_move_conflict_is_200 :
  let r := Server.post_server_move_multiple Sample.dirname Sample.admin "s1"
             ["a.txt"; "zz"] "sub" None Sample.disk in
  Io.exists_in Sample.disk (Paths.destFilePath Sample.dirname "s1" "sub" "a.txt") = true ∧
  Io.exists_in Sample.disk (Paths.bulkSource Sample.dirname "s1" None "zz") = false ∧
  Http.code r.1 = 200 ∧ Http.code r.1 ≠ 400 ∧ Http.code r.1 ≠ 404.
Proof. vm_compute. repeat split; discriminate. Qed.

(** On the sample disk, [b.txt], [a.txt] and [zz] of [s1] into [sub]:
    [b.txt] is moved; [a.txt] is there already and [zz] does not exist,
    which is what their results say, and the [a.txt] in [sub] stays. *)
Lemma bulk_move_reports_per_file_witness :
  ∃ results fs',
    Server.post_server_move_multiple Sample.dirname Sample.admin "s1"
      ["b.txt"; "a.txt"; "zz"] "sub" None Sample.disk
    = (Http.json (Http.JMoveResults "Files move operation completed" results), fs')
    ∧ results !! 0 = Some {| Http.mr_filename := "b.txt"; Http.mr_status := "success";
                             Http.mr_message := "File moved successfully" |}
    ∧ results !! 1 = Some {| Http.mr_filename := "a.txt"; Http.mr_status := "error";
                             Http.mr_message := "File already exists in destination" |}
    ∧ results !! 2 = Some {| Http.mr_filename := "zz"; Http.mr_status := "error";
                             Http.mr_message := "Source file not found" |}
    ∧ fs' !! ["opt"; "mm"; "servers"; "s1"; "sub"; "a.txt"] = Some (Fs.File "old")
    ∧ fs' !! ["opt"; "mm"; "servers"; "s1"; "a.txt"] = Some (Fs.File "hello").
Proof.
  assert (H1 : Http.logged_in Sample.admin = true) by reflexivity.
  assert (H2 : Paths.passes_check Sample.dirname "s1"
                 (Paths.targetDir Sample.dirname "s1" None) = true)
    by (vm_compute; reflexivity).
  assert (H3 : Paths.passes_check Sample.dirname "s1"
                 (Paths.destDir Sample.dirname "s1" "sub") = true)
    by (vm_compute; reflexivity).
  assert (H4 : Io.exists_in Sample.disk (Paths.serverPath Sample.dirname "s1") = true)
    by (vm_compute; reflexivity).
  assert (H5 : Io.exists_in Sample.disk (Paths.destDir Sample.dirname "s1" "sub") = true)
    by (vm_compute; reflexivity).
  assert (Hwf : Fs.wf Sample.disk).
  { split; [vm_compute; reflexivity |].
    apply (bool_decide_unpack _). vm_compute. reflexivity. }
  assert (Hv : Forall Fs.valid_name ["b.txt"; "a.txt"; "zz"]).
  { repeat constructor; by apply (bool_decide_unpack _). }
  destruct (bulk_move_reports_per_file Sample.dirname Sample.admin "s1" "sub" None
              Sample.disk H1 H2 H3 H4 H5) as (_ & _ & H).
  destruct (H eq_refl Hwf ["b.txt"; "a.txt"; "zz"] Hv) as (results & fs' & E & _ & Hr).
  exists results, fs'. split; [exact E |].
  destruct (Hr 1 "a.txt" eq_refl) as (Ha & Ha1 & Ha2);
    [right; vm_compute; reflexivity |].
  destruct (Hr 2 "zz" eq_refl) as (Hz & _); [left; vm_compute; reflexivity |].
  split.
  { assert (E0 : (Server.post_server_move_multiple Sample.dirname Sample.admin "s1"
                    ["b.txt"; "a.txt"; "zz"] "sub" None Sample.disk).1
                 = Http.json (Http.JMoveResults "Files move operation completed"
                     [ {| Http.mr_filename := "b.txt"; Http.mr_status := "success";
                          Http.mr_message := "File moved successfully" |};
                       {| Http.mr_filename := "a.txt"; Http.mr_status := "error";
                          Http.mr_message := "File already exists in destination" |};
                       {| Http.mr_filename := "zz"; Http.mr_status := "error";
                          Http.mr_message := "Source file not found" |} ]))
      by (vm_compute; reflexivity).
    rewrite E in E0. simpl in E0. injection E0 as ->. reflexivity. }
  split; [rewrite Ha; vm_compute; reflexivity |].
  split; [rewrite Hz; vm_compute; reflexivity |].
  assert (S1 : NodePath.segments (Paths.destFilePath Sample.dirname "s1" "sub" "a.txt")
               = ["opt"; "mm"; "servers"; "s1"; "sub"; "a.txt"])
    by (vm_compute; reflexivity).
  assert (S2 : NodePath.segments (Paths.bulkSource Sample.dirname "s1" None "a.txt")
               = ["opt"; "mm"; "servers"; "s1"; "a.txt"])
    by (vm_compute; reflexivity).
  rewrite S1 in Ha2. rewrite S2 in Ha1. rewrite Ha1, Ha2.
  split; vm_compute; reflexivity.
Defined.

(** ** Process supervision *)

Section ClaimC7.
Import Fs Io Http Server Paths.

Lemma find_app_None {A} (f : A → bool) (l l' : list A) :
  List.find f l = None → List.find f (l ++ l') = List.find f l'.
Proof.
  induction l as [|x l IH]; [done |]. simpl.
  destruct (f x); [done | exact IH].
Qed.

(** C7.  With the manager reachable: a name absent from the process
    list, whose server directory exists, is registered by [start] as one
    new process, appended to the list, named after the server, with the
    server's directory as working directory, and [status] then reports
    [running: true]; a name already in the list, in whatever status,
    makes [start] answer "Server is already running" and leaves the
    manager as it was. *)
Theorem start_registers_once
    (dirname : string) (now now' : Z) (fs : state) (sess : session)
    (s : string) (d : Pm2.daemon) :
  logged_in sess = true →
  Pm2.connect_fails d = false →
  Pm2.list_fails d = false →
  (Pm2.find_by_name s (Pm2.procs d) = None →
   exists_in fs (serverPath dirname s) = true →
   Pm2.start_fails d = false →
   ∃ d',
     post_start dirname now fs sess s d
     = (Responded (json (JMessage "Server started successfully")), d')
     ∧ Pm2.procs d' = Pm2.procs d ++
         [{| Pm2.name := s; Pm2.pm_id := Pm2.next_pm_id d; Pm2.pid := Pm2.next_pid d;
             Pm2.status := "online"; Pm2.pm_uptime := now;
             Pm2.options := Some (start_options_of dirname s) |}]
     ∧ Pm2.o_cwd (start_options_of dirname s) = serverPath dirname s
     ∧ ∃ st, get_status now' sess s d' = (Responded (json (JStatus st)), d')
             ∧ ps_running st = true) ∧
  (∀ p, Pm2.find_by_name s (Pm2.procs d) = Some p →
   post_start dirname now fs sess s d
   = (Responded (json (JMessage "Server is already running")), d)).
Proof.
  intros Hsess Hc Hl. split.
  - intros Hnone Hex Hst.
    unfold serverPath, serverPathOf in Hex.
    unfold post_start, guarded, isAuthenticated. rewrite Hsess, Hc, Hl, Hnone. cbv zeta.
    rewrite Hex. cbn [negb]. unfold Pm2.start. rewrite Hst.
    eexists. split; [reflexivity |]. cbn [Pm2.procs]. split; [reflexivity |].
    split; [reflexivity |].
    unfold get_status, guarded, isAuthenticated. rewrite Hsess.
    cbn [Pm2.connect_fails Pm2.list_fails Pm2.procs]. rewrite Hc, Hl.
    unfold Pm2.find_by_name in *. rewrite find_app_None by done.
    cbn [List.find Pm2.name]. rewrite bool_decide_eq_true_2 by done.
    cbn [Pm2.status]. rewrite bool_decide_eq_true_2 by done.
    eexists. split; reflexivity.
  - intros p Hp.
    unfold post_start, guarded, isAuthenticated. by rewrite Hsess, Hc, Hl, Hp.
Qed.

End ClaimC7.

(** Starting [s1] on the sample disk with an empty process list, and
    starting it again when it is registered but errored. *)
Lemma start_registers_once_witness :
  (∃ d', Server.post_start Sample.dirname 1000 Sample.disk Sample.admin "s1"
           (Sample.daemon_with [])
         = (Http.Responded (Http.json (Http.JMessage "Server started successfully")), d')
         ∧ length (Pm2.procs d') = 1) ∧
  Server.post_start Sample.dirname 1000 Sample.disk Sample.admin "s1"
    (Sample.daemon_with [Sample.errored_s1])
  = (Http.Responded (Http.json (Http.JMessage "Server is already running")),
     Sample.daemon_with [Sample.errored_s1]).
Proof.
  split.
  - destruct (start_registers_once Sample.dirname 1000 2000 Sample.disk Sample.admin "s1"
                (Sample.daemon_with []) eq_refl eq_refl eq_refl) as [H _].
    destruct H as (d' & E & Hp & _); [reflexivity | vm_compute; reflexivity | reflexivity |].
    exists d'. split; [exact E |]. rewrite Hp. reflexivity.
  - destruct (start_registers_once Sample.dirname 1000 2000 Sample.disk Sample.admin "s1"
                (Sample.daemon_with [Sample.errored_s1]) eq_refl eq_refl eq_refl) as [_ H].
    apply (H Sample.errored_s1). reflexivity.
Defined.

Section ClaimC10.
Import Fs Io Http Server Paths.

Lemma command_empty (sess : session) (serverName : string) (command : option string)
    (d : Pm2.daemon) :
  logged_in sess = true → JsString.truthy command = false →
  post_command sess serverName command d
  = (Responded (error 400 "Command is required"), d).
Proof.
  intros Hsess Hc. unfold post_command, guarded, isAuthenticated.
  by rewrite Hsess, Hc.
Qed.

Lemma command_unregistered (sess : session) (serverName : string)
    (command : option string) (d : Pm2.daemon) :
  logged_in sess = true → JsString.truthy command = true →
  Pm2.connect_fails d = false → Pm2.list_fails d = false →
  Pm2.find_by_name serverName (Pm2.procs d) = None →
  post_command sess serverName command d
  = (Responded (error 404 "Server not found or not running"), d).
Proof.
  intros Hsess Hc H1 H2 H3. unfold post_command, guarded, isAuthenticated.
  by rewrite Hsess, Hc, H1, H2, H3.
Qed.

(** The command route never answers with a success: where it would, the
    callback's own [res] parameter is in the way. *)
Lemma command_never_acknowledged (sess : session) (serverName : string)
    (command : option string) (d d' : Pm2.daemon) (r : response) :
  post_command sess serverName command d = (Responded r, d') → code r ≠ 200.
Proof.
  unfold post_command, guarded, isAuthenticated.
  destruct (logged_in sess); [| by intros [= <- _]].
  destruct (JsString.truthy command); cbn [negb]; [| by intros [= <- _]].
  destruct (Pm2.connect_fails d); [by intros [= <- _] |].
  destruct (Pm2.list_fails d); [by intros [= <- _] |].
  destruct (Pm2.find_by_name serverName (Pm2.procs d)); [| by intros [= <- _]].
  destruct (Pm2.sendDataToProcessId _ _ d); cbv zeta; simpl; discriminate.
Qed.

(** C10 at a registered, online [s1] and the command [say hi]: the
    command is forwarded to the process, and then the handler calls
    [json] on the manager's acknowledgement instead of the response; no
    success is reported. *)
Theorem command_forwarded_without_answer :
  let d := Sample.daemon_with [Sample.online_s1] in
  let r := post_command Sample.admin "s1" (Some "say hi") d in
  r.1 = Uncaught "TypeError: res.json is not a function" ∧
  Pm2.delivered r.2 = [(0, "say hi")] ∧
  Pm2.procs r.2 = Pm2.procs d.
Proof. cbv zeta. vm_compute. done. Qed.

End ClaimC10.

(** ** The path check *)

Section ClaimC1.
Import Fs Io Http Server Paths.

(** C1 on the sample disk, for the server [s1] and the relative path
    [../s1-evil]: the path leaves the server's directory, the check
    [startsWith] lets it through, and the routes act on the sibling
    directory: the listing shows its file, the move puts [a.txt] there. *)
Theorem sibling_directory_passes_check :
  let target := targetDir Sample.dirname "s1" (Some "../s1-evil") in
  let listing := get_server_files Sample.dirname Sample.admin "s1"
                   (Some "../s1-evil") Sample.disk in
  let moved := post_server_move Sample.dirname Sample.admin "s1" "a.txt"
                 "../s1-evil" None Sample.disk in
  target = "/opt/mm/servers/s1-evil" ∧
  contained Sample.dirname "s1" target = false ∧
  passes_check Sample.dirname "s1" target = true ∧
  listing.1 = json (JListing "s1" "../s1-evil"
                      [{| fe_name := "secret"; fe_type := Arquivo |}]) ∧
  moved.1 = json (JMessage "File moved successfully") ∧
  moved.2 !! ["opt"; "mm"; "servers"; "s1-evil"; "a.txt"] = Some (File "hello") ∧
  moved.2 !! ["opt"; "mm"; "servers"; "s1"; "a.txt"] = None.
Proof. cbv zeta. vm_compute. done. Qed.

End ClaimC1.

(** ** The global file routes *)

Section ClaimC2.
Import Fs Io Http Server Paths.

Lemma truthy_nonempty (p : string) : p ≠ "" → JsString.truthy (Some p) = true.
Proof. by destruct p. Qed.


End ClaimC2.


(** ** The console *)

Section ClaimC8.
Import Fs Io Http Server Paths More.

Lemma mkdir_p_dirs_above fs (k : key) :
  dirs_above fs k → ¬ is_file (fs !! k) → mkdir_p k fs = Ok (<[k := Dir]> fs).
Proof.
  intros Hd Hk. apply mkdir_p_Ok. split.
  - intros r1 r2 E. destruct r2 as [|x r2].
    + rewrite app_nil_r in E. by subst.
    + rewrite (Hd r1 (x :: r2) E) by done. by intros [c ?].
  - intros q. destruct (decide (q = k)) as [-> | Hne].
    + rewrite lookup_insert_eq. by rewrite decide_True.
    + rewrite lookup_insert_ne by done.
      destruct (decide (q `prefix_of` k)) as [[r E] |]; [| done].
      apply (Hd q r E). intros ->. by rewrite app_nil_r in E.
Qed.

(** The listener keeps the last [n] lines of those seen so far. *)
Lemma on_line_keeps_last (n : nat) (L acc : list string) :
  (length acc ≤ n)%nat →
  fold_left (on_line n) L acc = drop (length (acc ++ L) - n) (acc ++ L).
Proof.
  revert acc. induction L as [|x L IH]; intros acc Hacc.
  - simpl. rewrite app_nil_r.
    replace (length acc - n) with 0 by lia. done.
  - simpl. unfold on_line at 2. rewrite length_app. simpl.
    destruct (n <? length acc + 1)%nat eqn:E.
    + apply Nat.ltb_lt in E. assert (length acc = n) by lia.
      destruct acc as [|a acc0].
      * simpl in *. subst n. rewrite IH by (simpl; lia). simpl.
        rewrite !drop_ge; [done | simpl; lia | lia].
      * simpl in *. rewrite IH by (rewrite length_app; simpl; lia).
        rewrite <- app_assoc. simpl.
        rewrite !length_app. simpl.
        replace (S (length acc0 + S (length L)) - n)
          with (S (length acc0 + S (length L) - n)) by lia.
        done.
    + apply Nat.ltb_ge in E.
      rewrite IH by (rewrite length_app; simpl; lia).
      by rewrite <- app_assoc.
Qed.

Lemma readLastLines_tail (L : list string) :
  fold_left (on_line 100) L [] = drop (length L - 100) L.
Proof. apply (on_line_keeps_last 100 L []). simpl. lia. Qed.

Lemma lines_from_line (cur l rest : string) :
  one_line l = true →
  lines_from false cur (l +:+ String LF rest)
  = (JsString.reverse cur +:+ l) :: lines_from false "" rest.
Proof.
  revert cur. induction l as [|c l IH]; intros cur Hl.
  - rewrite append_nil, append_empty_r. simpl. done.
  - simpl in Hl. apply andb_true_iff in Hl as [Hc Hl].
    apply andb_true_iff in Hc as [H1 H2].
    apply negb_true_iff in H1, H2.
    rewrite append_cons. simpl. rewrite H1, H2. rewrite (IH (String c cur) Hl).
    f_equal. unfold JsString.reverse. simpl.
    rewrite (rev_onto_append (String c "") cur). by rewrite append_assoc.
Qed.





Lemma readline_unlines (ls : list string) :
  Forall (λ l, one_line l = true) ls → readline_lines (unlines ls) = ls.
Proof.
  unfold readline_lines. induction 1 as [|l ls Hl _ IH]; [done |].
  simpl. rewrite (lines_from_line "" l (unlines ls) Hl), IH. done.
Qed.

Variable dirname : string.
Hypothesis Habs : NodePath.isAbsolute dirname = true.

Lemma serverPath_abs (s : string) : NodePath.isAbsolute (serverPath dirname s) = true.
Proof.
  unfold serverPath, serverPathOf, serversDir.
  apply join_abs. by apply join_abs.
Qed.




End ClaimC8.



Example on_line_example :
  fold_left (Server.on_line 2) ["a"; "b"; "c"; "d"] [] = ["c"; "d"].
Proof. reflexivity. Qed.

Example readline_example :
  Server.readline_lines
    ("one" +:+ String Server.LF ("two" +:+ String Server.CR (String Server.LF "three")))
  = ["one"; "two"; "three"].
Proof. reflexivity. Qed.

(** ** The registry *)

Section Registry.
Import Fs Io Http Server Paths.

Variable dirname : string.
Hypothesis Habs : NodePath.isAbsolute dirname = true.

Lemma serversDir_abs : NodePath.isAbsolute (serversDir dirname) = true.
Proof. unfold serversDir. by apply join_abs. Qed.

Lemma segments_serverPath (n : string) :
  valid_name n →
  NodePath.segments (serverPath dirname n)
  = NodePath.segments (serversDir dirname) ++ [n].
Proof.
  intros Hn. unfold serverPath, serverPathOf.
  apply segments_join_name; [apply serversDir_abs | done].
Qed.

Lemma segments_in_server (s x : string) :
  valid_name x →
  NodePath.segments (NodePath.join [serverPath dirname s; x])
  = NodePath.segments (serverPath dirname s) ++ [x].
Proof.
  intros Hx. apply segments_join_name; [by apply serverPath_abs | done].
Qed.

Lemma under_snoc_self (k : key) (x : string) : under (k ++ [x]) k = false.
Proof.
  destruct (under (k ++ [x]) k) eqn:E; [| done].
  apply under_true in E as [r E]. apply (f_equal length) in E.
  rewrite !length_app in E. simpl in E. lia.
Qed.

(** *** Listing *)

Lemma collect_servers_spec fs (l : list string) (acc : list server_entry) :
  (∀ c, c ∈ l → valid_name c
                ∧ is_Some (fs !! (NodePath.segments (serversDir dirname) ++ [c]))) →
  collect_servers dirname l acc fs = (Ok (acc ++ listed dirname fs l), fs).
Proof.
  revert acc. induction l as [|c l IH]; intros acc H.
  - simpl. unfold listed. rewrite filter_nil. simpl. by rewrite app_nil_r.
  - destruct (H c) as [Hc [v Hv]]; [by left |].
    assert (Hl : ∀ c', c' ∈ l → valid_name c'
              ∧ is_Some (fs !! (NodePath.segments (serversDir dirname) ++ [c'])))
      by (intros c' Hc'; apply H; by right).
    simpl. unfold mbind at 1, io_bind at 1, stat_isDirectory.
    rewrite (segments_join_name (serversDir dirname) c serversDir_abs Hc), Hv.
    unfold listed. destruct v as [x|].
    + rewrite filter_cons_False by (rewrite Hv; done).
      by rewrite (IH acc Hl).
    + rewrite filter_cons_True by done.
      rewrite (IH _ Hl). unfold listed. rewrite fmap_cons, <- app_assoc. done.
Qed.

Lemma get_servers_spec (sess : session) fs :
  logged_in sess = true → names_valid fs →
  fs !! NodePath.segments (serversDir dirname) = Some Dir →
  get_servers dirname sess fs
  = (json (JServers
             (listed dirname fs (children fs (NodePath.segments (serversDir dirname))))),
     fs).
Proof.
  intros Hsess Hnames Hsd. unfold get_servers, api, isAuthenticated. rewrite Hsess.
  rewrite run_try_bind_existsSync. unfold exists_in.
  rewrite bool_decide_eq_true_2 by (by rewrite Hsd). cbn [negb].
  unfold run_try. rewrite bind_mret.
  unfold mbind at 1, io_bind at 1, readdir, query, readdir_at. rewrite Hsd.
  unfold mbind at 1, io_bind at 1.
  rewrite collect_servers_spec; [done |].
  intros c Hc. apply elem_of_children in Hc. split; [| done].
  specialize (Hnames _ Hc). apply Forall_app in Hnames as [_ Hn].
  by inversion Hn.
Qed.

Lemma elem_of_listed fs (m : string) :
  m ∈ se_name <$> listed dirname fs (children fs (NodePath.segments (serversDir dirname)))
  ↔ fs !! (NodePath.segments (serversDir dirname) ++ [m]) = Some Dir.
Proof.
  unfold listed. rewrite <- list_fmap_compose.
  rewrite list_elem_of_fmap. split.
  - intros (c & -> & Hc). simpl. by apply list_elem_of_filter in Hc as [? _].
  - intros H. exists m. split; [done |]. apply list_elem_of_filter. split; [done |].
    apply elem_of_children. by rewrite H.
Qed.

Lemma collect_servers_names fs fs' (l : list string) (acc res : list server_entry) :
  collect_servers dirname l acc fs = (Ok res, fs') →
  fs' = fs ∧ ∀ m, m ∈ se_name <$> res → m ∈ se_name <$> acc ∨ m ∈ l.
Proof.
  revert acc. induction l as [|c l IH]; intros acc.
  - simpl. intros [= <- <-]. split; [done |]. by left.
  - simpl. unfold mbind at 1, io_bind at 1, stat_isDirectory.
    destruct (fs !! NodePath.segments (NodePath.join [serversDir dirname; c]))
      as [[x|]|]; [| | done].
    + intros H. apply IH in H as [-> H]. split; [done |].
      intros m Hm. destruct (H m Hm) as [? | ?]; [by left | right; by right].
    + intros H. apply IH in H as [-> H]. split; [done |].
      intros m Hm. destruct (H m Hm) as [Hin | ?]; [| right; by right].
      rewrite fmap_app in Hin. apply elem_of_app in Hin as [? | Hin]; [by left |].
      right. simpl in Hin. apply list_elem_of_singleton in Hin as ->. by left.
Qed.

(** *** Creating *)

Lemma dirs_above_insert_dir fs (q k : key) :
  dirs_above fs k → dirs_above (<[q := Dir]> fs) k.
Proof.
  intros H r1 r2 E Hne. destruct (decide (q = r1)) as [-> |].
  - by rewrite lookup_insert_eq.
  - rewrite lookup_insert_ne by done. by apply (H r1 r2).
Qed.

Lemma mkdir_child fs (p : string) (k : key) (x : string) :
  NodePath.segments p = k ++ [x] →
  fs !! k = Some Dir → dirs_above fs k → ¬ is_file (fs !! (k ++ [x])) →
  mkdir p fs = (Ok (), <[k ++ [x] := Dir]> fs).
Proof.
  intros Hp Hk Hd Hx. unfold mkdir, update. rewrite Hp.
  rewrite mkdir_p_dirs_above; [done | by apply dirs_above_snoc | done].
Qed.

Lemma writeFile_child fs (p content : string) (k : key) (x : string) :
  NodePath.segments p = k ++ [x] →
  fs !! k = Some Dir → fs !! (k ++ [x]) ≠ Some Dir →
  writeFile p content fs = (Ok (), <[k ++ [x] := File content]> fs).
Proof.
  intros Hp Hk Hx. unfold writeFile, update. rewrite Hp.
  rewrite write_at_Ok; [done | apply segments_nonempty_key | | done].
  by rewrite parent_snoc.
Qed.

Ltac other_key :=
  first [ apply snoc_ne; discriminate
        | apply snoc_ne_self
        | apply not_eq_sym, snoc_ne_self ].

Ltac through := repeat (rewrite lookup_insert_ne by other_key).

(** [POST /api/servers] runs to its end when nothing is in its way. *)
Lemma post_servers_runs (now : string) (sess : session) (n : string) fs :
  logged_in sess = true →
  let sp := NodePath.segments (serverPath dirname n) in
  dirs_above fs sp → ¬ is_file (fs !! sp) →
  ¬ is_file (fs !! (sp ++ ["plugins"])) →
  ¬ is_file (fs !! (sp ++ ["logs"])) →
  ¬ is_file (fs !! (sp ++ ["world"])) →
  fs !! (sp ++ ["server.properties"]) ≠ Some Dir →
  fs !! (sp ++ ["config.yml"]) ≠ Some Dir →
  fs !! (sp ++ ["bukkit.yml"]) ≠ Some Dir →
  post_servers dirname now sess n fs
  = (json (JMessage "Server created successfully"), seeded now n sp fs).
Proof.
  intros Hsess sp Hd Hsp Hp Hl Hw Hf1 Hf2 Hf3.
  unfold post_servers, api, isAuthenticated. rewrite Hsess. cbv zeta.
  change (NodePath.join [serversDir dirname; n]) with (serverPath dirname n).
  set (f1 := <[sp := Dir]> fs).
  assert (E1 : mkdir (serverPath dirname n) fs = (Ok (), f1)).
  { unfold mkdir, update. fold sp. by rewrite mkdir_p_dirs_above. }
  assert (Hd1 : dirs_above f1 sp) by (by apply dirs_above_insert_dir).
  assert (H1 : f1 !! sp = Some Dir) by (unfold f1; by rewrite lookup_insert_eq).
  set (f2 := <[sp ++ ["plugins"] := Dir]> f1).
  assert (E2 : mkdir (NodePath.join [serverPath dirname n; "plugins"]) f1 = (Ok (), f2)).
  { apply mkdir_child; [| done | done |].
    - apply segments_in_server. by apply (bool_decide_unpack _).
    - unfold f1. by through. }
  assert (Hd2 : dirs_above f2 sp) by (by apply dirs_above_insert_dir).
  assert (H2 : f2 !! sp = Some Dir) by (unfold f2; by through).
  set (f3 := <[sp ++ ["logs"] := Dir]> f2).
  assert (E3 : mkdir (NodePath.join [serverPath dirname n; "logs"]) f2 = (Ok (), f3)).
  { apply mkdir_child; [| done | done |].
    - apply segments_in_server. by apply (bool_decide_unpack _).
    - unfold f2, f1. by through. }
  assert (Hd3 : dirs_above f3 sp) by (by apply dirs_above_insert_dir).
  assert (H3 : f3 !! sp = Some Dir) by (unfold f3; by through).
  set (f4 := <[sp ++ ["world"] := Dir]> f3).
  assert (E4 : mkdir (NodePath.join [serverPath dirname n; "world"]) f3 = (Ok (), f4)).
  { apply mkdir_child; [| done | done |].
    - apply segments_in_server. by apply (bool_decide_unpack _).
    - unfold f3, f2, f1. by through. }
  assert (H4 : f4 !! sp = Some Dir) by (unfold f4; by through).
  set (f5 := <[sp ++ ["server.properties"] := File (serverProperties now)]> f4).
  assert (E5 : writeFile (NodePath.join [serverPath dirname n; "server.properties"])
                 (serverProperties now) f4 = (Ok (), f5)).
  { apply writeFile_child; [| done |].
    - apply segments_in_server. by apply (bool_decide_unpack _).
    - unfold f4, f3, f2, f1. by through. }
  assert (H5 : f5 !! sp = Some Dir) by (unfold f5; by through).
  set (f6 := <[sp ++ ["config.yml"] := File (configYml n)]> f5).
  assert (E6 : writeFile (NodePath.join [serverPath dirname n; "config.yml"])
                 (configYml n) f5 = (Ok (), f6)).
  { apply writeFile_child; [| done |].
    - apply segments_in_server. by apply (bool_decide_unpack _).
    - unfold f5, f4, f3, f2, f1. by through. }
  assert (H6 : f6 !! sp = Some Dir) by (unfold f6; by through).
  assert (E7 : writeFile (NodePath.join [serverPath dirname n; "bukkit.yml"])
                 bukkitYml f6 = (Ok (), seeded now n sp fs)).
  { apply writeFile_child; [| done |].
    - apply segments_in_server. by apply (bool_decide_unpack _).
    - unfold f6, f5, f4, f3, f2, f1. by through. }
  rewrite (run_try_bind_Ok _ _ _ _ _ _ E1), (run_try_bind_Ok _ _ _ _ _ _ E2),
    (run_try_bind_Ok _ _ _ _ _ _ E3), (run_try_bind_Ok _ _ _ _ _ _ E4),
    (run_try_bind_Ok _ _ _ _ _ _ E5), (run_try_bind_Ok _ _ _ _ _ _ E6),
    (run_try_bind_Ok _ _ _ _ _ _ E7).
  done.
Qed.

End Registry.

Section ClaimC3.
Import Fs Io Http Server Paths.

Lemma lookup_seeded_other (now n : string) (sp : key) fs (q : key) :
  q ≠ sp →
  (∀ x, x ∈ ["plugins"; "logs"; "world"; "server.properties"; "config.yml"; "bukkit.yml"]
        → q ≠ sp ++ [x]) →
  seeded now n sp fs !! q = fs !! q.
Proof.
  intros Hq H. unfold seeded.
  rewrite !lookup_insert_ne; [done | by apply not_eq_sym | ..];
    apply not_eq_sym, H; set_solver.
Qed.

(** C3, as the code has it.  Creating an instance whose directory
    already exists is no conflict: the recursive [mkdir] accepts the
    existing directories and the route answers "Server created
      successfully".  The three seed files are written anew with their
    default content, the three standard directories are there
    afterwards, and every other entry is left as it was.  (This is for
    an instance in which none of [plugins], [logs], [world] is a regular
    file and none of the seed files a directory.) *)
Theorem create_on_existing_reseeds
    (dirname : string) (now : string) (sess : session) (n : string) (fs : state) :
  NodePath.isAbsolute dirname = true →
  logged_in sess = true → wf fs →
  let sp := NodePath.segments (serverPath dirname n) in
  fs !! sp = Some Dir →
  ¬ is_file (fs !! (sp ++ ["plugins"])) →
  ¬ is_file (fs !! (sp ++ ["logs"])) →
  ¬ is_file (fs !! (sp ++ ["world"])) →
  fs !! (sp ++ ["server.properties"]) ≠ Some Dir →
  fs !! (sp ++ ["config.yml"]) ≠ Some Dir →
  fs !! (sp ++ ["bukkit.yml"]) ≠ Some Dir →
  ∃ fs',
    post_servers dirname now sess n fs
    = (json (JMessage "Server created successfully"), fs')
    ∧ fs' !! (sp ++ ["server.properties"]) = Some (File (serverProperties now))
    ∧ fs' !! (sp ++ ["config.yml"]) = Some (File (configYml n))
    ∧ fs' !! (sp ++ ["bukkit.yml"]) = Some (File bukkitYml)
    ∧ (∀ x, x ∈ ["plugins"; "logs"; "world"] → fs' !! (sp ++ [x]) = Some Dir)
    ∧ (∀ q, (∀ x, x ∈ ["plugins"; "logs"; "world"; "server.properties";
                       "config.yml"; "bukkit.yml"] → q ≠ sp ++ [x]) →
            fs' !! q = fs !! q).
Proof.
  intros Habs Hsess Hwf sp. subst sp.
  set (sp := NodePath.segments (serverPath dirname n)).
  intros Hsp Hp Hl Hw Hf1 Hf2 Hf3.
  exists (seeded now n sp fs). split.
  - apply (post_servers_runs dirname Habs now sess n fs Hsess); fold sp; try done.
    + apply wf_dirs_above; [done | by rewrite Hsp].
    + rewrite Hsp. by intros [c ?].
  - unfold seeded. split; [| split; [| split; [| split]]].
    + rewrite lookup_insert_ne by (apply snoc_ne; discriminate).
      rewrite lookup_insert_ne by (apply snoc_ne; discriminate).
      by rewrite lookup_insert_eq.
    + rewrite lookup_insert_ne by (apply snoc_ne; discriminate).
      by rewrite lookup_insert_eq.
    + by rewrite lookup_insert_eq.
    + intros x Hx.
      repeat (apply elem_of_cons in Hx as [-> | Hx]);
        [.. | by apply elem_of_nil in Hx];
        repeat (rewrite lookup_insert_ne by (apply snoc_ne; discriminate));
        by rewrite lookup_insert_eq.
    + intros q Hq. destruct (decide (q = sp)) as [-> | Hne].
      * repeat (rewrite lookup_insert_ne by apply snoc_ne_self).
        by rewrite lookup_insert_eq.
      * by apply (lookup_seeded_other now n sp fs q).
Qed.

End ClaimC3.

(** C3 as stated fails: [s1] exists on the sample disk, with a
    [config.yml] of its own; creating [s1] again is answered with a
    success, and the file has been replaced. *)
Lemma create_on_existing_is_no_conflict :
  let r := Server.post_servers Sample.dirname "Mon Nov 02 2026" Sample.admin "s1"
             Sample.disk in
  Sample.disk !! ["opt"; "mm"; "servers"; "s1"] = Some Fs.Dir ∧
  r.1 = Http.json (Http.JMessage "Server created successfully") ∧
  Sample.disk !! ["opt"; "mm"; "servers"; "s1"; "config.yml"]
    = Some (Fs.File "motd: tuned by hand") ∧
  r.2 !! ["opt"; "mm"; "servers"; "s1"; "config.yml"]
    = Some (Fs.File (Server.configYml "s1")).
Proof. cbv zeta. vm_compute. done. Qed.

Lemma create_on_existing_reseeds_witness :
  (Server.post_servers Sample.dirname "Mon Nov 02 2026" Sample.admin "s1" Sample.disk).1
  = Http.json (Http.JMessage "Server created successfully").
Proof.
  assert (Habs : NodePath.isAbsolute Sample.dirname = true) by reflexivity.
  assert (Hsess : Http.logged_in Sample.admin = true) by reflexivity.
  assert (Hwf : Fs.wf Sample.disk).
  { split; [vm_compute; reflexivity |].
    apply (bool_decide_unpack _). vm_compute. reflexivity. }
  assert (Hsp : NodePath.segments (Paths.serverPath Sample.dirname "s1")
                = ["opt"; "mm"; "servers"; "s1"]) by (vm_compute; reflexivity).
  pose proof (create_on_existing_reseeds Sample.dirname "Mon Nov 02 2026" Sample.admin
                "s1" Sample.disk Habs Hsess Hwf) as H.
  cbv zeta in H. rewrite Hsp in H.
  destruct H as (fs' & E & _).
  - vm_compute. reflexivity.
  - intros [c Hc]. vm_compute in Hc. discriminate Hc.
  - intros [c Hc]. vm_compute in Hc. discriminate Hc.
  - intros [c Hc]. vm_compute in Hc. discriminate Hc.
  - intros Hc. vm_compute in Hc. discriminate Hc.
  - intros Hc. vm_compute in Hc. discriminate Hc.
  - intros Hc. vm_compute in Hc. discriminate Hc.
  - rewrite E. reflexivity.
Defined.

Section ClaimC6.
Import Fs Io Http Server Paths.

Lemma grows_refl fs : grows fs fs.
Proof. by split. Qed.

Lemma grows_trans fs1 fs2 fs3 : grows fs1 fs2 → grows fs2 fs3 → grows fs1 fs3.
Proof. intros [H1 H2] [H3 H4]. split; auto. Qed.

Lemma mkdir_grows (p : string) fs fs' :
  mkdir p fs = (Ok (), fs') →
  grows fs fs' ∧ ∀ q, q `prefix_of` NodePath.segments p → fs' !! q = Some Dir.
Proof.
  unfold mkdir, update.
  destruct (mkdir_p (NodePath.segments p) fs) as [fs1|e] eqn:E; [| done].
  intros [= <-]. apply mkdir_p_Ok in E as [_ Hl]. split; [split |].
  - intros Hn q Hq. rewrite Hl in Hq.
    destruct (decide (q `prefix_of` NodePath.segments p)) as [[r Hr] |]; [| by apply Hn].
    pose proof (segments_valid p) as Hv. rewrite Hr in Hv.
    by apply Forall_app in Hv as [? _].
  - intros k Hk. rewrite Hl.
    by destruct (decide (k `prefix_of` NodePath.segments p)).
  - intros q Hq. rewrite Hl. by rewrite decide_True.
Qed.

Lemma writeFile_grows (p content : string) fs fs' :
  writeFile p content fs = (Ok (), fs') → grows fs fs'.
Proof.
  unfold writeFile, update, write_at.
  destruct (NodePath.segments p) as [|x k] eqn:Ek; [done |].
  destruct (fs !! parent (x :: k)) as [[c|]|]; [done | | done].
  destruct (fs !! (x :: k)) as [[c|]|] eqn:E; [| done |].
  - intros [= <-]. split.
    + intros Hn q Hq. destruct (decide (q = x :: k)) as [-> |].
      * rewrite <- Ek. apply segments_valid.
      * rewrite lookup_insert_ne in Hq by done. by apply Hn.
    + intros q Hq. destruct (decide (q = x :: k)) as [-> |]; [congruence |].
      by rewrite lookup_insert_ne.
  - intros [= <-]. split.
    + intros Hn q Hq. destruct (decide (q = x :: k)) as [-> |].
      * rewrite <- Ek. apply segments_valid.
      * rewrite lookup_insert_ne in Hq by done. by apply Hn.
    + intros q Hq. destruct (decide (q = x :: k)) as [-> |]; [congruence |].
      by rewrite lookup_insert_ne.
Qed.

Variable dirname : string.
Hypothesis Habs : NodePath.isAbsolute dirname = true.

(** What a successful [POST /api/servers] leaves behind. *)
Lemma post_servers_success (now : string) (sess : session) (n : string)
    fs (r : response) fs' :
  valid_name n →
  post_servers dirname now sess n fs = (r, fs') → code r = 200 →
  grows fs fs'
  ∧ fs' !! NodePath.segments (serversDir dirname) = Some Dir
  ∧ fs' !! (NodePath.segments (serversDir dirname) ++ [n]) = Some Dir.
Proof.
  intros Hn. unfold post_servers, api, isAuthenticated.
  destruct (logged_in sess); [| by intros [= <- _]].
  cbv zeta. change (NodePath.join [serversDir dirname; n]) with (serverPath dirname n).
  unfold run_try.
  unfold mbind at 1, io_bind at 1.
  destruct (mkdir (serverPath dirname n) fs) as [[[]|e] f1] eqn:E1;
    [| by intros [= <- _]].
  unfold mbind at 1, io_bind at 1.
  destruct (mkdir _ f1) as [[[]|e] f2] eqn:E2; [| by intros [= <- _]].
  unfold mbind at 1, io_bind at 1.
  destruct (mkdir _ f2) as [[[]|e] f3] eqn:E3; [| by intros [= <- _]].
  unfold mbind at 1, io_bind at 1.
  destruct (mkdir _ f3) as [[[]|e] f4] eqn:E4; [| by intros [= <- _]].
  unfold mbind at 1, io_bind at 1.
  destruct (writeFile _ _ f4) as [[[]|e] f5] eqn:E5; [| by intros [= <- _]].
  unfold mbind at 1, io_bind at 1.
  destruct (writeFile _ _ f5) as [[[]|e] f6] eqn:E6; [| by intros [= <- _]].
  unfold mbind at 1, io_bind at 1.
  destruct (writeFile _ _ f6) as [[[]|e] f7] eqn:E7; [| by intros [= <- _]].
  intros [= <- <-] _.
  apply mkdir_grows in E1 as [G1 P1]. apply mkdir_grows in E2 as [G2 _].
  apply mkdir_grows in E3 as [G3 _]. apply mkdir_grows in E4 as [G4 _].
  apply writeFile_grows in E5. apply writeFile_grows in E6.
  apply writeFile_grows in E7.
  assert (G : grows f1 f7) by eauto 10 using grows_trans.
  rewrite (segments_serverPath dirname Habs n Hn) in P1.
  split; [by eapply grows_trans |]. destruct G as [_ G]. split; apply G, P1.
  - by exists [n].
  - done.
Qed.

(** [DELETE /api/servers/:serverName], for a proper name. *)
Lemma delete_server_proper (sess : session) (n : string) fs :
  logged_in sess = true → valid_name n →
  delete_server dirname sess n fs
  = if exists_in fs (serverPath dirname n)
    then (json (JMessage "Server deleted successfully"),
          rm_rf (NodePath.segments (serversDir dirname) ++ [n]) fs)
    else (error 404 "Server not found", fs).
Proof.
  intros Hsess Hn. unfold delete_server, api, isAuthenticated. rewrite Hsess. cbv zeta.
  change (NodePath.join [serversDir dirname; n]) with (serverPath dirname n).
  assert (Hchk : JsString.startsWith (serverPath dirname n) (serversDir dirname) = true).
  { unfold serverPath, serverPathOf, serversDir.
    apply child_passes_check; [done | by apply (bool_decide_unpack _) | done]. }
  rewrite Hchk. cbn [negb]. rewrite run_try_bind_existsSync.
  destruct (exists_in fs (serverPath dirname n)); cbn [negb]; [| done].
  unfold run_try, mbind, io_bind, rm_recursive_force.
  by rewrite (segments_serverPath dirname Habs n Hn).
Qed.

(** C6.  For a proper server name [n]: after a successful create the
    list contains [n]; after a delete no list contains [n], and when the
    instance was there the delete succeeds and the list can be taken.
    The list is computed from the filesystem alone, at each request: it
    holds exactly the names of the directories in the servers
    directory. *)
Theorem registry_list_follows_directory (sess : session) (n : string) (fs : state) :
  logged_in sess = true → valid_name n → wf fs →
  let sd := NodePath.segments (serversDir dirname) in
  (∀ now r fs',
     post_servers dirname now sess n fs = (r, fs') → code r = 200 →
     ∃ l, get_servers dirname sess fs' = (json (JServers l), fs')
          ∧ n ∈ se_name <$> l) ∧
  (∀ r fs',
     delete_server dirname sess n fs = (r, fs') →
     (∀ l fs'', get_servers dirname sess fs' = (json (JServers l), fs'') →
                n ∉ se_name <$> l) ∧
     (is_Some (fs !! (sd ++ [n])) →
      r = json (JMessage "Server deleted successfully")
      ∧ ∃ l, get_servers dirname sess fs' = (json (JServers l), fs'))) ∧
  (∀ fs0, wf fs0 → fs0 !! sd = Some Dir →
     ∃ l, get_servers dirname sess fs0 = (json (JServers l), fs0)
          ∧ ∀ m, m ∈ se_name <$> l ↔ fs0 !! (sd ++ [m]) = Some Dir).
Proof.
  intros Hsess Hn Hwf sd. split; [| split].
  - intros now r fs' Hrun Hcode.
    destruct (post_servers_success now sess n fs r fs' Hn Hrun Hcode)
      as ([Hnames _] & Hsd & Hsn).
    rewrite (get_servers_spec dirname Habs sess fs' Hsess)
      by (done || by apply Hnames, wf_names_valid).
    eexists. split; [done |]. by apply elem_of_listed.
  - intros r fs'. rewrite (delete_server_proper sess n fs Hsess Hn).
    unfold exists_in. rewrite (segments_serverPath dirname Habs n Hn). fold sd.
    intros Hdel.
    assert (Hgone : fs' !! (sd ++ [n]) = None).
    { destruct (fs !! (sd ++ [n])) as [v|] eqn:E.
      - rewrite bool_decide_eq_true_2 in Hdel by done. injection Hdel as <- <-.
        by rewrite lookup_rm_rf, under_refl.
      - rewrite bool_decide_eq_false_2 in Hdel by (by intros [? ?]).
        by injection Hdel as <- <-. }
    split.
    + intros l fs'' Hlist Hin.
      unfold get_servers, api, isAuthenticated in Hlist. rewrite Hsess in Hlist.
      rewrite run_try_bind_existsSync in Hlist. unfold run_try in Hlist.
      unfold mbind at 1, io_bind at 1 in Hlist.
      destruct ((if negb (exists_in fs' (serversDir dirname))
                 then mkdir (serversDir dirname) else mret ()) fs')
        as [[[]|e] f1] eqn:E1; [| done].
      assert (Hf1 : f1 !! (sd ++ [n]) = None).
      { destruct (exists_in fs' (serversDir dirname)); cbn [negb] in E1.
        - by injection E1 as <-.
        - unfold mkdir, update in E1. fold sd in E1.
          destruct (mkdir_p sd fs') as [f|e] eqn:E; [| done].
          injection E1 as ->. apply mkdir_p_Ok in E as [_ Hl]. rewrite Hl.
          destruct (decide ((sd ++ [n]) `prefix_of` sd)) as [[tl Hr] |]; [| done].
          apply (f_equal length) in Hr. rewrite !length_app in Hr. simpl in Hr. lia. }
      unfold mbind at 1, io_bind at 1, readdir, query, readdir_at in Hlist.
      fold sd in Hlist.
      destruct (f1 !! sd) as [[c|]|]; [done | | done].
      unfold mbind at 1, io_bind at 1 in Hlist.
      destruct (collect_servers dirname (children f1 sd) [] f1)
        as [[res|e] f2] eqn:E2; [| done].
      injection Hlist as <- <-.
      apply collect_servers_names in E2 as [_ Hres].
      destruct (Hres n Hin) as [Hnil | Hch].
      * by apply elem_of_nil in Hnil.
      * apply elem_of_children in Hch. rewrite Hf1 in Hch. by destruct Hch.
    + intros Hex. rewrite bool_decide_eq_true_2 in Hdel by done.
      injection Hdel as <- <-. split; [done |].
      rewrite (get_servers_spec dirname Habs sess _ Hsess).
      * by eexists.
      * intros q Hq. rewrite lookup_rm_rf in Hq.
        destruct (under (sd ++ [n]) q); [by destruct Hq |].
        by apply (wf_names_valid fs Hwf).
      * fold sd. rewrite lookup_rm_rf, under_snoc_self.
        by apply (wf_parent fs sd n Hwf).
  - intros fs0 Hwf0 Hsd.
    rewrite (get_servers_spec dirname Habs sess fs0 Hsess)
      by (done || by apply wf_names_valid).
    eexists. split; [done |]. intros m. apply elem_of_listed.
Qed.

End ClaimC6.

(** On the sample disk: creating [s2] puts it on the list, and after
    deleting [s1] the list is without it. *)
Lemma registry_list_follows_directory_witness :
  (∃ l, Server.get_servers Sample.dirname Sample.admin
          (Server.post_servers Sample.dirname "Mon Nov 02 2026" Sample.admin "s2"
             Sample.disk).2
        = (Http.json (Http.JServers l),
           (Server.post_servers Sample.dirname "Mon Nov 02 2026" Sample.admin "s2"
              Sample.disk).2)
        ∧ "s2" ∈ Http.se_name <$> l) ∧
  (∃ l, Server.get_servers Sample.dirname Sample.admin
          (Server.delete_server Sample.dirname Sample.admin "s1" Sample.disk).2
        = (Http.json (Http.JServers l),
           (Server.delete_server Sample.dirname Sample.admin "s1" Sample.disk).2)
        ∧ "s1" ∉ Http.se_name <$> l).
Proof.
  assert (Habs : NodePath.isAbsolute Sample.dirname = true) by reflexivity.
  assert (Hsess : Http.logged_in Sample.admin = true) by reflexivity.
  assert (Hwf : Fs.wf Sample.disk).
  { split; [vm_compute; reflexivity |].
    apply (bool_decide_unpack _). vm_compute. reflexivity. }
  split.
  - assert (Hn : Fs.valid_name "s2") by (by apply (bool_decide_unpack _)).
    destruct (registry_list_follows_directory Sample.dirname Habs Sample.admin "s2"
                Sample.disk Hsess Hn Hwf) as [H _].
    apply (H "Mon Nov 02 2026"
             (Server.post_servers Sample.dirname "Mon Nov 02 2026" Sample.admin "s2"
                Sample.disk).1).
    + apply surjective_pairing.
    + vm_compute. reflexivity.
  - assert (Hn : Fs.valid_name "s1") by (by apply (bool_decide_unpack _)).
    destruct (registry_list_follows_directory Sample.dirname Habs Sample.admin "s1"
                Sample.disk Hsess Hn Hwf) as (_ & H & _).
    destruct (H (Server.delete_server Sample.dirname Sample.admin "s1" Sample.disk).1
                (Server.delete_server Sample.dirname Sample.admin "s1" Sample.disk).2)
      as [Hnot Hex]; [apply surjective_pairing |].
    destruct Hex as [_ [l Hl]]; [vm_compute; eauto |].
    exists l. split; [exact Hl |]. by apply (Hnot l _ Hl).
Defined.

(** ** The shape of the hole in the check *)

Section SiblingEscape.
Import Fs Io Http Server Paths.

Lemma append_eq_self (n x : string) : n +:+ x = n → x = "".
Proof.
  induction n as [|c n IH]; [done |].
  rewrite append_cons. intros [= E]. by apply IH.
Qed.

(** Joining any relative path onto an absolute one: the result in full,
    when it is not the root and the relative path has no trailing
    separator. *)
Lemma join_normal (a rel : string) :
  NodePath.isAbsolute a = true → rel ≠ "" →
  NodePath.trailingSlash rel = false →
  NodePath.resolve_from (NodePath.segments a) rel ≠ [] →
  NodePath.join [a; rel]
  = "/" +:+ NodePath.join_slash (NodePath.resolve_from (NodePath.segments a) rel).
Proof.
  intros Ha Hrel Htr Hne.
  rewrite join_unfold by done. rewrite filter_cons_True by done. rewrite filter_nil.
  change (NodePath.join_slash [a; rel]) with (a +:+ String NodePath.slash rel).
  assert (Habs : NodePath.isAbsolute (a +:+ String NodePath.slash rel) = true).
  { destruct (isAbsolute_cons a Ha) as [r ->]. done. }
  rewrite normalize_abs by done.
  assert (Hseg : NodePath.segments (a +:+ String NodePath.slash rel)
                 = NodePath.resolve_from (NodePath.segments a) rel).
  { unfold NodePath.segments, NodePath.resolve_from, NodePath.normalizeSegs.
    by rewrite split_slash_app, fold_left_app, rev_involutive. }
  rewrite Hseg.
  rewrite trailingSlash_append by done.
  change (String NodePath.slash rel) with (String NodePath.slash "" +:+ rel).
  rewrite trailingSlash_append by done. rewrite Htr.
  destruct (NodePath.resolve_from (NodePath.segments a) rel) as [|x l]; [done |].
  by rewrite append_empty_r.
Qed.

Variable dirname : string.
Hypothesis Habs : NodePath.isAbsolute dirname = true.

(** Whenever a server [n] has a sibling whose name merely continues
    [n], the relative path [../] followed by that name leaves the server's
    directory and passes the handlers' check all the same. *)
Lemma sibling_prefix_escapes (n x : string) :
  valid_name n → valid_name (n +:+ x) → x ≠ "" →
  let target := targetDir dirname n (Some ("../" +:+ n +:+ x)) in
  NodePath.segments target
  = NodePath.segments (serversDir dirname) ++ [n +:+ x]
  ∧ contained dirname n target = false
  ∧ passes_check dirname n target = true.
Proof.
  intros Hn Hnx Hx. cbv zeta.
  set (sd := NodePath.segments (serversDir dirname)).
  assert (Hsd : sd ≠ []).
  { unfold sd, serversDir. rewrite segments_join_name;
      [by destruct (NodePath.segments dirname) | done | by apply (bool_decide_unpack _)]. }
  assert (Hres : NodePath.resolve_from (NodePath.segments (serverPath dirname n))
                   ("../" +:+ n +:+ x) = sd ++ [n +:+ x]).
  { rewrite (segments_serverPath dirname Habs n Hn). fold sd.
    unfold NodePath.resolve_from.
    change ("../" +:+ n +:+ x) with (".." +:+ String NodePath.slash (n +:+ x)).
    rewrite split_slash_app. rewrite (valid_name_no_slash _ Hnx).
    rewrite rev_app_distr. simpl.
    destruct Hn as (_ & _ & Hdd & _).
    unfold NodePath.norm_step at 2.
    destruct (decide (".." = "" ∨ ".." = ".")) as [[?|?]|_]; [done | done |].
    destruct (decide (".." = "..")) as [_|]; [| done].
    destruct (decide (n = "..")); [done |].
    rewrite norm_step_valid by done. simpl. by rewrite rev_involutive. }
  assert (Htarget : targetDir dirname n (Some ("../" +:+ n +:+ x))
                    = "/" +:+ NodePath.join_slash (sd ++ [n +:+ x])).
  { unfold targetDir. cbn [JsString.or_empty].
    rewrite join_normal; [by rewrite Hres | by apply serverPath_abs | done | |].
    - change ("../" +:+ n +:+ x) with ("../" +:+ (n +:+ x)).
      rewrite trailingSlash_append by (by destruct Hnx).
      destruct Hnx as (Hne & _ & _ & Hns). by apply no_slash_no_trailing.
    - rewrite Hres. by destruct sd. }
  assert (Hsegs : NodePath.segments (targetDir dirname n (Some ("../" +:+ n +:+ x)))
                  = sd ++ [n +:+ x]).
  { unfold targetDir. cbn [JsString.or_empty].
    rewrite segments_join by (by apply serverPath_abs). simpl. exact Hres. }
  split; [exact Hsegs | split].
  - unfold contained. rewrite Hsegs.
    rewrite (segments_serverPath dirname Habs n Hn). fold sd.
    destruct (under (sd ++ [n]) (sd ++ [n +:+ x])) eqn:E; [| done].
    apply under_true in E as [r E]. rewrite <- app_assoc in E.
    apply app_inv_head in E. simpl in E. injection E as E _.
    by apply append_eq_self in E.
  - unfold passes_check, JsString.startsWith. rewrite Htarget.
    unfold serverPath, serverPathOf.
    rewrite (join_name_normal (serversDir dirname) n (serversDir_abs dirname Habs) Hn).
    fold sd. rewrite !join_slash_snoc by done.
    replace ("/" +:+ NodePath.join_slash sd +:+ "/" +:+ n +:+ x)
      with (("/" +:+ NodePath.join_slash sd +:+ "/" +:+ n) +:+ x)
      by (by rewrite !append_assoc).
    apply prefix_append.
Qed.

End SiblingEscape.

(** * Further properties *)

(** ** The session check *)

Section SessionCheck.
Import Fs Io Http Server More.

(** X1.  Without a logged-in session no API route runs: each answers 401
    "Unauthorized" and leaves the filesystem, or the process manager, as
    it was. *)
Theorem no_session_no_action
    (dirname cwd now : string) (t : Z) (depth : nat)
    (zip_entries : string → option (list (key * node)))
    (sess : session) (a b c : string) (o o' : option string)
    (names : list string) (ups : option (list upload))
    (fs : state) (d : Pm2.daemon) :
  logged_in sess = false →
  let no := (error 401 "Unauthorized", fs) in
  let no_pm := (Responded (error 401 "Unauthorized"), d) in
  get_servers dirname sess fs = no ∧
  post_servers dirname now sess a fs = no ∧
  delete_server dirname sess a fs = no ∧
  get_file_content sess o fs = no ∧
  post_file_content sess o a fs = no ∧
  delete_files sess o fs = no ∧
  post_extract zip_entries sess o o' fs = no ∧
  post_directories sess o fs = no ∧
  get_files sess o fs = (Json (error 401 "Unauthorized"), fs) ∧
  get_server_files dirname sess a o fs = no ∧
  get_server_file dirname sess a b o fs = no ∧
  post_server_file dirname sess a b o c fs = no ∧
  delete_server_file dirname sess a b o fs = no ∧
  post_server_directories dirname sess a b o fs = no ∧
  post_server_upload dirname cwd sess a ups o fs
  = (Json (error 401 "Unauthorized"), fs) ∧
  post_upload dirname cwd sess ups o fs = (Json (error 401 "Unauthorized"), fs) ∧
  post_server_extract dirname zip_entries sess a b o fs = no ∧
  post_server_move dirname sess a b c o fs = no ∧
  post_server_move_multiple dirname sess a names c o fs = no ∧
  post_server_copy dirname depth sess a b c o fs = no ∧
  post_server_rename dirname sess a b c o fs = no ∧
  get_console dirname sess a fs = (Responded (error 401 "Unauthorized"), fs) ∧
  get_status t sess a d = no_pm ∧
  post_start dirname t fs sess a d = no_pm ∧
  post_stop sess a d = no_pm ∧
  post_restart t sess a d = no_pm ∧
  post_command sess a o d = no_pm.
Proof.
  intros H. cbv zeta.
  unfold get_servers, post_servers, delete_server, get_file_content, post_file_content,
    delete_files, post_extract, post_directories, get_files, get_server_files,
    get_server_file, post_server_file, delete_server_file, post_server_directories,
    post_server_upload, post_upload, post_server_extract, post_server_move,
    post_server_move_multiple, post_server_copy, post_server_rename, get_console,
    get_status, post_start, post_stop, post_restart, post_command,
    api, guarded, isAuthenticated.
  rewrite H. repeat split.
Qed.

End SessionCheck.

(** An anonymous request to delete the sample server [s1]. *)
Lemma no_session_no_action_witness :
  Http.logged_in Sample.anonymous = false ∧
  Server.delete_server Sample.dirname Sample.anonymous "s1" Sample.disk
  = (Http.error 401 "Unauthorized", Sample.disk).
Proof.
  assert (H : Http.logged_in Sample.anonymous = false) by reflexivity.
  split; [exact H |].
  pose proof (no_session_no_action Sample.dirname "/opt/mm" "" 0 0 Sample.no_archive
                Sample.anonymous "s1" "" "" None None [] None Sample.disk
                (Sample.daemon_with []) H) as G.
  cbv zeta in G. apply G.
Defined.

(** ** Logging in and out *)

Section LoginFacts.
Import Http More.

Variable bcrypt_compare : string → string → option bool.

(** X2.  A login succeeds exactly when the query finds a user of that
    name and the password verifies against the stored hash; then the
    session carries that user's id and name, and with a non-zero id it
    passes [isAuthenticated].  A query that fails is answered 500 "Server
    error", any other login 401, and both leave the session as it was.
    After a logout the session does not pass, unless the session could
    not be destroyed: that is answered 500 "Error logging out" and the
    session stays. *)
Theorem login_opens_the_gate
    (db_fails : bool) (users : list user) (username password_given : string)
    (sess : session) :
  let r := post_login bcrypt_compare db_fails users username password_given sess in
  (db_fails = true → r = (Sent 500 "Server error", sess)) ∧
  (db_fails = false →
   ∀ u, db_get users username = Some u →
        bcrypt_compare password_given (password u) = Some true →
        r = (Redirect "/", {| userId := Some (id u); username := Some username |})
        ∧ (id u ≠ 0%Z → logged_in r.2 = true)) ∧
  (db_fails = false →
   (∀ u, db_get users username = Some u →
         bcrypt_compare password_given (password u) ≠ Some true) →
   r = (Sent 401 "Invalid credentials", sess)) ∧
  (get_logout false r.2 = (Redirect "/login", {| userId := None; username := None |})
   ∧ logged_in (get_logout false r.2).2 = false) ∧
  get_logout true r.2 = (Sent 500 "Error logging out", r.2).
Proof.
  cbv zeta. unfold post_login. split; [| split; [| split; [| split]]].
  - by intros ->.
  - intros -> u Hu Hc. rewrite Hu, Hc.
    assert (Hn : uname u = username).
    { unfold db_get in Hu. apply find_some in Hu as [_ Hu].
      by apply bool_decide_eq_true in Hu. }
    rewrite Hn. split; [done |]. intros Hid. unfold logged_in. cbn [userId snd].
    by apply negb_true_iff, Z.eqb_neq.
  - intros -> H. destruct (db_get users username) as [u|]; [| done].
    specialize (H u eq_refl).
    by destruct (bcrypt_compare password_given (password u)) as [[|]|].
  - done.
  - done.
Qed.

End LoginFacts.

(** ** Status, stop and restart *)

Section Pm2Facts.
Import Fs Io Http Server More.

(** X3.  The status route only looks: whatever it answers, the process
    manager is as before; and with the manager reachable a name that is
    not registered is reported as not running, status "stopped", never as
    an error. *)
Theorem status_only_looks (now : Z) (sess : session) (s : string) (d : Pm2.daemon) :
  (get_status now sess s d).2 = d ∧
  (logged_in sess = true → Pm2.connect_fails d = false → Pm2.list_fails d = false →
   Pm2.find_by_name s (Pm2.procs d) = None →
   (get_status now sess s d).1
   = Responded (json (JStatus {| ps_running := false; ps_status := "stopped";
                                 ps_pid := None; ps_uptime := None |}))).
Proof.
  unfold get_status, guarded, isAuthenticated. split.
  - destruct (logged_in sess); [| done].
    destruct (Pm2.connect_fails d); [done |].
    destruct (Pm2.list_fails d); [done |].
    by destruct (Pm2.find_by_name s (Pm2.procs d)).
  - intros -> -> -> ->. done.
Qed.

End Pm2Facts.

(** The stored user [admin] logs in with the right and with a wrong
    password (a toy hash: the password behind the prefix [h:]), and
    while the database fails. *)
Lemma login_opens_the_gate_witness :
  let verify := λ given hash : string, Some (bool_decide (hash = "h:" +:+ given)) in
  let users := [ {| More.id := 1; More.uname := "admin"; More.password := "h:admin123" |} ] in
  Http.logged_in
    (More.post_login verify false users "admin" "admin123" Sample.anonymous).2 = true ∧
  More.post_login verify false users "admin" "guess" Sample.anonymous
  = (More.Sent 401 "Invalid credentials", Sample.anonymous) ∧
  More.post_login verify true users "admin" "admin123" Sample.anonymous
  = (More.Sent 500 "Server error", Sample.anonymous).
Proof.
  cbv zeta.
  pose proof (login_opens_the_gate
                (λ given hash : string, Some (bool_decide (hash = "h:" +:+ given))))
    as H.
  split; [| split].
  - destruct (H false
                [ {| More.id := 1; More.uname := "admin"; More.password := "h:admin123" |} ]
                "admin" "admin123" Sample.anonymous) as (_ & H1 & _).
    destruct (H1 eq_refl
                {| More.id := 1; More.uname := "admin"; More.password := "h:admin123" |}
                eq_refl eq_refl) as [_ H2].
    apply H2. discriminate.
  - destruct (H false
                [ {| More.id := 1; More.uname := "admin"; More.password := "h:admin123" |} ]
                "admin" "guess" Sample.anonymous) as (_ & _ & H1 & _).
    apply H1; [reflexivity |]. intros u Hu. injection Hu as <-. discriminate.
  - destruct (H true
                [ {| More.id := 1; More.uname := "admin"; More.password := "h:admin123" |} ]
                "admin" "admin123" Sample.anonymous) as (H1 & _).
    by apply H1.
Defined.

Lemma status_only_looks_witness :
  (Server.get_status 0 Sample.admin "s2" (Sample.daemon_with [Sample.online_s1])).1
  = Http.Responded (Http.json (Http.JStatus
      {| Http.ps_running := false; Http.ps_status := "stopped";
         Http.ps_pid := None; Http.ps_uptime := None |})).
Proof.
  destruct (status_only_looks 0 Sample.admin "s2" (Sample.daemon_with [Sample.online_s1]))
    as [_ H].
  apply H; reflexivity.
Defined.

(** ** The console, again *)

Section ConsoleFacts.
Import Fs Io Http Server More.

Lemma on_line_bounded (n : nat) (L : list string) :
  (length (fold_left (on_line n) L []) ≤ n)%nat.
Proof.
  rewrite (on_line_keeps_last n L []) by (simpl; lia).
  simpl. rewrite length_drop. lia.
Qed.

(** X6.  Whatever the state of the filesystem, a console answer never
    carries more than 100 lines. *)
Theorem console_at_most_100_lines
    (dirname : string) (sess : session) (s : string) (fs fs' : state)
    (lines : list string) :
  get_console dirname sess s fs = (Responded (json (JLogs lines)), fs') →
  (length lines ≤ 100)%nat.
Proof.
  unfold get_console, guarded, isAuthenticated.
  destruct (logged_in sess); [| by intros [= ?]]. cbv zeta.
  rewrite bind_existsSync.
  destruct (exists_in fs _); cbn [negb]; [| by intros [= ?]].
  rewrite bind_existsSync.
  unfold mbind at 1, io_bind at 1.
  destruct ((if negb (exists_in fs _) then mkdir _ else mret ()) fs)
    as [[[]|e] f1]; [| by intros [= ?]].
  rewrite bind_existsSync.
  unfold mbind at 1, io_bind at 1.
  destruct ((if negb (exists_in f1 _) then writeFile _ "" else mret ()) f1)
    as [[[]|e] f2]; [| by intros [= ?]].
  unfold mbind at 1, io_bind at 1, try_io, readLastLines.
  unfold mbind at 1, io_bind at 1, readFile, query.
  destruct (read_at _ f2) as [c|e].
  - cbn [mret io_ret]. intros [= <- _]. apply on_line_bounded.
  - intros [= <- _]. simpl. lia.
Qed.

(** X7.  A log written one line at a time is read back as its last 100
    lines, oldest first: empty lines are kept, and the line end after the
    last line adds no line. *)
Theorem readLastLines_of_written_log (file : string) (ls : list string) (fs : state) :
  Forall (λ l, one_line l = true) ls →
  fs !! NodePath.segments file = Some (File (unlines ls)) →
  readLastLines file 100 fs = (Ok (drop (length ls - 100) ls), fs).
Proof.
  intros Hls Hf. unfold readLastLines, mbind, io_bind, readFile, query, read_at.
  rewrite Hf. cbn [mret io_ret].
  by rewrite (readline_unlines ls Hls), readLastLines_tail.
Qed.

End ConsoleFacts.

Lemma console_at_most_100_lines_witness :
  ∃ lines fs',
    Server.get_console Sample.dirname Sample.admin "s1" Sample.disk
    = (Http.Responded (Http.json (Http.JLogs lines)), fs')
    ∧ (length lines ≤ 100)%nat.
Proof.
  assert (E : (Server.get_console Sample.dirname Sample.admin "s1" Sample.disk).1
              = Http.Responded (Http.json (Http.JLogs []))) by (vm_compute; reflexivity).
  exists [], (Server.get_console Sample.dirname Sample.admin "s1" Sample.disk).2.
  assert (E' : Server.get_console Sample.dirname Sample.admin "s1" Sample.disk
               = (Http.Responded (Http.json (Http.JLogs [])),
                  (Server.get_console Sample.dirname Sample.admin "s1" Sample.disk).2)).
  { rewrite <- E. apply surjective_pairing. }
  split; [exact E' |].
  exact (console_at_most_100_lines Sample.dirname Sample.admin "s1" Sample.disk _ [] E').
Defined.

Lemma readLastLines_of_written_log_witness :
  Server.readLastLines "/log" 100
    ({[ ["log"] := Fs.File (More.unlines ["starting"; ""; "done"]) ]} : Fs.state)
  = (Fs.Ok ["starting"; ""; "done"],
     ({[ ["log"] := Fs.File (More.unlines ["starting"; ""; "done"]) ]} : Fs.state)).
Proof.
  apply (readLastLines_of_written_log "/log" ["starting"; ""; "done"]).
  - repeat constructor.
  - apply lookup_singleton_eq.
Defined.

(** ** Files and directories of a server *)

Section FileRoutes.
Import Fs Io Http Server Paths More.

Variable dirname : string.
Hypothesis Habs : NodePath.isAbsolute dirname = true.

Lemma targetDir_abs (s : string) (path : option string) :
  NodePath.isAbsolute (targetDir dirname s path) = true.
Proof. unfold targetDir. apply join_abs. by apply serverPath_abs. Qed.

Lemma segments_filePath (s : string) (path : option string) (f : string) :
  valid_name f →
  NodePath.segments (filePath dirname s path f)
  = NodePath.segments (targetDir dirname s path) ++ [f].
Proof.
  intros Hf. unfold filePath. apply segments_join_name; [apply targetDir_abs | done].
Qed.

Lemma exists_in_insert fs (k : key) (v : node) (p : string) :
  exists_in fs p = true → exists_in (<[k := v]> fs) p = true.
Proof.
  unfold exists_in. intros H. apply bool_decide_eq_true in H.
  apply bool_decide_eq_true.
  destruct (decide (k = NodePath.segments p)) as [-> |].
  - by rewrite lookup_insert_eq.
  - by rewrite lookup_insert_ne.
Qed.

Variable sess : session.
Hypothesis Hsess : logged_in sess = true.

Ltac enter route :=
  unfold route, api, isAuthenticated; rewrite Hsess; cbv zeta;
  change (NodePath.join [serversDir dirname; ?s]) with (serverPath dirname s);
  change (NodePath.join [serverPath dirname ?s; JsString.or_empty ?p])
    with (targetDir dirname s p);
  change (NodePath.join [targetDir dirname ?s ?p; ?f]) with (filePath dirname s p f).

(** X8.  Saving a file in an existing directory of a server and reading it
    back gives the saved content: the save writes exactly that one entry,
    new or replaced, and the read returns it. *)
Theorem save_then_read (s f : string) (path : option string) (content : string)
    (fs : state) :
  valid_name f →
  passes_check dirname s (filePath dirname s path f) = true →
  exists_in fs (serverPath dirname s) = true →
  let dir := NodePath.segments (targetDir dirname s path) in
  fs !! dir = Some Dir →
  fs !! (dir ++ [f]) ≠ Some Dir →
  post_server_file dirname sess s f path content fs
  = (json (JMessage "File saved successfully"), <[dir ++ [f] := File content]> fs)
  ∧ get_server_file dirname sess s f path (<[dir ++ [f] := File content]> fs)
    = (json (JContent content), <[dir ++ [f] := File content]> fs).
Proof.
  intros Hf Hchk Hsrv dir Hdir Hnd. unfold passes_check, JsString.startsWith in Hchk.
  split.
  - enter post_server_file. unfold JsString.startsWith. rewrite Hchk. cbn [negb].
    rewrite run_try_bind_existsSync, Hsrv. cbn [negb].
    erewrite run_try_bind_Ok; [done |].
    apply writeFile_child; [by apply segments_filePath | done | done].
  - enter get_server_file. unfold JsString.startsWith. rewrite Hchk. cbn [negb].
    rewrite run_try_bind_existsSync, (exists_in_insert _ _ _ _ Hsrv). cbn [negb].
    rewrite run_try_bind_existsSync. unfold exists_in at 1.
    rewrite (segments_filePath s path f Hf). fold dir. rewrite lookup_insert_eq.
    rewrite bool_decide_eq_true_2 by done. cbn [negb].
    unfold run_try, mbind, io_bind, readFile, query, read_at.
    rewrite (segments_filePath s path f Hf). fold dir. by rewrite lookup_insert_eq.
Qed.

(** X9.  A save does not create the directory it writes into: when that
    directory is missing, or is a regular file, the save is answered 500
    "Failed to save file" and nothing is written. *)
Theorem save_needs_its_directory (s f : string) (path : option string)
    (content : string) (fs : state) :
  valid_name f →
  passes_check dirname s (filePath dirname s path f) = true →
  exists_in fs (serverPath dirname s) = true →
  fs !! NodePath.segments (targetDir dirname s path) ≠ Some Dir →
  post_server_file dirname sess s f path content fs
  = (error 500 "Failed to save file", fs).
Proof.
  intros Hf Hchk Hsrv Hdir. unfold passes_check, JsString.startsWith in Hchk.
  enter post_server_file. unfold JsString.startsWith. rewrite Hchk. cbn [negb].
  rewrite run_try_bind_existsSync, Hsrv. cbn [negb].
  unfold run_try, mbind, io_bind, writeFile, update, write_at.
  rewrite (segments_filePath s path f Hf).
  set (dir := NodePath.segments (targetDir dirname s path)) in *.
  destruct (dir ++ [f]) as [|x k] eqn:E; [by destruct dir |].
  rewrite <- E, parent_snoc.
  by destruct (fs !! dir) as [[c|]|].
Qed.

(** X10.  Reading never changes the filesystem, and reading a directory
    is answered 500 "Failed to read file". *)
Theorem read_only_looks (s f : string) (path : option string) (fs : state)
    (anyone : session) :
  (get_server_file dirname anyone s f path fs).2 = fs ∧
  (valid_name f →
   passes_check dirname s (filePath dirname s path f) = true →
   exists_in fs (serverPath dirname s) = true →
   fs !! (NodePath.segments (targetDir dirname s path) ++ [f]) = Some Dir →
   get_server_file dirname sess s f path fs = (error 500 "Failed to read file", fs)).
Proof.
  split.
  - unfold get_server_file, api, isAuthenticated.
    destruct (logged_in anyone); [| done]. cbv zeta.
    destruct (JsString.startsWith _ _); cbn [negb]; [| done].
    rewrite run_try_bind_existsSync. destruct (exists_in fs _); cbn [negb]; [| done].
    rewrite run_try_bind_existsSync. destruct (exists_in fs _); cbn [negb]; [| done].
    unfold run_try, mbind, io_bind, readFile, query.
    by destruct (read_at _ fs).
  - intros Hf Hchk Hsrv Hd. unfold passes_check, JsString.startsWith in Hchk.
    enter get_server_file. unfold JsString.startsWith. rewrite Hchk. cbn [negb].
    rewrite run_try_bind_existsSync, Hsrv. cbn [negb].
    rewrite run_try_bind_existsSync. unfold exists_in at 1.
    rewrite (segments_filePath s path f Hf), Hd.
    rewrite bool_decide_eq_true_2 by done. cbn [negb].
    unfold run_try, mbind, io_bind, readFile, query, read_at.
    by rewrite (segments_filePath s path f Hf), Hd.
Qed.

(** What a deletion inside a server does. *)
Lemma delete_runs (s f : string) (path : option string) (fs : state) :
  wf fs → valid_name f →
  passes_check dirname s (filePath dirname s path f) = true →
  exists_in fs (serverPath dirname s) = true →
  let k := NodePath.segments (targetDir dirname s path) ++ [f] in
  is_Some (fs !! k) →
  ∃ fs',
    delete_server_file dirname sess s f path fs
    = (json (JMessage "Item deleted successfully"), fs')
    ∧ ∀ q, fs' !! q = if under k q then None else fs !! q.
Proof.
  intros Hwf Hf Hchk Hsrv k [v Hv]. unfold passes_check, JsString.startsWith in Hchk.
  enter delete_server_file. unfold JsString.startsWith. rewrite Hchk. cbn [negb].
  rewrite run_try_bind_existsSync, Hsrv. cbn [negb].
  rewrite run_try_bind_existsSync. unfold exists_in at 1.
  rewrite (segments_filePath s path f Hf). fold k. rewrite Hv.
  rewrite bool_decide_eq_true_2 by done. cbn [negb].
  unfold run_try, mbind, io_bind, stat_isDirectory.
  rewrite (segments_filePath s path f Hf). fold k. rewrite Hv.
  destruct v as [c|].
  - unfold unlink, update, unlink_at.
    rewrite (segments_filePath s path f Hf). fold k. rewrite Hv.
    eexists. split; [reflexivity |]. intros q.
    destruct (decide (q = k)) as [-> | Hne].
    + by rewrite lookup_delete_eq, under_refl.
    + rewrite lookup_delete_ne by done.
      destruct (under k q) eqn:Hu; [| done].
      by apply (wf_nothing_below_file fs k q c).
  - unfold rm_recursive_force.
    rewrite (segments_filePath s path f Hf). fold k.
    eexists. split; [reflexivity |]. intros q. apply lookup_rm_rf.
Qed.

(** X11.  Deleting an entry of a server removes it and everything below
    it and nothing else; reading it afterwards is answered 404. *)
Theorem delete_then_read (s f : string) (path : option string) (fs : state) :
  wf fs → valid_name f →
  passes_check dirname s (filePath dirname s path f) = true →
  exists_in fs (serverPath dirname s) = true →
  let k := NodePath.segments (targetDir dirname s path) ++ [f] in
  is_Some (fs !! k) →
  ∃ fs',
    delete_server_file dirname sess s f path fs
    = (json (JMessage "Item deleted successfully"), fs')
    ∧ (∀ q, fs' !! q = if under k q then None else fs !! q)
    ∧ code (get_server_file dirname sess s f path fs').1 = 404.
Proof.
  intros Hwf Hf Hchk Hsrv k Hk.
  destruct (delete_runs s f path fs Hwf Hf Hchk Hsrv Hk) as (fs' & Hrun & Hl).
  unfold passes_check, JsString.startsWith in Hchk.
  exists fs'. split; [done |]. split; [done |].
  enter get_server_file. unfold JsString.startsWith. rewrite Hchk. cbn [negb].
  rewrite run_try_bind_existsSync. destruct (exists_in fs' _); cbn [negb]; [| done].
  rewrite run_try_bind_existsSync. unfold exists_in.
  rewrite (segments_filePath s path f Hf). fold k. rewrite Hl, under_refl.
  rewrite bool_decide_eq_false_2 by (by intros [? ?]). done.
Qed.

End FileRoutes.

(** On the sample disk, in the server [s1]. *)
Lemma save_then_read_witness :
  (More.post_server_file Sample.dirname Sample.admin "s1" "c.txt" None "sea" Sample.disk).1
  = Http.json (Http.JMessage "File saved successfully").
Proof.
  assert (Hf : Fs.valid_name "c.txt") by (by apply (bool_decide_unpack _)).
  pose proof (save_then_read Sample.dirname eq_refl Sample.admin eq_refl "s1" "c.txt"
                None "sea" Sample.disk Hf) as H.
  cbv zeta in H. destruct H as [H _].
  - vm_compute. reflexivity.
  - vm_compute. reflexivity.
  - vm_compute. reflexivity.
  - intros E. vm_compute in E. discriminate E.
  - rewrite H. reflexivity.
Defined.

Lemma save_needs_its_directory_witness :
  More.post_server_file Sample.dirname Sample.admin "s1" "c.txt" (Some "nodir") "sea"
    Sample.disk
  = (Http.error 500 "Failed to save file", Sample.disk).
Proof.
  assert (Hf : Fs.valid_name "c.txt") by (by apply (bool_decide_unpack _)).
  apply (save_needs_its_directory Sample.dirname eq_refl Sample.admin eq_refl "s1"
           "c.txt" (Some "nodir") "sea" Sample.disk Hf).
  - vm_compute. reflexivity.
  - vm_compute. reflexivity.
  - intros E. vm_compute in E. discriminate E.
Defined.

Lemma read_only_looks_witness :
  More.get_server_file Sample.dirname Sample.admin "s1" "sub" None Sample.disk
  = (Http.error 500 "Failed to read file", Sample.disk).
Proof.
  assert (Hf : Fs.valid_name "sub") by (by apply (bool_decide_unpack _)).
  destruct (read_only_looks Sample.dirname eq_refl Sample.admin eq_refl "s1" "sub" None
              Sample.disk Sample.admin) as [_ H].
  apply H; [exact Hf | vm_compute; reflexivity ..].
Defined.

Lemma delete_then_read_witness :
  ∃ fs',
    More.delete_server_file Sample.dirname Sample.admin "s1" "sub" None Sample.disk
    = (Http.json (Http.JMessage "Item deleted successfully"), fs')
    ∧ Http.code (More.get_server_file Sample.dirname Sample.admin "s1" "sub" None fs').1
      = 404.
Proof.
  assert (Hf : Fs.valid_name "sub") by (by apply (bool_decide_unpack _)).
  assert (Hwf : Fs.wf Sample.disk).
  { split; [vm_compute; reflexivity |].
    apply (bool_decide_unpack _). vm_compute. reflexivity. }
  pose proof (delete_then_read Sample.dirname eq_refl Sample.admin eq_refl "s1" "sub"
                None Sample.disk Hwf Hf) as H.
  cbv zeta in H. destruct H as (fs' & E & _ & G).
  - vm_compute. reflexivity.
  - vm_compute. reflexivity.
  - vm_compute. eauto.
  - exists fs'. split; [exact E | exact G].
Defined.

(** ** Creating directories *)

Section Mkdir.
Import Fs Io Http Server Paths More.

Lemma mkdir_again (p : string) (fs f1 : state) :
  mkdir p fs = (Ok (), f1) → mkdir p f1 = (Ok (), f1).
Proof.
  unfold mkdir, update.
  destruct (mkdir_p (NodePath.segments p) fs) as [f|e] eqn:E; [| done].
  intros [= <-]. apply mkdir_p_Ok in E as [_ Hl].
  assert (E2 : mkdir_p (NodePath.segments p) f = Ok f).
  { apply mkdir_p_Ok. split.
    - intros r1 r2 Hk [c Hc]. rewrite Hl in Hc.
      rewrite decide_True in Hc by (by exists r2). done.
    - intros q. destruct (decide (q `prefix_of` NodePath.segments p)) as [Hq |]; [| done].
      rewrite Hl. by rewrite decide_True. }
  by rewrite E2.
Qed.

Lemma mkdir_keeps_entries (p q : string) (fs f1 : state) :
  mkdir p fs = (Ok (), f1) → exists_in fs q = true → exists_in f1 q = true.
Proof.
  unfold mkdir, update.
  destruct (mkdir_p (NodePath.segments p) fs) as [f|e] eqn:E; [| done].
  intros [= <-]. apply mkdir_p_Ok in E as [_ Hl].
  unfold exists_in. intros H. apply bool_decide_eq_true in H.
  apply bool_decide_eq_true. rewrite Hl.
  by destruct (decide (NodePath.segments q `prefix_of` NodePath.segments p)).
Qed.

(** X12.  Creating a directory is idempotent, in a server and globally: a
    request that succeeded succeeds again when repeated, and the second
    time changes nothing. *)
Theorem mkdir_is_idempotent
    (dirname : string) (sess : session) (s name : string) (path : option string)
    (fs fs' : state) (r : response) :
  (post_server_directories dirname sess s name path fs = (r, fs') → code r = 200 →
   post_server_directories dirname sess s name path fs' = (r, fs')) ∧
  (post_directories sess path fs = (r, fs') → code r = 200 →
   post_directories sess path fs' = (r, fs')).
Proof.
  split.
  - unfold post_server_directories, api, isAuthenticated.
    destruct (logged_in sess); [| by intros [= <- _]]. cbv zeta.
    destruct (JsString.startsWith _ _); cbn [negb]; [| by intros [= <- _]].
    rewrite !run_try_bind_existsSync.
    destruct (exists_in fs _) eqn:Hsrv; cbn [negb]; [| by intros [= <- _]].
    unfold run_try at 1. unfold mbind at 1, io_bind at 1.
    destruct (mkdir _ fs) as [[[]|e] f1] eqn:E; [| by intros [= <- _]].
    intros [= <- <-] _.
    rewrite (mkdir_keeps_entries _ _ _ _ E Hsrv). cbn [negb].
    unfold run_try, mbind, io_bind. by rewrite (mkdir_again _ _ _ E).
  - unfold post_directories, api, isAuthenticated.
    destruct (logged_in sess); [| by intros [= <- _]].
    destruct (JsString.truthy path); cbn [negb]; [| by intros [= <- _]].
    unfold run_try at 1. unfold mbind at 1, io_bind at 1.
    destruct (mkdir _ fs) as [[[]|e] f1] eqn:E; [| by intros [= <- _]].
    intros [= <- <-] _.
    unfold run_try, mbind, io_bind. by rewrite (mkdir_again _ _ _ E).
Qed.

End Mkdir.

Lemma mkdir_is_idempotent_witness :
  let first := More.post_server_directories Sample.dirname Sample.admin "s1"
                 "maps/nether" None Sample.disk in
  Http.code first.1 = 200 ∧
  More.post_server_directories Sample.dirname Sample.admin "s1" "maps/nether" None first.2
  = first.
Proof.
  cbv zeta.
  assert (E : Http.code (More.post_server_directories Sample.dirname Sample.admin "s1"
                           "maps/nether" None Sample.disk).1 = 200)
    by (vm_compute; reflexivity).
  split; [exact E |].
  destruct (mkdir_is_idempotent Sample.dirname Sample.admin "s1" "maps/nether" None
              Sample.disk
              (More.post_server_directories Sample.dirname Sample.admin "s1"
                 "maps/nether" None Sample.disk).2
              (More.post_server_directories Sample.dirname Sample.admin "s1"
                 "maps/nether" None Sample.disk).1) as [H _].
  rewrite H; [symmetry; apply surjective_pairing | apply surjective_pairing | exact E].
Defined.

(** ** Listings *)

Section Listings.
Import Fs Io Http Server Paths More.

Lemma children_nil fs (d : key) :
  (∀ n, fs !! (d ++ [n]) = None) → children fs d = [].
Proof.
  intros H. apply elem_of_nil_inv. intros n Hn.
  apply elem_of_children in Hn. rewrite H in Hn. by destruct Hn.
Qed.

Lemma collect_files_frame (td : string) (l : list string) (acc : list file_entry)
    fs (out : result (list file_entry)) fs' :
  collect_files td l acc fs = (out, fs') → fs' = fs.
Proof.
  revert acc. induction l as [|c l IH]; intros acc.
  - simpl. by intros [= _ <-].
  - simpl. unfold mbind at 1, io_bind at 1, stat_isDirectory.
    destruct (fs !! _) as [[x|]|]; [apply IH | apply IH | by intros [= _ <-]].
Qed.

Lemma collect_files_spec (td : string) (l : list string) (acc : list file_entry) fs :
  NodePath.isAbsolute td = true →
  (∀ c, c ∈ l → valid_name c ∧ is_Some (fs !! (NodePath.segments td ++ [c]))) →
  collect_files td l acc fs
  = (Ok (acc ++ (entry_of fs (NodePath.segments td) <$> l)), fs).
Proof.
  intros Ha. revert acc. induction l as [|c l IH]; intros acc H.
  - simpl. by rewrite app_nil_r.
  - destruct (H c) as [Hc [v Hv]]; [by left |].
    simpl. unfold mbind at 1, io_bind at 1, stat_isDirectory.
    rewrite (segments_join_name td c Ha Hc), Hv.
    assert (He : entry_of fs (NodePath.segments td) c
                 = {| fe_name := c;
                      fe_type := if (match v with Dir => true | File _ => false end)
                                 then Pasta else Arquivo |}).
    { unfold entry_of. rewrite Hv.
      destruct v; [rewrite bool_decide_eq_false_2 by done
                  | rewrite bool_decide_eq_true_2 by done]; done. }
    rewrite He.
    destruct v; rewrite IH by (intros c' Hc'; apply H; by right);
      by rewrite <- app_assoc.
Qed.

Lemma mkdir_p_succeeds (k : key) fs :
  (∀ r1 r2, k = r1 ++ r2 → ¬ is_file (fs !! r1)) →
  ∃ fs', mkdir_p k fs = Ok fs'
         ∧ ∀ q, fs' !! q = if decide (q `prefix_of` k) then Some Dir else fs !! q.
Proof.
  intros H.
  assert (E : mkdir_p k fs = Ok (mark_dirs (rev (walk_keys [] k)) fs)).
  { apply mkdir_walk_Ok. split; [| done].
    intros q Hq. apply elem_of_walk_keys in Hq as (r1 & r2 & -> & ->). by apply (H r1 r2). }
  eexists. split; [exact E |]. by apply mkdir_p_Ok in E as [_ Hl].
Qed.

Variable dirname : string.
Hypothesis Habs : NodePath.isAbsolute dirname = true.
Variable sess : session.
Hypothesis Hsess : logged_in sess = true.

Ltac enter route :=
  unfold route, api, isAuthenticated; rewrite Hsess; cbv zeta;
  change (NodePath.join [serversDir dirname; ?s]) with (serverPath dirname s);
  change (NodePath.join [serverPath dirname ?s; JsString.or_empty ?p])
    with (targetDir dirname s p).

(** X13.  Listing a directory of a server that does not exist yet creates
    it, with the directories leading to it, and shows it empty; "not
    found" is no answer of a listing.  (No regular file may be in the way
    of the directories.) *)
Theorem listing_creates_missing_directory (s : string) (path : option string)
    (fs : state) :
  wf fs →
  passes_check dirname s (targetDir dirname s path) = true →
  exists_in fs (serverPath dirname s) = true →
  let dir := NodePath.segments (targetDir dirname s path) in
  fs !! dir = None →
  (∀ r1 r2, dir = r1 ++ r2 → ¬ is_file (fs !! r1)) →
  ∃ fs',
    get_server_files dirname sess s path fs
    = (json (JListing s (JsString.or_empty path) []), fs')
    ∧ ∀ q, fs' !! q = if decide (q `prefix_of` dir) then Some Dir else fs !! q.
Proof.
  intros Hwf Hchk Hsrv dir Hnone Hfree.
  unfold passes_check, JsString.startsWith in Hchk.
  destruct (mkdir_p_succeeds dir fs Hfree) as (fs' & Emk & Hl).
  exists fs'. split; [| done].
  enter get_server_files. unfold JsString.startsWith. rewrite Hchk. cbn [negb].
  rewrite run_try_bind_existsSync, Hsrv. cbn [negb].
  rewrite run_try_bind_existsSync. unfold exists_in at 1. fold dir. rewrite Hnone.
  rewrite bool_decide_eq_false_2 by (by intros [? ?]). cbn [negb].
  erewrite run_try_bind_Ok; [| unfold mkdir, update; fold dir; by rewrite Emk].
  assert (Hdir : fs' !! dir = Some Dir) by (by rewrite Hl, decide_True).
  assert (Hch : children fs' dir = []).
  { apply children_nil. intros n. rewrite Hl.
    rewrite decide_False.
    - destruct (fs !! (dir ++ [n])) as [v|] eqn:E; [| done].
      assert (Hp : is_Some (fs !! (dir ++ [n]))) by (by rewrite E).
      pose proof (wf_parent fs dir n Hwf Hp). congruence.
    - intros [r Hr]. apply (f_equal length) in Hr.
      rewrite !length_app in Hr. simpl in Hr. lia. }
  unfold run_try, mbind, io_bind, readdir, query, readdir_at. fold dir.
  rewrite Hdir, Hch. done.
Qed.

(** X14.  The listing of an existing directory of a server shows one
    entry for each thing stored directly in it, as a folder or as a
    file, and changes nothing. *)
Theorem listing_shows_the_directory (s : string) (path : option string) (fs : state) :
  wf fs →
  passes_check dirname s (targetDir dirname s path) = true →
  exists_in fs (serverPath dirname s) = true →
  let dir := NodePath.segments (targetDir dirname s path) in
  fs !! dir = Some Dir →
  ∃ files,
    get_server_files dirname sess s path fs
    = (json (JListing s (JsString.or_empty path) files), fs)
    ∧ files = entry_of fs dir <$> children fs dir
    ∧ ∀ m, m ∈ fe_name <$> files ↔ is_Some (fs !! (dir ++ [m])).
Proof.
  intros Hwf Hchk Hsrv dir Hdir.
  unfold passes_check, JsString.startsWith in Hchk.
  exists (entry_of fs dir <$> children fs dir). split; [| split; [done |]].
  - enter get_server_files. unfold JsString.startsWith. rewrite Hchk. cbn [negb].
    rewrite run_try_bind_existsSync, Hsrv. cbn [negb].
    rewrite run_try_bind_existsSync. unfold exists_in at 1. fold dir. rewrite Hdir.
    rewrite bool_decide_eq_true_2 by done. cbn [negb].
    unfold run_try. rewrite bind_mret.
    unfold mbind at 1, io_bind at 1, readdir, query, readdir_at. fold dir. rewrite Hdir.
    unfold mbind at 1, io_bind at 1.
    rewrite collect_files_spec; [done | by apply targetDir_abs |].
    fold dir. intros c Hc. apply elem_of_children in Hc. split; [| done].
    pose proof (wf_names_valid fs Hwf _ Hc) as Hn.
    apply Forall_app in Hn as [_ Hn]. by inversion Hn.
  - intros m. rewrite <- list_fmap_compose. rewrite list_elem_of_fmap. split.
    + intros (c & -> & Hc). simpl. by apply elem_of_children.
    + intros Hm. exists m. split; [done |]. by apply elem_of_children.
Qed.

(** X15.  The global listing only looks: it never changes the filesystem,
    and for a directory that is not there it answers 404 "Directory not
    found" instead of creating it. *)
Theorem global_listing_only_looks (anyone : session) (path : option string)
    (fs : state) :
  (get_files anyone path fs).2 = fs ∧
  (∀ p, path = Some p → p ≠ "" → exists_in fs p = false →
        get_files sess path fs = (Json (error 404 "Directory not found"), fs)).
Proof.
  split.
  - unfold get_files, isAuthenticated. destruct (logged_in anyone); [| done].
    destruct (JsString.truthy path); cbn [negb]; [| done].
    rewrite run_try_bind_existsSync. destruct (exists_in fs _); cbn [negb]; [| done].
    unfold run_try. unfold mbind at 1, io_bind at 1, readdir, query.
    destruct (readdir_at _ fs) as [files|e]; [| done].
    unfold mbind at 1, io_bind at 1.
    destruct (collect_files _ files [] fs) as [[l|e] f1] eqn:E;
      apply collect_files_frame in E; by subst.
  - intros p -> Hp Hex. unfold get_files, isAuthenticated. rewrite Hsess.
    rewrite (truthy_nonempty p Hp). cbn [negb JsString.or_empty].
    by rewrite run_try_bind_existsSync, Hex.
Qed.

End Listings.

Lemma listing_creates_missing_directory_witness :
  ∃ fs',
    Server.get_server_files Sample.dirname Sample.admin "s1" (Some "maps") Sample.disk
    = (Http.json (Http.JListing "s1" "maps" []), fs')
    ∧ fs' !! ["opt"; "mm"; "servers"; "s1"; "maps"] = Some Fs.Dir.
Proof.
  assert (Hwf : Fs.wf Sample.disk).
  { split; [vm_compute; reflexivity |].
    apply (bool_decide_unpack _). vm_compute. reflexivity. }
  assert (Hd : NodePath.segments (Paths.targetDir Sample.dirname "s1" (Some "maps"))
               = ["opt"; "mm"; "servers"; "s1"; "maps"]) by (vm_compute; reflexivity).
  pose proof (listing_creates_missing_directory Sample.dirname Sample.admin
                eq_refl "s1" (Some "maps") Sample.disk Hwf) as H.
  cbv zeta in H. rewrite Hd in H. destruct H as (fs' & E & Hl).
  - vm_compute. reflexivity.
  - vm_compute. reflexivity.
  - vm_compute. reflexivity.
  - intros r1 r2 Hk [c Hc].
    assert (Hr : r1 `prefix_of` ["opt"; "mm"; "servers"; "s1"; "maps"]) by (by exists r2).
    clear Hk.
    destruct r1 as [|x1 [|x2 [|x3 [|x4 [|x5 [|x6 r1]]]]]];
      destruct Hr as [tl Hr]; simpl in Hr; simplify_eq;
      vm_compute in Hc; discriminate Hc.
  - exists fs'. split; [exact E |]. rewrite Hl. reflexivity.
Defined.

Lemma listing_shows_the_directory_witness :
  ∃ files,
    Server.get_server_files Sample.dirname Sample.admin "s1" (Some "sub") Sample.disk
    = (Http.json (Http.JListing "s1" "sub" files), Sample.disk)
    ∧ "a.txt" ∈ Http.fe_name <$> files.
Proof.
  assert (Hwf : Fs.wf Sample.disk).
  { split; [vm_compute; reflexivity |].
    apply (bool_decide_unpack _). vm_compute. reflexivity. }
  pose proof (listing_shows_the_directory Sample.dirname eq_refl Sample.admin
                eq_refl "s1" (Some "sub") Sample.disk Hwf) as H.
  cbv zeta in H. destruct H as (files & E & _ & Hm).
  - vm_compute. reflexivity.
  - vm_compute. reflexivity.
  - vm_compute. reflexivity.
  - exists files. split; [exact E |]. apply Hm. vm_compute. eauto.
Defined.

Lemma global_listing_only_looks_witness :
  More.get_files Sample.admin (Some "/opt/mm/nowhere") Sample.disk
  = (More.Json (Http.error 404 "Directory not found"), Sample.disk).
Proof.
  destruct (global_listing_only_looks Sample.admin eq_refl Sample.admin
              (Some "/opt/mm/nowhere") Sample.disk) as [_ H].
  apply (H "/opt/mm/nowhere"); [reflexivity | discriminate | vm_compute; reflexivity].
Defined.

(** ** Moving, renaming, uploading and copying *)

Section Moving.
Import Fs Io Http Server Paths More.

Variable dirname : string.
Hypothesis Habs : NodePath.isAbsolute dirname = true.
Variable sess : session.
Hypothesis Hsess : logged_in sess = true.

Lemma destDir_abs (s d : string) : NodePath.isAbsolute (destDir dirname s d) = true.
Proof. unfold destDir. apply join_abs. by apply serverPath_abs. Qed.

Lemma segments_destFilePath (s d f : string) :
  valid_name f →
  NodePath.segments (destFilePath dirname s d f)
  = NodePath.segments (destDir dirname s d) ++ [f].
Proof.
  intros Hf. unfold destFilePath. apply segments_join_name; [apply destDir_abs | done].
Qed.

Ltac enter route :=
  unfold route, api, isAuthenticated; rewrite Hsess; cbv zeta;
  change (NodePath.join [serversDir dirname; ?s]) with (serverPath dirname s);
  change (NodePath.join [serverPath dirname ?s; JsString.or_empty ?p])
    with (targetDir dirname s p);
  change (NodePath.join [targetDir dirname ?s ?p; ?f]) with (filePath dirname s p f).

Ltac look H := rewrite run_try_bind_existsSync, H; cbn [negb orb andb].

(** X16.  A rename inside a server to a name that is free succeeds, for a
    file and for a directory: the entry and everything below it are found
    under the new name, nothing is left under the old one, and every
    other entry stays as it was. *)
Theorem rename_moves_the_entry (s old new : string) (path : option string)
    (fs : state) :
  wf fs → valid_name old → valid_name new →
  passes_check dirname s (filePath dirname s path old) = true →
  passes_check dirname s (filePath dirname s path new) = true →
  exists_in fs (serverPath dirname s) = true →
  let dir := NodePath.segments (targetDir dirname s path) in
  is_Some (fs !! (dir ++ [old])) →
  fs !! (dir ++ [new]) = None →
  ∃ fs',
    post_server_rename dirname sess s old new path fs
    = (json (JMessage "Item renamed successfully"), fs')
    ∧ ∀ q, fs' !! q = match strip_prefix (dir ++ [new]) q with
                      | Some r => fs !! ((dir ++ [old]) ++ r)
                      | None => if under (dir ++ [old]) q then None else fs !! q
                      end.
Proof.
  intros Hwf Ho Hn Hc1 Hc2 Hsrv dir [v Hv] Hnew.
  unfold passes_check, JsString.startsWith in Hc1, Hc2.
  assert (Hon : old ≠ new) by (intros ->; congruence).
  assert (Hne : dir ++ [old] ≠ dir ++ [new]) by (by apply snoc_ne).
  assert (Hp : fs !! dir = Some Dir) by (apply (wf_parent fs dir old Hwf); eauto).
  pose proof (rename_at_Ok (dir ++ [old]) (dir ++ [new]) fs v Hv Hne
                (siblings_not_under dir old new Hon)) as Hr.
  rewrite parent_snoc in Hr. specialize (Hr Hp (or_introl Hnew)).
  eexists. split; [| by apply (rename_at_moves _ _ _ _ Hr)].
  enter post_server_rename. unfold JsString.startsWith. rewrite Hc1, Hc2.
  cbn [negb orb]. look Hsrv.
  rewrite run_try_bind_existsSync. unfold exists_in at 1.
  rewrite (segments_filePath dirname Habs) by done. fold dir.
  rewrite Hv, bool_decide_eq_true_2 by eauto. cbn [negb].
  rewrite run_try_bind_existsSync. unfold exists_in at 1.
  rewrite (segments_filePath dirname Habs) by done. fold dir.
  rewrite Hnew, bool_decide_eq_false_2 by (by intros [? ?]).
  erewrite run_try_bind_Ok; [apply run_try_mret |].
  unfold rename, update. rewrite !(segments_filePath dirname Habs) by done.
  fold dir. by rewrite Hr.
Qed.

Ltac enter_dest :=
  change (NodePath.join [serverPath dirname ?s; ?d]) with (destDir dirname s d);
  change (NodePath.join [destDir dirname ?s ?d; ?f]) with (destFilePath dirname s d f).

(** X17.  Moving a folder into itself or into a folder below it, where
    the destination is a directory of a well-formed filesystem, is
    answered 500 "Failed to move file" and moves nothing. *)
Theorem move_into_itself_fails (s f dest : string) (path : option string)
    (fs : state) :
  wf fs → valid_name f →
  passes_check dirname s (filePath dirname s path f) = true →
  passes_check dirname s (destFilePath dirname s dest f) = true →
  exists_in fs (serverPath dirname s) = true →
  let src := NodePath.segments (targetDir dirname s path) ++ [f] in
  let ddir := NodePath.segments (destDir dirname s dest) in
  is_Some (fs !! src) → fs !! ddir = Some Dir → under src ddir = true →
  fs !! (ddir ++ [f]) = None →
  post_server_move dirname sess s f dest path fs
  = (error 500 "Failed to move file", fs).
Proof.
  intros _ Hf Hc1 Hc2 Hsrv src ddir [v Hv] Hd Hu Hnew.
  unfold passes_check, JsString.startsWith in Hc1, Hc2.
  assert (Hr : rename_at src (ddir ++ [f]) fs = Throw EINVAL).
  { unfold rename_at. rewrite Hv.
    rewrite decide_False by (intros E; rewrite <- E in Hnew; congruence).
    apply under_true in Hu as [r Hr].
    assert (Hu' : under src (ddir ++ [f]) = true).
    { apply under_true. exists (r ++ [f]). by rewrite Hr, <- app_assoc. }
    by rewrite Hu'. }
  enter post_server_move. enter_dest. unfold JsString.startsWith.
  rewrite Hc1, Hc2. cbn [negb orb]. look Hsrv.
  rewrite run_try_bind_existsSync. unfold exists_in at 1.
  rewrite (segments_filePath dirname Habs) by done. fold src.
  rewrite Hv, bool_decide_eq_true_2 by eauto. cbn [negb].
  rewrite run_try_bind_existsSync. unfold exists_in at 1. fold ddir.
  rewrite Hd, bool_decide_eq_true_2 by eauto. cbn [negb].
  rewrite run_try_bind_existsSync. unfold exists_in at 1.
  rewrite segments_destFilePath by done. fold ddir.
  rewrite Hnew, bool_decide_eq_false_2 by (by intros [? ?]).
  unfold run_try, mbind, io_bind, rename, update.
  rewrite (segments_filePath dirname Habs), segments_destFilePath by done.
  fold src ddir. by rewrite Hr.
Qed.

(** What a move inside a server does. *)
Lemma move_runs (s f dest : string) (path : option string)
    (fs : state) :
  valid_name f →
  passes_check dirname s (filePath dirname s path f) = true →
  passes_check dirname s (destFilePath dirname s dest f) = true →
  exists_in fs (serverPath dirname s) = true →
  let src := NodePath.segments (targetDir dirname s path) ++ [f] in
  let ddir := NodePath.segments (destDir dirname s dest) in
  is_Some (fs !! src) → fs !! ddir = Some Dir → under src ddir = false →
  fs !! (ddir ++ [f]) = None →
  ∃ fs',
    post_server_move dirname sess s f dest path fs
    = (json (JMessage "File moved successfully"), fs')
    ∧ ∀ q, fs' !! q = match strip_prefix (ddir ++ [f]) q with
                      | Some r => fs !! (src ++ r)
                      | None => if under src q then None else fs !! q
                      end.
Proof.
  intros Hf Hc1 Hc2 Hsrv src ddir [v Hv] Hd Hu Hnew.
  unfold passes_check, JsString.startsWith in Hc1, Hc2.
  assert (Hne : src ≠ ddir ++ [f]) by (intros E; rewrite <- E in Hnew; congruence).
  assert (Hu' : under src (ddir ++ [f]) = false).
  { destruct (under src (ddir ++ [f])) eqn:E; [| done].
    apply under_into in E as [E | E]; [done | congruence]. }
  pose proof (rename_at_Ok src (ddir ++ [f]) fs v Hv Hne Hu') as Hr.
  rewrite parent_snoc in Hr. specialize (Hr Hd (or_introl Hnew)).
  eexists. split; [| by apply (rename_at_moves _ _ _ _ Hr)].
  enter post_server_move. enter_dest. unfold JsString.startsWith.
  rewrite Hc1, Hc2. cbn [negb orb]. look Hsrv.
  rewrite run_try_bind_existsSync. unfold exists_in at 1.
  rewrite (segments_filePath dirname Habs) by done. fold src.
  rewrite Hv, bool_decide_eq_true_2 by eauto. cbn [negb].
  rewrite run_try_bind_existsSync. unfold exists_in at 1. fold ddir.
  rewrite Hd, bool_decide_eq_true_2 by eauto. cbn [negb].
  rewrite run_try_bind_existsSync. unfold exists_in at 1.
  rewrite segments_destFilePath by done. fold ddir.
  rewrite Hnew, bool_decide_eq_false_2 by (by intros [? ?]).
  erewrite run_try_bind_Ok; [apply run_try_mret |].
  unfold rename, update.
  rewrite (segments_filePath dirname Habs), segments_destFilePath by done.
  fold src ddir. by rewrite Hr.
Qed.

(** X18.  A move inside a server to a folder that has no entry of that
    name succeeds, unless the folder lies in what is moved: the entry and
    everything below it are found in the destination folder, nothing is
    left at the source, and every other entry stays as it was. *)
Theorem move_moves_the_entry (s f dest : string) (path : option string)
    (fs : state) :
  valid_name f →
  passes_check dirname s (filePath dirname s path f) = true →
  passes_check dirname s (destFilePath dirname s dest f) = true →
  exists_in fs (serverPath dirname s) = true →
  let src := NodePath.segments (targetDir dirname s path) ++ [f] in
  let ddir := NodePath.segments (destDir dirname s dest) in
  is_Some (fs !! src) → fs !! ddir = Some Dir → under src ddir = false →
  fs !! (ddir ++ [f]) = None →
  ∃ fs',
    post_server_move dirname sess s f dest path fs
    = (json (JMessage "File moved successfully"), fs')
    ∧ (∀ q, fs' !! q = match strip_prefix (ddir ++ [f]) q with
                      | Some r => fs !! (src ++ r)
                      | None => if under src q then None else fs !! q
                      end)
    ∧ fs' !! (ddir ++ [f]) = fs !! src.
Proof.
  intros Hf Hc1 Hc2 Hsrv src ddir Hv Hd Hu Hnew.
  destruct (move_runs s f dest path fs Hf Hc1 Hc2 Hsrv Hv Hd Hu Hnew)
    as (fs' & E & Hl).
  exists fs'. split; [done |]. split; [done |].
  rewrite Hl. pose proof (strip_prefix_app (ddir ++ [f]) []) as Es.
  rewrite app_nil_r in Es. fold src ddir. by rewrite Es, app_nil_r.
Qed.

(** X19.  An upload replaces a file of the same name; it is no conflict,
    as it is for a move, a copy or a rename.  multer stages the file in
    the working directory under the name the client gave, and the handler
    moves it: the uploaded bytes, when within the size limit, are found
    under that name in the target directory, the staged file is gone,
    and every other entry stays as it was. *)
Theorem upload_replaces (cwd s : string) (file : upload) (path : option string)
    (cw : key) (fs : state) :
  wf fs → valid_name (originalname file) →
  (N.of_nat (String.length (bytes file)) ≤ fileSize)%N →
  passes_check dirname s (targetDir dirname s path) = true →
  exists_in fs (serverPath dirname s) = true →
  kernel_resolve fs cwd = Some cw → fs !! cw = Some Dir →
  let up := cw ++ [originalname file] in
  let tdir := NodePath.segments (targetDir dirname s path) in
  let dst := tdir ++ [originalname file] in
  fs !! up ≠ Some Dir → fs !! tdir = Some Dir →
  up ≠ dst → fs !! dst ≠ Some Dir →
  ∃ fs',
    post_server_upload dirname cwd sess s (Some [file]) path fs
    = (Uploaded "1 arquivo(s) enviado(s) com sucesso!" 1, fs')
    ∧ fs' !! dst = Some (File (bytes file))
    ∧ fs' !! up = None
    ∧ ∀ q, q ≠ up → q ≠ dst → fs' !! q = fs !! q.
Proof.
  intros Hwf Hn Hsize Hc Hsrv Hcw Hcd up tdir dst Hup Htd Hne Hnd.
  destruct file as [n b]. simpl in *.
  unfold passes_check, JsString.startsWith in Hc.
  destruct (stage_then_rename fs cw tdir n b Hwf Hcd Htd Hup Hnd)
    as (fs' & Hr & Hd & Hgone & Hrest).
  exists fs'. split; [| split; [done | split; [by apply Hgone | done]]].
  unfold post_server_upload, isAuthenticated, upload_array.
  rewrite Hsess, (multer_stores_one cwd n b cw fs Hn Hsize Hcw Hcd Hup). cbv zeta.
  change (NodePath.join [serversDir dirname; s]) with (serverPath dirname s).
  change (NodePath.join [serverPath dirname s; JsString.or_empty path])
    with (targetDir dirname s path).
  unfold JsString.startsWith. rewrite Hc. cbn [negb].
  rewrite run_try_bind_existsSync, (exists_in_insert fs _ _ _ Hsrv). cbn [negb].
  erewrite run_try_bind_Ok; [apply run_try_mret |].
  apply (move_uploads_one cwd _ n b cw fs); [done | done | | done].
  apply (targetDir_abs dirname Habs).
Qed.

(** What a copy of a file inside a server does. *)
Lemma copy_file_runs (depth : nat) (s f dest : string) (path : option string)
    (c : string) (fs : state) :
  valid_name f →
  passes_check dirname s (filePath dirname s path f) = true →
  passes_check dirname s (destFilePath dirname s dest f) = true →
  exists_in fs (serverPath dirname s) = true →
  let src := NodePath.segments (targetDir dirname s path) ++ [f] in
  let ddir := NodePath.segments (destDir dirname s dest) in
  fs !! src = Some (File c) → fs !! ddir = Some Dir → fs !! (ddir ++ [f]) = None →
  post_server_copy dirname depth sess s f dest path fs
  = (json (JMessage "Item copied successfully"), <[ddir ++ [f] := File c]> fs).
Proof.
  intros Hf Hc1 Hc2 Hsrv src ddir Hv Hd Hnew.
  unfold passes_check, JsString.startsWith in Hc1, Hc2.
  enter post_server_copy. enter_dest. unfold JsString.startsWith.
  rewrite Hc1, Hc2. cbn [negb orb]. look Hsrv.
  rewrite run_try_bind_existsSync. unfold exists_in at 1.
  rewrite (segments_filePath dirname Habs) by done. fold src.
  rewrite Hv, bool_decide_eq_true_2 by eauto. cbn [negb].
  rewrite run_try_bind_existsSync. unfold exists_in at 1. fold ddir.
  rewrite Hd, bool_decide_eq_true_2 by eauto. cbn [negb].
  rewrite run_try_bind_existsSync. unfold exists_in at 1.
  rewrite segments_destFilePath by done. fold ddir.
  rewrite Hnew, bool_decide_eq_false_2 by (by intros [? ?]).
  erewrite run_try_bind_Ok;
    [| unfold stat_isDirectory; rewrite (segments_filePath dirname Habs) by done;
       fold src; by rewrite Hv].
  erewrite run_try_bind_Ok; [apply run_try_mret |].
  unfold copyFile, update, copy_file_at, read_at.
  rewrite (segments_filePath dirname Habs), segments_destFilePath by done.
  fold src ddir. rewrite Hv.
  rewrite write_at_Ok; [done | apply segments_nonempty_key | by rewrite parent_snoc |].
  by rewrite Hnew.
Qed.

(** X20.  Copying a file of a server into a folder that has no entry of
    that name adds exactly that entry, with the content of the source, and
    changes nothing else. *)
Theorem copy_of_a_file (depth : nat) (s f dest : string) (path : option string)
    (c : string) (fs : state) :
  valid_name f →
  passes_check dirname s (filePath dirname s path f) = true →
  passes_check dirname s (destFilePath dirname s dest f) = true →
  exists_in fs (serverPath dirname s) = true →
  let src := NodePath.segments (targetDir dirname s path) ++ [f] in
  let ddir := NodePath.segments (destDir dirname s dest) in
  fs !! src = Some (File c) → fs !! ddir = Some Dir → fs !! (ddir ++ [f]) = None →
  post_server_copy dirname depth sess s f dest path fs
  = (json (JMessage "Item copied successfully"), <[ddir ++ [f] := File c]> fs)
  ∧ (<[ddir ++ [f] := File c]> fs) !! src = Some (File c).
Proof.
  intros Hf Hc1 Hc2 Hsrv src ddir Hv Hd Hnew. split.
  - by apply copy_file_runs.
  - rewrite lookup_insert_ne; [done |]. intros E. rewrite E in Hnew. congruence.
Qed.

End Moving.

(** On the sample disk: [a.txt] of [s1] becomes [c.txt]. *)
Lemma rename_moves_the_entry_witness :
  ∃ fs',
    Server.post_server_rename Sample.dirname Sample.admin "s1" "a.txt" "c.txt" None
      Sample.disk
    = (Http.json (Http.JMessage "Item renamed successfully"), fs')
    ∧ fs' !! ["opt"; "mm"; "servers"; "s1"; "c.txt"] = Some (Fs.File "hello")
    ∧ fs' !! ["opt"; "mm"; "servers"; "s1"; "a.txt"] = None.
Proof.
  assert (Hwf : Fs.wf Sample.disk).
  { split; [vm_compute; reflexivity |].
    apply (bool_decide_unpack _). vm_compute. reflexivity. }
  assert (Ho : Fs.valid_name "a.txt") by (by apply (bool_decide_unpack _)).
  assert (Hn : Fs.valid_name "c.txt") by (by apply (bool_decide_unpack _)).
  pose proof (rename_moves_the_entry Sample.dirname eq_refl Sample.admin eq_refl
                "s1" "a.txt" "c.txt" None Sample.disk Hwf Ho Hn) as H.
  cbv zeta in H. destruct H as (fs' & E & Hl).
  - vm_compute. reflexivity.
  - vm_compute. reflexivity.
  - vm_compute. reflexivity.
  - vm_compute. eauto.
  - vm_compute. reflexivity.
  - exists fs'. split; [exact E |]. rewrite !Hl. split; vm_compute; reflexivity.
Defined.

(** On the sample disk: the folder [sub] of [s1] into itself. *)
Lemma move_into_itself_fails_witness :
  Server.post_server_move Sample.dirname Sample.admin "s1" "sub" "sub" None Sample.disk
  = (Http.error 500 "Failed to move file", Sample.disk).
Proof.
  assert (Hwf : Fs.wf Sample.disk).
  { split; [vm_compute; reflexivity |].
    apply (bool_decide_unpack _). vm_compute. reflexivity. }
  assert (Hf : Fs.valid_name "sub") by (by apply (bool_decide_unpack _)).
  apply (move_into_itself_fails Sample.dirname eq_refl Sample.admin eq_refl
           "s1" "sub" "sub" None Sample.disk Hwf Hf).
  - vm_compute. reflexivity.
  - vm_compute. reflexivity.
  - vm_compute. reflexivity.
  - vm_compute. eauto.
  - vm_compute. reflexivity.
  - vm_compute. reflexivity.
  - vm_compute. reflexivity.
Defined.

(** On the sample disk: [b.txt] of [s1] into the folder [sub]. *)
Lemma move_moves_the_entry_witness :
  ∃ fs',
    Server.post_server_move Sample.dirname Sample.admin "s1" "b.txt" "sub" None
      Sample.disk
    = (Http.json (Http.JMessage "File moved successfully"), fs')
    ∧ fs' !! ["opt"; "mm"; "servers"; "s1"; "sub"; "b.txt"] = Some (Fs.File "bee")
    ∧ fs' !! ["opt"; "mm"; "servers"; "s1"; "b.txt"] = None.
Proof.
  assert (Hf : Fs.valid_name "b.txt") by (by apply (bool_decide_unpack _)).
  pose proof (move_moves_the_entry Sample.dirname eq_refl Sample.admin eq_refl
                "s1" "b.txt" "sub" None Sample.disk Hf) as H.
  cbv zeta in H. destruct H as (fs' & E & Hl & _).
  - vm_compute. reflexivity.
  - vm_compute. reflexivity.
  - vm_compute. reflexivity.
  - vm_compute. eauto.
  - vm_compute. reflexivity.
  - vm_compute. reflexivity.
  - vm_compute. reflexivity.
  - exists fs'. split; [exact E |]. rewrite !Hl. split; vm_compute; reflexivity.
Defined.

(** On the sample disk, the process running in [/opt/mm]: [a.txt] is
    uploaded to [s1], which has an [a.txt] already. *)
Lemma upload_replaces_witness :
  ∃ fs',
    More.post_server_upload Sample.dirname "/opt/mm" Sample.admin "s1"
      (Some [{| More.originalname := "a.txt"; More.bytes := "new" |}]) None Sample.disk
    = (More.Uploaded "1 arquivo(s) enviado(s) com sucesso!" 1, fs')
    ∧ fs' !! ["opt"; "mm"; "servers"; "s1"; "a.txt"] = Some (Fs.File "new")
    ∧ fs' !! ["opt"; "mm"; "a.txt"] = None.
Proof.
  assert (Hwf : Fs.wf Sample.disk).
  { split; [vm_compute; reflexivity |].
    apply (bool_decide_unpack _). vm_compute. reflexivity. }
  assert (Hn : Fs.valid_name "a.txt") by (by apply (bool_decide_unpack _)).
  assert (Hcw : Io.kernel_resolve Sample.disk "/opt/mm" = Some ["opt"; "mm"])
    by (vm_compute; reflexivity).
  pose proof (upload_replaces Sample.dirname eq_refl Sample.admin eq_refl "/opt/mm" "s1"
                {| More.originalname := "a.txt"; More.bytes := "new" |}
                None ["opt"; "mm"] Sample.disk Hwf Hn) as H.
  cbv zeta in H. destruct H as (fs' & E & Hd & Hu & _).
  - vm_compute. discriminate.
  - vm_compute. reflexivity.
  - vm_compute. reflexivity.
  - exact Hcw.
  - vm_compute. reflexivity.
  - intros E. vm_compute in E. discriminate E.
  - vm_compute. reflexivity.
  - intros E. vm_compute in E. discriminate E.
  - intros E. vm_compute in E. discriminate E.
  - exists fs'. split; [exact E |]. split; [exact Hd | exact Hu].
Defined.

(** On the sample disk: [b.txt] of [s1] copied into the folder [sub]. *)
Lemma copy_of_a_file_witness :
  ∃ k,
    Server.post_server_copy Sample.dirname 64 Sample.admin "s1" "b.txt" "sub" None
      Sample.disk
    = (Http.json (Http.JMessage "Item copied successfully"),
       <[k := Fs.File "bee"]> Sample.disk)
    ∧ k = ["opt"; "mm"; "servers"; "s1"; "sub"; "b.txt"].
Proof.
  assert (Hf : Fs.valid_name "b.txt") by (by apply (bool_decide_unpack _)).
  pose proof (copy_of_a_file Sample.dirname eq_refl Sample.admin eq_refl 64
                "s1" "b.txt" "sub" None "bee" Sample.disk Hf) as H.
  cbv zeta in H. destruct H as [H _].
  - vm_compute. reflexivity.
  - vm_compute. reflexivity.
  - vm_compute. reflexivity.
  - vm_compute. reflexivity.
  - vm_compute. reflexivity.
  - vm_compute. reflexivity.
  - eexists. split; [exact H |]. vm_compute. reflexivity.
Defined.

(** ** Copying a folder *)

Section CopyTree.
Import Fs Io Http Server Paths More.

Lemma NoDup_children fs (d : key) : NoDup (children fs d).
Proof.
  unfold children.
  assert (H : ∀ l : list (key * node),
             NoDup l.*1 → NoDup (omap (λ kv : key * node, child_of d kv.1) l)).
  { induction l as [|[k v] l IH]; intros Hnd; simpl; [constructor |].
    simpl in Hnd. apply NoDup_cons in Hnd as [Hk Hl].
    destruct (child_of d k) as [z|] eqn:E; [| by apply IH].
    apply NoDup_cons. split; [| by apply IH].
    intros Hz. apply list_elem_of_omap in Hz as ([k' v'] & Hin & E'). simpl in E'.
    apply child_of_Some in E. apply child_of_Some in E'. subst.
    apply Hk. apply list_elem_of_fmap. by exists (d ++ [z], v'). }
  apply H, NoDup_fst_map_to_list.
Qed.

Lemma copied_start fs (sk p : key) (n : string) :
  wf fs → fs !! (p ++ [n]) = None →
  ∀ q, <[p ++ [n] := Dir]> fs !! q = copied fs sk (p ++ [n]) [] q.
Proof.
  intros Hwf Hk q. unfold copied.
  destruct (strip_prefix (p ++ [n]) q) as [[|x r]|] eqn:E.
  - apply strip_prefix_Some in E. rewrite app_nil_r in E. subst.
    by rewrite lookup_insert_eq.
  - apply strip_prefix_Some in E. subst q.
    rewrite decide_False by apply not_elem_of_nil.
    rewrite lookup_insert_ne.
    2: { intros E. apply (f_equal length) in E. rewrite !length_app in E.
         simpl in E. lia. }
    destruct (fs !! ((p ++ [n]) ++ x :: r)) eqn:E'; [| done].
    assert (is_Some (fs !! ((p ++ [n]) ++ x :: r))) as Hs by eauto.
    pose proof (wf_above_is_dir fs (p ++ [n]) (x :: r) Hwf Hs). naive_solver.
  - rewrite lookup_insert_ne; [done |]. intros <-.
    by rewrite strip_prefix_self in E.
Qed.

Lemma copied_end fs (sk dk : key) :
  wf fs →
  ∀ q, copied fs sk dk (children fs sk) q
       = match strip_prefix dk q with
         | Some [] => Some Dir
         | Some r => fs !! (sk ++ r)
         | None => fs !! q
         end.
Proof.
  intros Hwf q. unfold copied.
  destruct (strip_prefix dk q) as [[|x r]|]; [done | | done].
  destruct (decide (x ∈ children fs sk)) as [|Hx]; [done |].
  rewrite elem_of_children in Hx.
  destruct (fs !! (sk ++ x :: r)) eqn:E; [| done]. exfalso. apply Hx.
  destruct r as [|y r]; [eauto |].
  change (sk ++ x :: y :: r) with (sk ++ [x] ++ (y :: r)) in E.
  rewrite app_assoc in E.
  rewrite (wf_above_is_dir fs (sk ++ [x]) (y :: r) Hwf); eauto.
Qed.

Section CopyLoop.

Variable depth' : nat.

Hypothesis IH : ∀ (src dest : string) (p : key) (n : string) (fs : state),
  NodePath.isAbsolute src = true → NodePath.isAbsolute dest = true →
  NodePath.segments dest = p ++ [n] → valid_name n →
  wf fs → fs !! NodePath.segments src = Some Dir → fs !! p = Some Dir →
  fs !! (p ++ [n]) = None →
  under (NodePath.segments src) (p ++ [n]) = false →
  (∀ r, is_Some (fs !! (NodePath.segments src ++ r)) → (length r < depth')%nat) →
  ∃ fs', copyDirectory depth' src dest fs = (Ok (), fs') ∧ wf fs' ∧
    ∀ q, fs' !! q = match strip_prefix (p ++ [n]) q with
                    | Some r => fs !! (NodePath.segments src ++ r)
                    | None => fs !! q
                    end.

Lemma each_copies (src dest : string) (fs0 : state) :
  NodePath.isAbsolute src = true → NodePath.isAbsolute dest = true →
  wf fs0 →
  under (NodePath.segments src) (NodePath.segments dest) = false →
  under (NodePath.segments dest) (NodePath.segments src) = false →
  (∀ r, is_Some (fs0 !! (NodePath.segments src ++ r)) → (length r < S depth')%nat) →
  ∀ (rest done : list string) (fs1 : state),
    NoDup rest → (∀ x, x ∈ rest → x ∉ done) →
    (∀ x, x ∈ rest → is_Some (fs0 !! (NodePath.segments src ++ [x]))) →
    wf fs1 →
    (∀ q, fs1 !! q
          = copied fs0 (NodePath.segments src) (NodePath.segments dest) done q) →
    ∃ fs',
      (fix each (entries : list (string * bool)) : io unit :=
         match entries with
         | [] => mret ()
         | (name, isDir) :: rest =>
             let srcPath := NodePath.join [src; name] in
             let destPath := NodePath.join [dest; name] in
             (if isDir : bool
              then copyDirectory depth' srcPath destPath
              else copyFile srcPath destPath);;
             each rest
         end)
        ((λ m, (m, bool_decide (fs0 !! (NodePath.segments src ++ [m]) = Some Dir)))
           <$> rest) fs1
      = (Ok (), fs')
      ∧ wf fs'
      ∧ ∀ q, fs' !! q
             = copied fs0 (NodePath.segments src) (NodePath.segments dest)
                 (done ++ rest) q.
Proof.
  intros Hsa Hda Hwf0 Hu1 Hu2 Hdepth.
  set (sk := NodePath.segments src) in *. set (dk := NodePath.segments dest) in *.
  assert (Hap : ∀ r, strip_prefix dk (sk ++ r) = None) by (by apply apart).
  assert (Hsame : ∀ (fs1 : state) (done : list string),
             (∀ q, fs1 !! q = copied fs0 sk dk done q) →
             ∀ r, fs1 !! (sk ++ r) = fs0 !! (sk ++ r)).
  { intros fs1 done H r. rewrite H. unfold copied. by rewrite Hap. }
  induction rest as [|x rest IHrest]; intros done fs1 Hnd Hfresh Hex Hwf1 Hinv.
  - exists fs1. rewrite app_nil_r. done.
  - apply NoDup_cons in Hnd as [Hx Hnd].
    destruct (Hex x) as [v Hv]; [by left |].
    assert (Hvx : valid_name x).
    { assert (is_Some (fs0 !! (sk ++ [x]))) as Hs by eauto.
      pose proof (wf_names_valid fs0 Hwf0 _ Hs) as Hn.
      apply Forall_app in Hn as [_ Hn]. by inversion Hn. }
    assert (Hxd : x ∉ done) by (apply Hfresh; by left).
    assert (Hdk : fs1 !! dk = Some Dir).
    { rewrite Hinv. unfold copied. by rewrite strip_prefix_self. }
    assert (Hnew : fs1 !! (dk ++ [x]) = None).
    { rewrite Hinv. unfold copied. rewrite strip_prefix_app. by rewrite decide_False. }
    assert (Hstep : ∃ fs2,
               (if bool_decide (fs0 !! (sk ++ [x]) = Some Dir)
                then copyDirectory depth' (NodePath.join [src; x]) (NodePath.join [dest; x])
                else copyFile (NodePath.join [src; x]) (NodePath.join [dest; x])) fs1
               = (Ok (), fs2)
               ∧ wf fs2
               ∧ ∀ q, fs2 !! q = copied fs0 sk dk (done ++ [x]) q).
    { destruct v as [c|].
      - rewrite Hv, bool_decide_eq_false_2 by done.
        exists (<[dk ++ [x] := File c]> fs1). split; [| split].
        + unfold copyFile, update, copy_file_at, read_at.
          rewrite !segments_join_name by done. fold sk dk.
          rewrite (Hsame fs1 done Hinv [x]), Hv.
          rewrite write_at_Ok;
            [done | apply segments_nonempty_key | by rewrite parent_snoc
             | by rewrite Hnew].
        + by apply wf_insert.
        + intros q. destruct (decide (q = dk ++ [x])) as [-> | Hq].
          * rewrite lookup_insert_eq. unfold copied. rewrite strip_prefix_app.
            rewrite decide_True by (apply elem_of_app; right; by left). done.
          * rewrite lookup_insert_ne by done. rewrite Hinv. unfold copied.
            destruct (strip_prefix dk q) as [[|y r]|] eqn:E; [done | | done].
            destruct (decide (y ∈ done)) as [Hy | Hy].
            -- rewrite decide_True by (apply elem_of_app; by left). done.
            -- destruct (decide (y = x)) as [-> | Hyx].
               ++ rewrite decide_True by (apply elem_of_app; right; by left).
                  apply strip_prefix_Some in E. symmetry.
                  apply (wf_nothing_below_file fs0 (sk ++ [x]) _ c Hwf0 Hv).
                  ** apply under_true. exists r. by rewrite <- app_assoc.
                  ** intros E'. apply app_inv_head in E'.
                     injection E' as ->. by subst q.
               ++ rewrite decide_False; [done |]. intros H.
                  apply elem_of_app in H as [H | H]; [done |].
                  apply list_elem_of_singleton in H. done.
      - rewrite Hv, bool_decide_eq_true_2 by done.
        destruct (IH (NodePath.join [src; x]) (NodePath.join [dest; x]) dk x fs1)
          as (fs2 & E2 & Hwf2 & Hl2).
        + by apply join_abs.
        + by apply join_abs.
        + by apply segments_join_name.
        + done.
        + done.
        + rewrite segments_join_name by done. fold sk.
          by rewrite (Hsame fs1 done Hinv [x]).
        + done.
        + done.
        + rewrite segments_join_name by done. fold sk.
          destruct (under (sk ++ [x]) (dk ++ [x])) eqn:E; [| done].
          apply under_into in E as [E | E].
          * apply app_inj_tail in E as [E _]. rewrite E, under_refl in Hu1. done.
          * apply under_true in E as [r E].
            assert (under sk dk = true).
            { apply under_true. exists ([x] ++ r). by rewrite E, <- app_assoc. }
            congruence.
        + intros r Hr. rewrite segments_join_name in Hr by done. fold sk in Hr.
          rewrite <- app_assoc in Hr. rewrite (Hsame fs1 done Hinv) in Hr.
          apply Hdepth in Hr. simpl in Hr. lia.
        + exists fs2. split; [done | split; [done |]].
          intros q. rewrite Hl2. rewrite strip_prefix_snoc.
          rewrite segments_join_name by done. fold sk.
          unfold copied. destruct (strip_prefix dk q) as [[|y r]|] eqn:E.
          * rewrite Hinv. unfold copied. by rewrite E.
          * destruct (decide (x = y)) as [<- | Hxy].
            -- rewrite decide_True by (apply elem_of_app; right; by left).
               rewrite <- app_assoc. apply (Hsame fs1 done Hinv).
            -- rewrite Hinv. unfold copied. rewrite E.
               destruct (decide (y ∈ done)).
               ++ rewrite decide_True by (apply elem_of_app; by left). done.
               ++ rewrite decide_False; [done |]. intros H.
                  apply elem_of_app in H as [H | H]; [done |].
                  apply list_elem_of_singleton in H. congruence.
          * rewrite Hinv. unfold copied. by rewrite E. }
    destruct Hstep as (fs2 & E2 & Hwf2 & Hinv2).
    destruct (IHrest (done ++ [x]) fs2) as (fs' & E' & Hwf' & Hinv'); try done.
    + intros y Hy Hyd. apply elem_of_app in Hyd as [Hyd | Hyd].
      * apply (Hfresh y); [by right | done].
      * apply list_elem_of_singleton in Hyd. by subst.
    + intros y Hy. apply Hex. by right.
    + exists fs'. split; [| split; [done |]].
      * rewrite fmap_cons. cbv beta iota fix.
        erewrite bind_Ok; [exact E' | exact E2].
      * intros q. rewrite Hinv'. by rewrite <- app_assoc.
Qed.

End CopyLoop.

(** [copyDirectory] copies a whole tree: with more levels allowed than
    the tree has, every entry of the source is found at the same place
    below the destination, and nothing else changes. *)
Lemma copyDirectory_copies (depth : nat) :
  ∀ (src dest : string) (p : key) (n : string) (fs : state),
  NodePath.isAbsolute src = true → NodePath.isAbsolute dest = true →
  NodePath.segments dest = p ++ [n] → valid_name n →
  wf fs → fs !! NodePath.segments src = Some Dir → fs !! p = Some Dir →
  fs !! (p ++ [n]) = None →
  under (NodePath.segments src) (p ++ [n]) = false →
  (∀ r, is_Some (fs !! (NodePath.segments src ++ r)) → (length r < depth)%nat) →
  ∃ fs', copyDirectory depth src dest fs = (Ok (), fs') ∧ wf fs' ∧
    ∀ q, fs' !! q = match strip_prefix (p ++ [n]) q with
                    | Some r => fs !! (NodePath.segments src ++ r)
                    | None => fs !! q
                    end.
Proof.
  induction depth as [|depth' IHd];
    intros src dest p n fs Hsa Hda Hseg Hn Hwf Hs Hp Hk Hu Hdepth.
  - exfalso.
    assert (is_Some (fs !! (NodePath.segments src ++ []))) as H0
      by (rewrite app_nil_r; eauto).
    apply Hdepth in H0. simpl in H0. lia.
  - set (sk := NodePath.segments src) in *.
    assert (Hu2 : under (p ++ [n]) sk = false).
    { destruct (under (p ++ [n]) sk) eqn:E; [| done].
      apply under_true in E as [r E]. destruct r as [|y r].
      - rewrite app_nil_r in E. rewrite E in Hs. congruence.
      - assert (is_Some (fs !! ((p ++ [n]) ++ y :: r))) as H0 by (rewrite <- E; eauto).
        pose proof (wf_above_is_dir fs _ _ Hwf H0). naive_solver. }
    destruct (each_copies depth' IHd src dest fs Hsa Hda Hwf) with
      (rest := children fs sk) (done := @nil string) (fs1 := <[p ++ [n] := Dir]> fs)
      as (fs' & E & Hwf' & Hinv).
    + fold sk. by rewrite Hseg.
    + fold sk. by rewrite Hseg.
    + done.
    + apply NoDup_children.
    + intros x _. apply not_elem_of_nil.
    + intros x Hx. by apply elem_of_children.
    + by apply wf_insert.
    + fold sk. rewrite Hseg. by apply copied_start.
    + exists fs'. split; [| split; [done |]].
      * cbn [copyDirectory].
        erewrite bind_Ok;
          [| unfold readdir_types, readdir_at; cbv zeta; fold sk; by rewrite Hs].
        erewrite bind_Ok; [exact E |].
        unfold mkdir, update. rewrite Hseg.
        rewrite mkdir_p_dirs_above; [done | | by rewrite Hk; intros [? ?]].
        apply dirs_above_snoc; [| done]. apply wf_dirs_above; eauto.
      * intros q. rewrite Hinv. fold sk. rewrite Hseg. simpl.
        rewrite copied_end by done.
        destruct (strip_prefix (p ++ [n]) q) as [[|y r]|]; [| done | done].
        by rewrite app_nil_r.
Qed.

Variable dirname : string.
Hypothesis Habs : NodePath.isAbsolute dirname = true.
Variable sess : session.
Hypothesis Hsess : logged_in sess = true.

(** What a copy of a folder inside a server does. *)
Lemma copy_folder_runs (depth : nat) (s f dest : string) (path : option string)
    (fs : state) :
  wf fs → valid_name f →
  passes_check dirname s (filePath dirname s path f) = true →
  passes_check dirname s (destFilePath dirname s dest f) = true →
  exists_in fs (serverPath dirname s) = true →
  let src := NodePath.segments (targetDir dirname s path) ++ [f] in
  let ddir := NodePath.segments (destDir dirname s dest) in
  fs !! src = Some Dir → fs !! ddir = Some Dir → fs !! (ddir ++ [f]) = None →
  under src ddir = false →
  (∀ r, is_Some (fs !! (src ++ r)) → (length r < depth)%nat) →
  ∃ fs',
    post_server_copy dirname depth sess s f dest path fs
    = (json (JMessage "Item copied successfully"), fs')
    ∧ wf fs'
    ∧ ∀ q, fs' !! q = match strip_prefix (ddir ++ [f]) q with
                      | Some r => fs !! (src ++ r)
                      | None => fs !! q
                      end.
Proof.
  intros Hwf Hf Hc1 Hc2 Hsrv src ddir Hv Hd Hnew Hu Hdepth.
  unfold passes_check, JsString.startsWith in Hc1, Hc2.
  assert (Hu' : under src (ddir ++ [f]) = false).
  { destruct (under src (ddir ++ [f])) eqn:E; [| done].
    apply under_into in E as [E | E]; [| congruence].
    rewrite <- E in Hnew. congruence. }
  destruct (copyDirectory_copies depth (filePath dirname s path f)
              (destFilePath dirname s dest f) ddir f fs)
    as (fs' & E & Hwf' & Hl).
  - apply join_abs. by apply targetDir_abs.
  - apply join_abs. by apply destDir_abs.
  - by apply segments_destFilePath.
  - done.
  - done.
  - by rewrite (segments_filePath dirname Habs).
  - done.
  - done.
  - by rewrite (segments_filePath dirname Habs).
  - intros r. rewrite (segments_filePath dirname Habs) by done. apply Hdepth.
  - rewrite (segments_filePath dirname Habs) in Hl by done. fold src in Hl.
    exists fs'. split; [| done].
    unfold post_server_copy, api, isAuthenticated. rewrite Hsess. cbv zeta.
    change (NodePath.join [serversDir dirname; s]) with (serverPath dirname s).
    change (NodePath.join [serverPath dirname s; JsString.or_empty path])
      with (targetDir dirname s path).
    change (NodePath.join [targetDir dirname s path; f])
      with (filePath dirname s path f).
    change (NodePath.join [serverPath dirname s; dest]) with (destDir dirname s dest).
    change (NodePath.join [destDir dirname s dest; f])
      with (destFilePath dirname s dest f).
    unfold JsString.startsWith. rewrite Hc1, Hc2. cbn [negb orb].
    rewrite run_try_bind_existsSync, Hsrv. cbn [negb].
    rewrite run_try_bind_existsSync. unfold exists_in at 1.
    rewrite (segments_filePath dirname Habs) by done. fold src.
    rewrite Hv, bool_decide_eq_true_2 by eauto. cbn [negb].
    rewrite run_try_bind_existsSync. unfold exists_in at 1. fold ddir.
    rewrite Hd, bool_decide_eq_true_2 by eauto. cbn [negb].
    rewrite run_try_bind_existsSync. unfold exists_in at 1.
    rewrite (segments_destFilePath dirname Habs) by done. fold ddir.
    rewrite Hnew, bool_decide_eq_false_2 by (by intros [? ?]).
    erewrite run_try_bind_Ok;
      [| unfold stat_isDirectory; rewrite (segments_filePath dirname Habs) by done;
         fold src; by rewrite Hv].
    erewrite run_try_bind_Ok; [apply run_try_mret | exact E].
Qed.

(** X21.  Copying a folder of a server into a folder that has no entry of
    that name, and that does not lie in the copied folder, copies the
    whole tree: every entry below the source is found at the same place
    below the copy, the source and all other entries stay as they were.
    ([depth] only has to exceed the number of levels of the tree.) *)
Theorem copy_of_a_folder (depth : nat) (s f dest : string) (path : option string)
    (fs : state) :
  wf fs → valid_name f →
  passes_check dirname s (filePath dirname s path f) = true →
  passes_check dirname s (destFilePath dirname s dest f) = true →
  exists_in fs (serverPath dirname s) = true →
  let src := NodePath.segments (targetDir dirname s path) ++ [f] in
  let ddir := NodePath.segments (destDir dirname s dest) in
  fs !! src = Some Dir → fs !! ddir = Some Dir → fs !! (ddir ++ [f]) = None →
  under src ddir = false →
  (∀ r, is_Some (fs !! (src ++ r)) → (length r < depth)%nat) →
  ∃ fs',
    post_server_copy dirname depth sess s f dest path fs
    = (json (JMessage "Item copied successfully"), fs')
    ∧ ∀ q, fs' !! q = match strip_prefix (ddir ++ [f]) q with
                      | Some r => fs !! (src ++ r)
                      | None => fs !! q
                      end.
Proof.
  intros Hwf Hf Hc1 Hc2 Hsrv src ddir Hv Hd Hnew Hu Hdepth.
  destruct (copy_folder_runs depth s f dest path fs Hwf Hf Hc1 Hc2 Hsrv Hv Hd Hnew Hu
              Hdepth) as (fs' & E & _ & Hl).
  by exists fs'.
Qed.

End CopyTree.

(** On the sample disk with an empty folder [bak] in [s1]: the folder
    [sub] is copied into [bak]. *)
Lemma copy_of_a_folder_witness :
  ∃ fs',
    Server.post_server_copy Sample.dirname 64 Sample.admin "s1" "sub" "bak" None
      (<[["opt"; "mm"; "servers"; "s1"; "bak"] := Fs.Dir]> Sample.disk)
    = (Http.json (Http.JMessage "Item copied successfully"), fs')
    ∧ fs' !! ["opt"; "mm"; "servers"; "s1"; "bak"; "sub"; "a.txt"]
      = Some (Fs.File "old")
    ∧ fs' !! ["opt"; "mm"; "servers"; "s1"; "sub"; "a.txt"] = Some (Fs.File "old").
Proof.
  set (fs := <[["opt"; "mm"; "servers"; "s1"; "bak"] := Fs.Dir]> Sample.disk).
  assert (Hwf : Fs.wf fs).
  { split; [vm_compute; reflexivity |].
    apply (bool_decide_unpack _). vm_compute. reflexivity. }
  assert (Hlen : map_Forall (λ (k : Fs.key) (_ : Fs.node), (length k < 64)%nat) fs).
  { apply (bool_decide_unpack _). vm_compute. reflexivity. }
  assert (Hf : Fs.valid_name "sub") by (by apply (bool_decide_unpack _)).
  pose proof (copy_of_a_folder Sample.dirname eq_refl Sample.admin eq_refl 64
                "s1" "sub" "bak" None fs Hwf Hf) as H.
  cbv zeta in H. destruct H as (fs' & E & Hl).
  - vm_compute. reflexivity.
  - vm_compute. reflexivity.
  - vm_compute. reflexivity.
  - vm_compute. reflexivity.
  - vm_compute. reflexivity.
  - vm_compute. reflexivity.
  - vm_compute. reflexivity.
  - intros r [v Hv]. apply Hlen in Hv. cbv beta in Hv.
    rewrite length_app in Hv. lia.
  - exists fs'. split; [exact E |]. rewrite !Hl. split; vm_compute; reflexivity.
Defined.

(** ** Copy, delete and move together *)

Section Composition.
Import Fs Io Http Server Paths More.

Variable dirname : string.
Hypothesis Habs : NodePath.isAbsolute dirname = true.
Variable sess : session.
Hypothesis Hsess : logged_in sess = true.

(** X22.  Inside a server, copying an entry into a folder and then
    deleting the original leaves the filesystem exactly as moving the
    entry into that folder does, for a file and for a folder with all
    below it; all three requests are answered 200. *)
Theorem copy_then_delete_is_move (depth : nat) (s f dest : string)
    (path : option string) (fs : state) :
  wf fs → valid_name f →
  passes_check dirname s (filePath dirname s path f) = true →
  passes_check dirname s (destFilePath dirname s dest f) = true →
  exists_in fs (serverPath dirname s) = true →
  let src := NodePath.segments (targetDir dirname s path) ++ [f] in
  let ddir := NodePath.segments (destDir dirname s dest) in
  is_Some (fs !! src) → fs !! ddir = Some Dir → fs !! (ddir ++ [f]) = None →
  under src ddir = false →
  (∀ r, is_Some (fs !! (src ++ r)) → (length r < depth)%nat) →
  ∃ fs1 fs2,
    post_server_copy dirname depth sess s f dest path fs
    = (json (JMessage "Item copied successfully"), fs1)
    ∧ delete_server_file dirname sess s f path fs1
      = (json (JMessage "Item deleted successfully"), fs2)
    ∧ post_server_move dirname sess s f dest path fs
      = (json (JMessage "File moved successfully"), fs2).
Proof.
  intros Hwf Hf Hc1 Hc2 Hsrv src ddir Hsrc Hd Hnew Hu Hdepth.
  set (dst := ddir ++ [f]) in *.
  destruct (move_runs dirname Habs sess Hsess s f dest path fs Hf Hc1 Hc2 Hsrv
              Hsrc Hd Hu Hnew) as (fs' & Em & Hlm).
  fold src ddir dst in Hlm.
  assert (Hsd : strip_prefix dst src = None) by (by apply (absent_not_above fs)).
  assert (Hcopy : ∃ fs1,
             post_server_copy dirname depth sess s f dest path fs
             = (json (JMessage "Item copied successfully"), fs1)
             ∧ wf fs1
             ∧ ∀ q, fs1 !! q = match strip_prefix dst q with
                               | Some r => fs !! (src ++ r)
                               | None => fs !! q
                               end).
  { destruct Hsrc as [[c|] Hv].
    - exists (<[dst := File c]> fs). split; [| split].
      + apply (copy_file_runs dirname Habs sess Hsess depth s f dest path c fs
                 Hf Hc1 Hc2 Hsrv Hv Hd Hnew).
      + by apply wf_insert.
      + intros q. destruct (decide (q = dst)) as [-> | Hq].
        * by rewrite lookup_insert_eq, strip_prefix_self, app_nil_r.
        * rewrite lookup_insert_ne by done.
          destruct (strip_prefix dst q) as [r|] eqn:E; [| done].
          apply strip_prefix_Some in E as ->.
          assert (Hr : r ≠ []) by (intros ->; by rewrite app_nil_r in Hq).
          transitivity (@None node).
          -- destruct (fs !! (dst ++ r)) eqn:E'; [| done].
             assert (is_Some (fs !! (dst ++ r))) as Hs by eauto.
             pose proof (wf_above_is_dir fs dst r Hwf Hs Hr). congruence.
          -- symmetry. apply (wf_nothing_below_file fs src _ c Hwf Hv).
             ++ apply under_true. by exists r.
             ++ intros E. rewrite <- (app_nil_r src) in E at 2.
                by apply app_inv_head in E.
    - by apply (copy_folder_runs dirname Habs sess Hsess depth s f dest path fs). }
  destruct Hcopy as (fs1 & Ec & Hwf1 & Hl1).
  destruct (delete_runs dirname Habs sess Hsess s f path fs1 Hwf1 Hf Hc1)
    as (fs2 & Ed & Hl2).
  - unfold exists_in in *. apply bool_decide_eq_true in Hsrv.
    apply bool_decide_eq_true. rewrite Hl1.
    by rewrite (absent_not_above fs dst _ Hwf Hnew Hsrv).
  - fold src. by rewrite Hl1, Hsd.
  - fold src in Hl2. exists fs1, fs2. split; [done | split; [done |]].
    replace fs2 with fs'; [done |]. apply map_eq. intros q.
    rewrite Hlm, Hl2, Hl1.
    destruct (strip_prefix dst q) as [r|] eqn:E; [| done].
    destruct (under src q) eqn:Eu; [| done].
    exfalso. apply strip_prefix_Some in E. apply under_true in Eu as [r' Eu].
    rewrite Eu in E. destruct (comparable src dst r' r E) as [H | H].
    + apply under_into in H as [H | H]; [| congruence].
      rewrite H in Hsrc. fold dst in Hsrc. rewrite Hnew in Hsrc. by destruct Hsrc.
    + unfold under in H. by rewrite Hsd in H.
Qed.

End Composition.

(** On the sample disk: [b.txt] of [s1] and the folder [sub]. *)
Lemma copy_then_delete_is_move_witness :
  ∃ fs1 fs2,
    Server.post_server_copy Sample.dirname 64 Sample.admin "s1" "b.txt" "sub" None
      Sample.disk
    = (Http.json (Http.JMessage "Item copied successfully"), fs1)
    ∧ More.delete_server_file Sample.dirname Sample.admin "s1" "b.txt" None fs1
      = (Http.json (Http.JMessage "Item deleted successfully"), fs2)
    ∧ Server.post_server_move Sample.dirname Sample.admin "s1" "b.txt" "sub" None
        Sample.disk
      = (Http.json (Http.JMessage "File moved successfully"), fs2).
Proof.
  assert (Hwf : Fs.wf Sample.disk).
  { split; [vm_compute; reflexivity |].
    apply (bool_decide_unpack _). vm_compute. reflexivity. }
  assert (Hlen : map_Forall (λ (k : Fs.key) (_ : Fs.node), (length k < 64)%nat)
                   Sample.disk).
  { apply (bool_decide_unpack _). vm_compute. reflexivity. }
  assert (Hf : Fs.valid_name "b.txt") by (by apply (bool_decide_unpack _)).
  apply (copy_then_delete_is_move Sample.dirname eq_refl Sample.admin eq_refl 64
           "s1" "b.txt" "sub" None Sample.disk Hwf Hf).
  - vm_compute. reflexivity.
  - vm_compute. reflexivity.
  - vm_compute. reflexivity.
  - vm_compute. eauto.
  - vm_compute. reflexivity.
  - vm_compute. reflexivity.
  - vm_compute. reflexivity.
  - intros r [v Hv]. apply Hlen in Hv. cbv beta in Hv.
    rewrite length_app in Hv. lia.
Defined.

(** ** Extraction *)

Section Extraction.
Import Fs Io Http Server Paths More.








Variable zip_entries : string → option (list (key * node)).



End Extraction.


(** ** The first listing of the servers *)

Section FirstListing.
Import Fs Io Http Server Paths More.

(** X24.  The servers are listed before there is a servers directory: the
    listing creates the directory, with the directories leading to it,
    and answers with the empty list.  (No regular file may be in the way
    of the directories.) *)
Theorem first_listing_creates_servers_directory (dirname : string) (sess : session)
    (fs : state) :
  logged_in sess = true → wf fs →
  let sd := NodePath.segments (serversDir dirname) in
  fs !! sd = None →
  (∀ r1 r2, sd = r1 ++ r2 → ¬ is_file (fs !! r1)) →
  ∃ fs',
    get_servers dirname sess fs = (json (JServers []), fs')
    ∧ ∀ q, fs' !! q = if decide (q `prefix_of` sd) then Some Dir else fs !! q.
Proof.
  intros Hsess Hwf sd Hnone Hfree.
  destruct (mkdir_p_succeeds sd fs Hfree) as (fs' & Emk & Hl).
  exists fs'. split; [| done].
  unfold get_servers, api, isAuthenticated. rewrite Hsess.
  rewrite run_try_bind_existsSync. unfold exists_in at 1. fold sd. rewrite Hnone.
  rewrite bool_decide_eq_false_2 by (by intros [? ?]). cbn [negb].
  erewrite run_try_bind_Ok; [| unfold mkdir, update; fold sd; by rewrite Emk].
  assert (Hdir : fs' !! sd = Some Dir) by (by rewrite Hl, decide_True).
  assert (Hch : children fs' sd = []).
  { apply children_nil. intros n. rewrite Hl.
    rewrite decide_False.
    - destruct (fs !! (sd ++ [n])) as [v|] eqn:E; [| done].
      assert (Hp : is_Some (fs !! (sd ++ [n]))) by (by rewrite E).
      pose proof (wf_parent fs sd n Hwf Hp). congruence.
    - intros [r Hr]. apply (f_equal length) in Hr.
      rewrite !length_app in Hr. simpl in Hr. lia. }
  unfold run_try, mbind, io_bind, readdir, query, readdir_at. fold sd.
  rewrite Hdir, Hch. done.
Qed.

End FirstListing.

(** A disk on which [/opt/mm] has no [servers] yet. *)
Lemma first_listing_creates_servers_directory_witness :
  ∃ fs',
    Server.get_servers Sample.dirname Sample.admin
      (list_to_map [([], Fs.Dir); (["opt"], Fs.Dir); (["opt"; "mm"], Fs.Dir)])
    = (Http.json (Http.JServers []), fs')
    ∧ fs' !! ["opt"; "mm"; "servers"] = Some Fs.Dir.
Proof.
  set (fs := list_to_map [([], Fs.Dir); (["opt"], Fs.Dir); (["opt"; "mm"], Fs.Dir)]
             : Fs.state).
  assert (Hwf : Fs.wf fs).
  { split; [vm_compute; reflexivity |].
    apply (bool_decide_unpack _). vm_compute. reflexivity. }
  pose proof (first_listing_creates_servers_directory Sample.dirname Sample.admin fs
                eq_refl Hwf) as H.
  cbv zeta in H. destruct H as (fs' & E & Hl).
  - vm_compute. reflexivity.
  - intros r1 r2 _ [c Hc].
    assert (Hall : map_Forall (λ (_ : Fs.key) (v : Fs.node), v = Fs.Dir) fs).
    { apply (bool_decide_unpack _). vm_compute. reflexivity. }
    apply Hall in Hc. discriminate Hc.
  - exists fs'. split; [exact E |]. rewrite Hl. vm_compute. reflexivity.
Defined.

(** ** What the path check lets through *)

Section CheckComplete.
Import Fs Io Http Server Paths More NodePath.

Lemma join_slash_app (l r : list string) :
  l ≠ [] → ∃ t, join_slash (l ++ r) = join_slash l +:+ t.
Proof.
  intros Hl. induction r as [|x r [t IH]] using rev_ind.
  - exists "". by rewrite app_nil_r, append_empty_r.
  - exists (t +:+ "/" +:+ x). rewrite app_assoc.
    rewrite join_slash_snoc by (by destruct l). rewrite IH.
    by rewrite !append_assoc.
Qed.

(** A joined path that leads to [base] or below it starts with the text
    of [base], when that text is [base]'s normal form. *)
Lemma inside_passes (a : string) (rest : list string) (base : string) :
  isAbsolute a = true →
  segments base ≠ [] → base = "/" +:+ join_slash (segments base) →
  under (segments base) (segments (join (a :: rest))) = true →
  JsString.startsWith (join (a :: rest)) base = true.
Proof.
  intros Ha Hne Hbase Hu. unfold JsString.startsWith.
  rewrite join_unfold in * by done.
  set (x := join_slash (a :: filter (λ a0, a0 ≠ "") rest)) in *.
  assert (Hx : isAbsolute x = true) by (by apply join_slash_abs).
  rewrite segments_normalize in Hu by done.
  apply under_true in Hu as [r Hr].
  rewrite normalize_abs by done. rewrite Hr.
  destruct (segments base ++ r) as [|y l] eqn:E; [by destruct (segments base) |].
  rewrite <- E. destruct (join_slash_app (segments base) r Hne) as [t ->].
  rewrite Hbase at 1. rewrite !append_assoc. rewrite <- append_assoc.
  apply prefix_append.
Qed.

Variable dirname : string.
Hypothesis Habs : isAbsolute dirname = true.

(** X25.  The path check never turns away what is inside: a path the
    handlers build for a server of a proper name, and that leads to the
    server's directory or below it, passes [startsWith]. *)
Theorem check_accepts_what_is_inside (s : string) (path : option string)
    (f dest : string) :
  valid_name s →
  (contained dirname s (targetDir dirname s path) = true →
   passes_check dirname s (targetDir dirname s path) = true) ∧
  (contained dirname s (filePath dirname s path f) = true →
   passes_check dirname s (filePath dirname s path f) = true) ∧
  (contained dirname s (destFilePath dirname s dest f) = true →
   passes_check dirname s (destFilePath dirname s dest f) = true).
Proof.
  intros Hs.
  assert (Hbase : serverPath dirname s
                  = "/" +:+ join_slash (segments (serverPath dirname s))).
  { unfold serverPath, serverPathOf.
    rewrite (join_name_normal _ s (serversDir_abs dirname Habs) Hs) at 1.
    by rewrite (segments_join_name _ s (serversDir_abs dirname Habs) Hs). }
  assert (Hne : segments (serverPath dirname s) ≠ []).
  { rewrite (segments_serverPath dirname Habs s Hs). apply segments_nonempty_key. }
  unfold contained, passes_check.
  split; [| split]; intros H.
  - apply inside_passes; [by apply serverPath_abs | done ..].
  - apply inside_passes; [by apply targetDir_abs | done ..].
  - apply inside_passes; [by apply destDir_abs | done ..].
Qed.

End CheckComplete.

Lemma check_accepts_what_is_inside_witness :
  Paths.passes_check Sample.dirname "s1"
    (Paths.filePath Sample.dirname "s1" (Some "sub/../sub") "a.txt") = true.
Proof.
  assert (Hs : Fs.valid_name "s1") by (by apply (bool_decide_unpack _)).
  destruct (check_accepts_what_is_inside Sample.dirname eq_refl "s1"
              (Some "sub/../sub") "a.txt" "sub" Hs) as (_ & H & _).
  apply H. vm_compute. reflexivity.
Defined.

(** ** The global copy, move and rename *)

Section GlobalMoves.
Import Fs Io Http Server Paths More.

Variable sess : session.
Hypothesis Hsess : logged_in sess = true.

Lemma copy_as_insert fs (src dst : key) (c : string) :
  wf fs → fs !! src = Some (File c) → fs !! dst = None →
  ∀ q, <[dst := File c]> fs !! q
       = match strip_prefix dst q with
         | Some r => fs !! (src ++ r)
         | None => fs !! q
         end.
Proof.
  intros Hwf Hv Hnew q. destruct (decide (q = dst)) as [-> | Hq].
  - by rewrite lookup_insert_eq, strip_prefix_self, app_nil_r.
  - rewrite lookup_insert_ne by done.
    destruct (strip_prefix dst q) as [r|] eqn:E; [| done].
    apply strip_prefix_Some in E as ->.
    assert (Hr : r ≠ []) by (intros ->; by rewrite app_nil_r in Hq).
    transitivity (@None node).
    + destruct (fs !! (dst ++ r)) eqn:E'; [| done].
      assert (is_Some (fs !! (dst ++ r))) as Hs by eauto.
      pose proof (wf_above_is_dir fs dst r Hwf Hs Hr). congruence.
    + symmetry. apply (wf_nothing_below_file fs src _ c Hwf Hv).
      * apply under_true. by exists r.
      * intros E. rewrite <- (app_nil_r src) in E at 2.
        by apply app_inv_head in E.
Qed.


(** X27.  The global copy, for absolute paths that the kernel can
    follow, copies a file, and a folder with all below it, to a
    destination that is free, in an existing directory and not inside
    what is copied: every entry of the source is found at the same place
    below the destination and nothing else changes.  ([depth] only has
    to exceed the number of levels of the tree.) *)
Theorem global_copy_copies (depth : nat) (a b : string) (fs : state)
    (src dst : key) :
  wf fs →
  kernel_resolve fs a = Some src → kernel_resolve fs b = Some dst →
  is_Some (fs !! src) → fs !! dst = None → fs !! parent dst = Some Dir →
  under src dst = false →
  (∀ r, is_Some (fs !! (src ++ r)) → (length r < depth)%nat) →
  ∃ fs',
    post_copy depth sess (Some a) (Some b) fs
    = (json (JMessage "Item copied successfully"), fs')
    ∧ ∀ q, fs' !! q = match strip_prefix dst q with
                      | Some r => fs !! (src ++ r)
                      | None => fs !! q
                      end.
Proof.
  intros Hwf Hka Hkb.
  destruct (kernel_resolve_segments fs a src Hka) as [Ha <-].
  destruct (kernel_resolve_segments fs b dst Hkb) as [Hb <-].
  set (src := NodePath.segments a). set (dst := NodePath.segments b).
  intros [v Hv] Hnew Hp Hu Hdepth.
  assert (Hta : JsString.truthy (Some a) = true) by (by destruct a).
  assert (Htb : JsString.truthy (Some b) = true) by (by destruct b).
  assert (Hdst : ∃ p n, dst = p ++ [n] ∧ valid_name n).
  { pose proof (segments_valid b) as Hval. fold dst in Hval.
    destruct dst as [|x l _] using rev_ind.
    - rewrite (wf_root fs Hwf) in Hnew. done.
    - exists l, x. split; [done |]. apply Forall_app in Hval as [_ Hval].
      by inversion Hval. }
  destruct Hdst as (p & n & Edst & Hn).
  assert (Hrun : ∃ fs',
             (if (match v with Dir => true | File _ => false end)
              then copyDirectory depth a b else copyFile a b) fs = (Ok (), fs')
             ∧ ∀ q, fs' !! q = match strip_prefix dst q with
                               | Some r => fs !! (src ++ r)
                               | None => fs !! q
                               end).
  { destruct v as [c|].
    - exists (<[dst := File c]> fs). split; [| by apply copy_as_insert].
      unfold copyFile, update, copy_file_at, read_at. fold src dst. rewrite Hv.
      rewrite write_at_Ok; [done | | done | by rewrite Hnew].
      rewrite Edst. apply segments_nonempty_key.
    - destruct (copyDirectory_copies depth a b p n fs) as (fs' & E & _ & Hl);
        try done.
      + fold dst. rewrite Edst in Hp. by rewrite parent_snoc in Hp.
      + fold dst. by rewrite <- Edst.
      + fold src. by rewrite <- Edst.
      + exists fs'. split; [done |]. intros q. rewrite Hl. fold src.
        by rewrite <- Edst. }
  destruct Hrun as (fs' & E & Hl). exists fs'. split; [| done].
  unfold post_copy, api, isAuthenticated. rewrite Hsess.
  rewrite Hta, Htb. cbn [negb orb JsString.or_empty]. cbv zeta.
  rewrite run_try_bind_existsSync. unfold exists_in at 1. fold src.
  rewrite Hv, bool_decide_eq_true_2 by eauto. cbn [negb].
  rewrite run_try_bind_existsSync. unfold exists_in at 1. fold dst.
  rewrite Hnew, bool_decide_eq_false_2 by (by intros [? ?]).
  rewrite (run_try_bind_Ok (stat_isDirectory a) _ _ fs
             (match v with Dir => true | File _ => false end) fs)
    by (unfold stat_isDirectory; fold src; rewrite Hv; by destruct v).
  erewrite run_try_bind_Ok; [apply run_try_mret | exact E].
Qed.

End GlobalMoves.


(** On the sample disk: the folder [sub] of [s1] is copied into
    [s1-evil]. *)
Lemma global_copy_copies_witness :
  ∃ fs',
    More.post_copy 64 Sample.admin (Some "/opt/mm/servers/s1/sub")
      (Some "/opt/mm/servers/s1-evil/sub") Sample.disk
    = (Http.json (Http.JMessage "Item copied successfully"), fs')
    ∧ fs' !! ["opt"; "mm"; "servers"; "s1-evil"; "sub"; "a.txt"] = Some (Fs.File "old").
Proof.
  assert (Hwf : Fs.wf Sample.disk).
  { split; [vm_compute; reflexivity |].
    apply (bool_decide_unpack _). vm_compute. reflexivity. }
  assert (Hlen : map_Forall (λ (k : Fs.key) (_ : Fs.node), (length k < 64)%nat)
                   Sample.disk).
  { apply (bool_decide_unpack _). vm_compute. reflexivity. }
  pose proof (global_copy_copies Sample.admin eq_refl 64 "/opt/mm/servers/s1/sub"
                "/opt/mm/servers/s1-evil/sub" Sample.disk
                ["opt"; "mm"; "servers"; "s1"; "sub"]
                ["opt"; "mm"; "servers"; "s1-evil"; "sub"] Hwf) as H.
  destruct H as (fs' & E & Hl).
  - vm_compute. reflexivity.
  - vm_compute. reflexivity.
  - vm_compute. eauto.
  - vm_compute. reflexivity.
  - vm_compute. reflexivity.
  - vm_compute. reflexivity.
  - intros r [v Hv]. apply Hlen in Hv. cbv beta in Hv.
    rewrite length_app in Hv. lia.
  - exists fs'. split; [exact E |]. rewrite Hl. vm_compute. reflexivity.
Defined.

(** ** The names in the process list *)

Section Names.
Import Fs Io Http Server Paths More.

Lemma find_by_name_None (s : string) (l : list Pm2.proc) :
  Pm2.find_by_name s l = None → s ∉ Pm2.name <$> l.
Proof.
  unfold Pm2.find_by_name. induction l as [|p l IH]; simpl; intros H Hin.
  - by apply elem_of_nil in Hin.
  - destruct (bool_decide (Pm2.name p = s)) eqn:E; [done |].
    apply bool_decide_eq_false in E.
    apply elem_of_cons in Hin as [-> | Hin]; [done | by apply IH].
Qed.

Lemma names_on_named (s : string) (f : Pm2.proc → Pm2.proc) (ps : list Pm2.proc) :
  (∀ p, Pm2.name (f p) = Pm2.name p) →
  Pm2.name <$> on_named s f ps = Pm2.name <$> ps.
Proof.
  intros Hf. unfold on_named. induction ps as [|p ps IH]; [done |].
  rewrite !fmap_cons, IH. f_equal. by destruct (bool_decide _).
Qed.

(** X28.  The routes for the process manager never take a name out of
    the process list and never register a name twice: when every name is
    registered at most once, it is so after a status, start, stop,
    restart or command request, and every name registered before is
    registered after. *)
Theorem names_registered_once (dirname : string) (now : Z) (fs : state)
    (sess : session) (s : string) (command : option string) (d d' : Pm2.daemon) :
  NoDup (Pm2.name <$> Pm2.procs d) →
  d' ∈ [ (get_status now sess s d).2;
         (post_start dirname now fs sess s d).2;
         (post_stop sess s d).2;
         (post_restart now sess s d).2;
         (post_command sess s command d).2 ] →
  NoDup (Pm2.name <$> Pm2.procs d')
  ∧ ∀ n, n ∈ Pm2.name <$> Pm2.procs d → n ∈ Pm2.name <$> Pm2.procs d'.
Proof.
  intros Hnd Hd'.
  assert (Hcases : Pm2.name <$> Pm2.procs d' = Pm2.name <$> Pm2.procs d
                   ∨ (Pm2.name <$> Pm2.procs d' = (Pm2.name <$> Pm2.procs d) ++ [s]
                      ∧ s ∉ Pm2.name <$> Pm2.procs d)).
  { repeat (apply elem_of_cons in Hd' as [-> | Hd']).
    - left. unfold get_status, guarded, isAuthenticated.
      destruct (logged_in sess); [| done]. cbv zeta.
      destruct (Pm2.connect_fails d); [done |].
      destruct (Pm2.list_fails d); [done |].
      by destruct (Pm2.find_by_name s (Pm2.procs d)).
    - unfold post_start, guarded, isAuthenticated.
      destruct (logged_in sess); [| by left]. cbv zeta.
      destruct (Pm2.connect_fails d); [by left |].
      destruct (Pm2.list_fails d); [by left |].
      destruct (Pm2.find_by_name s (Pm2.procs d)) eqn:E; [by left |].
      destruct (exists_in fs _); cbn [negb]; [| by left].
      unfold Pm2.start. destruct (Pm2.start_fails d); [by left |].
      right. cbn [snd Pm2.procs]. rewrite fmap_app. split; [done |].
      by apply find_by_name_None.
    - left. unfold post_stop, guarded, isAuthenticated.
      destruct (logged_in sess); [| done]. cbv zeta.
      destruct (Pm2.connect_fails d); [done |].
      unfold pm2_stop. destruct (Pm2.find_by_name s (Pm2.procs d)); [| done].
      cbn [snd with_procs Pm2.procs]. by apply names_on_named.
    - left. unfold post_restart, guarded, isAuthenticated.
      destruct (logged_in sess); [| done]. cbv zeta.
      destruct (Pm2.connect_fails d); [done |].
      unfold pm2_restart. destruct (Pm2.find_by_name s (Pm2.procs d)); [| done].
      cbn [snd with_procs Pm2.procs]. by apply names_on_named.
    - left. unfold post_command, guarded, isAuthenticated.
      destruct (logged_in sess); [| done]. cbv zeta.
      destruct (JsString.truthy command); cbn [negb]; [| done].
      destruct (Pm2.connect_fails d); [done |].
      destruct (Pm2.list_fails d); [done |].
      destruct (Pm2.find_by_name s (Pm2.procs d)) as [p|]; [| done].
      unfold Pm2.sendDataToProcessId.
      destruct (List.find _ (Pm2.procs d)) as [p'|]; [| done].
      by destruct (Pm2.send_fails d || negb (bool_decide (Pm2.status p' = "online"))).
    - by apply elem_of_nil in Hd'. }
  destruct Hcases as [-> | [-> Hs]]; [done |]. split.
  - apply NoDup_app. split; [done |]. split; [| apply NoDup_singleton].
    intros x Hx Hx'. apply list_elem_of_singleton in Hx'. by subst.
  - intros n Hn. apply elem_of_app. by left.
Qed.

End Names.

(** With [s1] registered, a second server, [s1-evil], is started. *)
Lemma names_registered_once_witness :
  let d := Sample.daemon_with [Sample.online_s1] in
  let d' := (Server.post_start Sample.dirname 2000 Sample.disk Sample.admin "s1-evil" d).2 in
  NoDup (Pm2.name <$> Pm2.procs d') ∧ "s1" ∈ Pm2.name <$> Pm2.procs d'.
Proof.
  intros d d'.
  assert (Hnd : NoDup (Pm2.name <$> Pm2.procs d)).
  { vm_compute. apply NoDup_singleton. }
  destruct (names_registered_once Sample.dirname 2000 Sample.disk Sample.admin
              "s1-evil" None d d' Hnd) as [H1 H2].
  - right. left.
  - split; [exact H1 |]. apply H2. vm_compute. left.
Defined.

(** ** The bulk move of one name *)

Section BulkOfOne.
Import Fs Io Http Server Paths More NodePath.

Lemma prefix_weaken (p a y : string) :
  String.prefix p a = true → String.prefix p (a +:+ y) = true.
Proof.
  revert a. induction p as [|c p IH]; intros a H; [by destruct (a +:+ y) |].
  destruct a as [|c' a]; [done |]. rewrite append_cons. simpl in *.
  destruct (ascii_dec c c'); [by apply IH | done].
Qed.

(** A proper name joined onto a path keeps the text the path starts
    with. *)
Lemma child_keeps_prefix (a : string) (rest : list string) (f p : string) :
  isAbsolute a = true → Fs.valid_name f →
  JsString.startsWith (join (a :: rest)) p = true →
  JsString.startsWith (join [join (a :: rest); f]) p = true.
Proof.
  intros Ha Hf. unfold JsString.startsWith.
  rewrite (join_name_normal (join (a :: rest)) f) by (by try apply join_abs).
  rewrite join_unfold by done.
  set (x := join_slash (a :: filter (λ a0, a0 ≠ "") rest)).
  assert (Hx : isAbsolute x = true) by (by apply join_slash_abs).
  rewrite segments_normalize by done. rewrite normalize_abs by done.
  destruct (segments x) as [|y l] eqn:E.
  - intros H. simpl. by apply (prefix_weaken p "/" f).
  - rewrite join_slash_snoc by done.
    destruct (trailingSlash x); intros H.
    + rewrite <- !append_assoc. rewrite <- !append_assoc in H.
      by apply prefix_weaken.
    + rewrite append_empty_r in H. rewrite <- append_assoc.
      by apply prefix_weaken.
Qed.

Variable dirname : string.
Hypothesis Habs : isAbsolute dirname = true.

(** X29.  The bulk move of one proper name does what the single move
    does: it leaves the same filesystem, and it reports "success" for the
    name exactly when the single move is answered 200.  (The bulk move
    checks the two folders, the single move the two paths in them.) *)
Theorem bulk_of_one_is_move (sess : session) (s f dest : string)
    (path : option string) (fs : state) :
  valid_name f →
  passes_check dirname s (targetDir dirname s path) = true →
  passes_check dirname s (destDir dirname s dest) = true →
  let bulk := post_server_move_multiple dirname sess s [f] dest path fs in
  let single := post_server_move dirname sess s f dest path fs in
  bulk.2 = single.2 ∧
  (code single.1 = 200 ↔
   ∃ r, payload bulk.1 = JMoveResults "Files move operation completed" [r]
        ∧ mr_status r = "success").
Proof.
  intros Hf Hc1 Hc2.
  pose proof (child_keeps_prefix _ [JsString.or_empty path] f _
                (serverPath_abs dirname Habs s) Hf Hc1) as Hc1'.
  pose proof (child_keeps_prefix _ [dest] f _
                (serverPath_abs dirname Habs s) Hf Hc2) as Hc2'.
  unfold passes_check in Hc1, Hc2.
  unfold post_server_move_multiple, post_server_move, api, isAuthenticated.
  destruct (logged_in sess); cbv zeta.
  2: { split; [done |]. split; [done | by intros (r & H & _)]. }
  change (NodePath.join [serversDir dirname; s]) with (serverPath dirname s).
  change (NodePath.join [serverPath dirname s; JsString.or_empty path])
    with (targetDir dirname s path) in *.
  change (NodePath.join [serverPath dirname s; dest]) with (destDir dirname s dest) in *.
  rewrite Hc1, Hc2, Hc1', Hc2'. cbn [negb orb].
  rewrite !run_try_bind_existsSync.
  destruct (exists_in fs (serverPath dirname s)); cbn [negb].
  2: { split; [done |]. split; [done | by intros (r & H & _)]. }
  rewrite !run_try_bind_existsSync.
  set (src := NodePath.join [targetDir dirname s path; f]).
  set (dst := NodePath.join [destDir dirname s dest; f]).
  destruct (exists_in fs src) eqn:Esrc,
           (exists_in fs (destDir dirname s dest)) eqn:Edd; cbn [negb].
  all: rewrite ?run_try_bind_existsSync, ?Edd; cbn [negb].
  all: unfold run_try, move_each, move_one, try_io, mbind, io_bind, existsSync,
         rename, update, mret, io_ret.
  all: fold src dst; rewrite ?Esrc; cbn [negb].
  all: try destruct (exists_in fs dst) eqn:Edst.
  all: try destruct (rename_at _ _ fs) eqn:Er.
  all: cbn.
  all: split; [done |]; split;
    [ intros H; try discriminate H; eexists; split; reflexivity
    | intros (r & H & Hs); try discriminate H; injection H as <-;
      try discriminate Hs; done ].
Qed.

End BulkOfOne.

(** On the sample disk: [b.txt] of [s1] into [sub], as a bulk of one and
    as a single move. *)
Lemma bulk_of_one_is_move_witness :
  (Server.post_server_move_multiple Sample.dirname Sample.admin "s1" ["b.txt"] "sub" None
     Sample.disk).2
  = (Server.post_server_move Sample.dirname Sample.admin "s1" "b.txt" "sub" None
       Sample.disk).2.
Proof.
  assert (Hf : Fs.valid_name "b.txt") by (by apply (bool_decide_unpack _)).
  pose proof (bulk_of_one_is_move Sample.dirname eq_refl Sample.admin "s1" "b.txt" "sub"
                None Sample.disk Hf) as H.
  cbv zeta in H. destruct H as [H _].
  - vm_compute. reflexivity.
  - vm_compute. reflexivity.
  - exact H.
Defined.
